(** * Benford analysis over a hand-rolled spreadsheet reader

    A shallow embedding of [scripts/benford_analysis.py]: the cell-reference
    resolver, the cell decoder, the worksheet extractor, the column
    classifier and the Benford engine, followed by the properties the
    specification states about them.

    Conventions of the embedding.
    - A Python [int] is a [Z].
    - A Python [str] is a [string]; only code points below 256 are
      represented, so the classification of characters (upper case, digit,
      white space) is the one Python applies to that range.
    - A Python [float] is a [float] below: a rational number, or one of the
      special values infinity and NaN.  Conversions and arithmetic round to
      binary64, to the nearest value with ties to the even significand, as
      IEEE 754 prescribes; the two zeros are not told apart, which no
      result of the program depends on.
    - A Python exception is a [Raise] in the [result] monad. *)

From Stdlib Require Import ZArith QArith Qabs Qround Qpower Lia Lqa String Ascii List DecimalString.
From stdpp Require Import base option list gmap strings sorting.

Local Open Scope string_scope.
Local Open Scope Z_scope.

(** ** Exceptions *)

Inductive exn_class : Set :=
  | ValueError | OverflowError | IndexError | KeyError | ZeroDivisionError.

Record exn : Set := Exn { exn_cls : exn_class; exn_msg : string }.

Inductive result (A : Type) : Type :=
  | Ok (a : A)
  | Raise (e : exn).
Arguments Ok {A} a.
Arguments Raise {A} e.

#[global] Instance result_ret : MRet result := fun _ a => Ok a.
#[global] Instance result_bind : MBind result := fun _ _ f m =>
  match m with
  | Ok a => f a
  | Raise e => Raise e
  end.

(** ** Characters and strings *)

Definition ord (c : ascii) : Z := Z.of_N (N_of_ascii c).

Definition is_upper (c : ascii) : bool := (65 <=? ord c) && (ord c <=? 90).
Definition is_digit (c : ascii) : bool := (48 <=? ord c) && (ord c <=? 57).

(** White space as [str.strip] sees it, below code point 256. *)
Definition is_space (c : ascii) : bool :=
  ((9 <=? ord c) && (ord c <=? 13)) || ((28 <=? ord c) && (ord c <=? 32))
  || (ord c =? 133) || (ord c =? 160).

(** White space as [int] and [float] skip it around a literal: the same
    characters but for the separators U+001C to U+001F, which they take as
    part of the literal and so reject. *)
Definition is_numeric_space (c : ascii) : bool :=
  is_space c && negb ((28 <=? ord c) && (ord c <=? 31)).

Definition lower_char (c : ascii) : ascii :=
  if is_upper c then ascii_of_N (N_of_ascii c + 32) else c.

(** ** 4.1 CellRef resolver *)

(** The text matched by the group of [re.match(r"([A-Z]+)", s)]. *)
Fixpoint upper_run (s : string) : string :=
  match s with
  | String c s' => if is_upper c then String c (upper_run s') else ""
  | EmptyString => ""
  end.

Definition re_match_upper (s : string) : option string :=
  match upper_run s with
  | EmptyString => None
  | run => Some run
  end.

Definition column_index_from_ref (cell_ref : string) : Z :=
  match re_match_upper cell_ref with
  | None => 0
  | Some letters =>
      fold_left (fun result char => result * 26 + (ord char - ord "A" + 1))
                (list_ascii_of_string letters) 0
  end.

(** ** Strings: the [str] methods the program uses *)

Fixpoint lstrip (s : string) : string :=
  match s with
  | String c s' => if is_space c then lstrip s' else s
  | EmptyString => ""
  end.

Fixpoint rstrip (s : string) : string :=
  match s with
  | String c s' =>
      match rstrip s' with
      | EmptyString => if is_space c then "" else String c ""
      | r => String c r
      end
  | EmptyString => ""
  end.

(** [s.strip()] *)
Definition strip (s : string) : string := lstrip (rstrip s).

(** The text of a numeric literal without the white space around it. *)
Fixpoint numeric_lstrip (s : string) : string :=
  match s with
  | String c s' => if is_numeric_space c then numeric_lstrip s' else s
  | EmptyString => ""
  end.

Fixpoint numeric_rstrip (s : string) : string :=
  match s with
  | String c s' =>
      match numeric_rstrip s' with
      | EmptyString => if is_numeric_space c then "" else String c ""
      | r => String c r
      end
  | EmptyString => ""
  end.

Definition numeric_strip (s : string) : string := numeric_lstrip (numeric_rstrip s).

(** [s.lower()].  Only the letters A-Z are mapped; the other upper-case
    letters below 256 become letters outside a-z, so they play no part in
    the comparisons with "date", "inf" and "nan" made below. *)
Fixpoint lower (s : string) : string :=
  match s with
  | String c s' => String (lower_char c) (lower s')
  | EmptyString => ""
  end.

(** [needle in hay] *)
Fixpoint contains (needle hay : string) : bool :=
  String.prefix needle hay ||
  match hay with
  | String _ hay' => contains needle hay'
  | EmptyString => false
  end.

(** [s.replace(",", "")] *)
Fixpoint remove_commas (s : string) : string :=
  match s with
  | String c s' => if Ascii.eqb c "," then remove_commas s' else String c (remove_commas s')
  | EmptyString => ""
  end.

Definition startswith (s pre : string) : bool := String.prefix pre s.
Definition endswith (s suf : string) : bool :=
  String.prefix (String.rev suf) (String.rev s).

(** [str(n)] for an [int] *)
Definition str_of_int (n : Z) : string :=
  DecimalString.NilZero.string_of_int (Z.to_int n).

(** ** Numeric literals: [int(s)] and [float(s)]

    Both skip surrounding white space, take an optional sign, and read
    runs of decimal digits in which single underscores may separate
    digits.  [None] stands for the [ValueError] they raise. *)

Definition digit_value (c : ascii) : Z := ord c - 48.

(** The rest of a digit run: [(["_"] digit)*].  Returns the accumulated
    value, the number of digits read and the unread suffix. *)
Fixpoint digitpart_rest (acc : Z) (n : nat) (s : string) : Z * nat * string :=
  match s with
  | String c s' =>
      if is_digit c then digitpart_rest (acc * 10 + digit_value c) (S n) s'
      else if Ascii.eqb c "_" then
        match s' with
        | String d s'' =>
            if is_digit d then digitpart_rest (acc * 10 + digit_value d) (S n) s''
            else (acc, n, s)
        | EmptyString => (acc, n, s)
        end
      else (acc, n, s)
  | EmptyString => (acc, n, s)
  end.

(** [digit (["_"] digit)*] *)
Definition digitpart (s : string) : option (Z * nat * string) :=
  match s with
  | String c s' => if is_digit c then Some (digitpart_rest (digit_value c) 1 s') else None
  | EmptyString => None
  end.

(** An optional sign: [true] for minus. *)
Definition split_sign (s : string) : bool * string :=
  match s with
  | String c s' =>
      if Ascii.eqb c "-" then (true, s')
      else if Ascii.eqb c "+" then (false, s')
      else (false, s)
  | EmptyString => (false, s)
  end.

(** The interpreter's limit on the number of digits of a decimal integer
    literal ([sys.get_int_max_str_digits()], 4300 unless reconfigured).
    Every digit counts, leading zeros too; sign, underscores and white
    space do not. *)
Definition int_max_str_digits : Z := 4300.

(** [int(s)] *)
Definition py_int (s : string) : option Z :=
  let '(neg, body) := split_sign (numeric_strip s) in
  match digitpart body with
  | Some (v, n, EmptyString) =>
      if int_max_str_digits <? Z.of_nat n then None
      else Some (if neg then - v else v)
  | _ => None
  end.

(** ** Floats *)

Inductive float : Type :=
  | Fin (q : Q)
  | Inf (negative : bool)
  | NaN.

(** [float(n)] for an [int] below [2^53] in magnitude, where it is exact:
    the program converts list lengths, row counts and rounded serial
    dates. *)
Definition float_of_int (n : Z) : float := Fin (inject_Z n).

(** [10**e] and [2**e] as rationals. *)
Definition Qpow10 (e : Z) : Q := Qpower (10 # 1) e.

Definition Qpow2 (e : Z) : Q :=
  if 0 <=? e then inject_Z (2 ^ e) else 1 # Z.to_pos (2 ^ (- e)).

(** Nearest integer, halves to the even neighbour. *)
Definition Qround_half_even (q : Q) : Z :=
  let f := Qfloor q in
  let r := (q - inject_Z f)%Q in
  match Qcompare r (1 # 2) with
  | Lt => f
  | Gt => f + 1
  | Eq => if Z.even f then f else f + 1
  end.

(** [floor(log2(q))] for a positive rational [n/d]: one of the two
    candidates [log2 n - log2 d] and its predecessor. *)
Definition Qfloor_log2 (q : Q) : Z :=
  let k := Z.log2 (Qnum q) - Z.log2 (Zpos (Qden q)) in
  if Qle_bool (Qpow2 k) q then k else k - 1.

(** Rounding to binary64: the nearest number [m * 2^e] with [m] an integer
    below [2^53] in magnitude and [e >= -1074], the even [m] of two
    nearest ones.  The exponent is not bounded above here; [float_of_Q]
    adds the overflow. *)
Definition binary64 (q : Q) : Q :=
  if Qeq_bool q 0 then 0%Q
  else
    let a := Qabs q in
    let e := Z.max (Qfloor_log2 a - 52) (-1074) in
    let m := Qround_half_even (a / Qpow2 e) in
    Qred (inject_Z (if Qle_bool 0 q then m else - m) * Qpow2 e).

Definition Qnegative (q : Q) : bool := negb (Qle_bool 0 q).

(** The float nearest to a rational: what rounds to [2^1024] or beyond is
    an infinity. *)
Definition float_of_Q (q : Q) : float :=
  let r := binary64 q in
  if Qle_bool (Qpow2 1024) (Qabs r) then Inf (Qnegative q) else Fin r.

Definition split_exponent (s : string) : option (Z * string) :=
  match s with
  | String c s' =>
      if Ascii.eqb c "e" || Ascii.eqb c "E" then
        let '(neg, body) := split_sign s' in
        match digitpart body with
        | Some (v, _, rest) => Some (if neg then - v else v, rest)
        | None => None
        end
      else Some (0, s)
  | EmptyString => Some (0, s)
  end.

(** [[digitpart] "." digitpart | digitpart ["."]] followed by an optional
    exponent; the whole text must be used up. *)
Definition parse_decimal (s : string) : option Q :=
  let finish (mantissa : Z) (fraction_digits : nat) (rest : string) : option Q :=
    match split_exponent rest with
    | Some (e, EmptyString) =>
        Some (inject_Z mantissa * Qpow10 (e - Z.of_nat fraction_digits))%Q
    | _ => None
    end in
  match digitpart s with
  | Some (iv, _, rest) =>
      match rest with
      | String c rest' =>
          if Ascii.eqb c "." then
            match digitpart rest' with
            | Some (fv, fn, rest'') => finish (iv * 10 ^ Z.of_nat fn + fv) fn rest''
            | None => finish iv 0%nat rest'
            end
          else finish iv 0%nat rest
      | EmptyString => finish iv 0%nat rest
      end
  | None =>
      match s with
      | String c rest' =>
          if Ascii.eqb c "." then
            match digitpart rest' with
            | Some (fv, fn, rest'') => finish fv fn rest''
            | None => None
            end
          else None
      | EmptyString => None
      end
  end.

(** [float(s)]: the literal is read exactly and rounded once. *)
Definition py_float (s : string) : option float :=
  let '(neg, body) := split_sign (numeric_strip s) in
  let name := lower body in
  if String.eqb name "inf" || String.eqb name "infinity" then Some (Inf neg)
  else if String.eqb name "nan" then Some NaN
  else match parse_decimal body with
       | Some q => Some (float_of_Q (if neg then - q else q)%Q)
       | None => None
       end.

(** Comparisons and arithmetic with the special values. *)

(** [a == b] *)
Definition float_eqb (a b : float) : bool :=
  match a, b with
  | Fin p, Fin q => Qeq_bool p q
  | Inf s, Inf t => Bool.eqb s t
  | _, _ => false
  end.

(** [a <= b] *)
Definition float_leb (a b : float) : bool :=
  match a, b with
  | NaN, _ | _, NaN => false
  | Fin p, Fin q => Qle_bool p q
  | Inf true, _ => true
  | _, Inf false => true
  | Inf false, _ => false
  | _, Inf true => false
  end.

(** [a < b] *)
Definition float_ltb (a b : float) : bool :=
  match a, b with
  | NaN, _ | _, NaN => false
  | _, _ => negb (float_leb b a)
  end.

(** [abs(a)] *)
Definition float_abs (a : float) : float :=
  match a with
  | Fin q => Fin (Qabs q)
  | Inf _ => Inf false
  | NaN => NaN
  end.

(** [a - b], without rounding: the program subtracts, in
    [is_date_like_column], a value between 20000 and 60000 and the integer
    nearest to it, and the difference of two binary64 values within a
    factor two of each other is a binary64 value. *)
Definition float_sub (a b : float) : float :=
  match a, b with
  | NaN, _ | _, NaN => NaN
  | Fin p, Fin q => Fin (p - q)
  | Inf s, Fin _ => Inf s
  | Fin _, Inf t => Inf (negb t)
  | Inf s, Inf t => if Bool.eqb s t then NaN else Inf s
  end.

(** [a / b] *)
Definition float_truediv (a b : float) : result float :=
  if float_eqb b (Fin 0) then Raise (Exn ZeroDivisionError "float division by zero")
  else Ok match a, b with
          | NaN, _ | _, NaN => NaN
          | Fin p, Fin q => float_of_Q (p / q)
          | Inf s, Fin q => Inf (xorb s (Qnegative q))
          | Fin _, Inf _ => Fin 0
          | Inf _, Inf _ => NaN
          end.

(** [a / b] on two [int]s: the quotient rounded once. *)
Definition int_truediv (a b : Z) : result Q :=
  if b =? 0 then Raise (Exn ZeroDivisionError "division by zero")
  else match float_of_Q (inject_Z a / inject_Z b) with
       | Fin q => Ok q
       | _ => Raise (Exn OverflowError "integer division result too large for a float")
       end.

(** The quotient of two [int]s before it is rounded.  [is_date_like_column]
    divides a count by the length of the list only to compare the result
    with 0.8, and the rounding of the quotient changes the answer of that
    comparison for no list of fewer than 10^16 values. *)
Definition exact_ratio (a b : Z) : result Q :=
  if b =? 0 then Raise (Exn ZeroDivisionError "division by zero")
  else Ok (inject_Z a / inject_Z b)%Q.

(** [x / n] for a finite float and an [int]: the [int] is converted, the
    quotient rounded.  The values divided in this program are sums of
    numbers between 0 and 1, so no overflow is provided for. *)
Definition Q_truediv (x : Q) (n : Z) : result Q :=
  if n =? 0 then Raise (Exn ZeroDivisionError "float division by zero")
  else Ok (binary64 (x / binary64 (inject_Z n))).

(** Truncation towards zero. *)
Definition Qtruncate (q : Q) : Z := Z.quot (Qnum q) (Zpos (Qden q)).

(** [int(a)] *)
Definition int_of_float (a : float) : result Z :=
  match a with
  | Fin q => Ok (Qtruncate q)
  | Inf _ => Raise (Exn OverflowError "cannot convert float infinity to integer")
  | NaN => Raise (Exn ValueError "cannot convert float NaN to integer")
  end.

(** [round(a)] *)
Definition py_round (a : float) : result Z :=
  match a with
  | Fin q => Ok (Qround_half_even q)
  | Inf _ => Raise (Exn OverflowError "cannot convert float infinity to integer")
  | NaN => Raise (Exn ValueError "cannot convert float NaN to integer")
  end.

(** [floor(log10(n))] for a positive integer, by counting digits. *)
Fixpoint Zlog10_fuel (fuel : nat) (n : Z) : Z :=
  match fuel with
  | O => 0
  | S fuel' => if n <? 10 then 0 else 1 + Zlog10_fuel fuel' (n / 10)
  end.

Definition Zlog10 (n : Z) : Z := Zlog10_fuel (S (Z.to_nat (Z.log2 n))) n.

(** [floor(log10(q))] for a positive rational [n/d]: one of the two
    candidates [log10 n - log10 d] and its predecessor. *)
Definition Qfloor_log10 (q : Q) : Z :=
  let k := Zlog10 (Qnum q) - Zlog10 (Zpos (Qden q)) in
  if Qle_bool (Qpow10 k) q then k else k - 1.

(** The natural logarithm of 10, to sixty decimal places from below. *)
Definition ln10_below : Q :=
  2302585092994045684017991454684364207601101488628772976033327
  # 1000000000000000000000000000000000000000000000000000000000000.

(** Half the distance from the integer [n], as a binary64 value, to the
    binary64 value next below it. *)
Definition half_gap_below (n : Z) : Q :=
  if n =? 0 then Qpow2 (-1075)
  else
    let k := Z.log2 (Z.abs n) in
    if (0 <? n) && (n =? 2 ^ k) then Qpow2 (k - 54) else Qpow2 (k - 53).

(** Whether the logarithm of [q], which lies between [n - 1] and [n],
    rounds to [n]: that is, whether [ln(10^n / q) <= h * ln 10] for the
    half gap [h] below [n].  With [10^n / q = 1 + x] the logarithm is at
    most [x - x^2/2 + x^3/3], and exceeds [x - x^2/2]; the test is made on
    the upper bound, which at these sizes is sharp to one part in
    10^25. *)
Definition log10_rounds_to (q : Q) (n : Z) : bool :=
  let x := (Qpow10 n / q - 1)%Q in
  Qle_bool (x - x * x / 2 + x * x * x / 3) (half_gap_below n * ln10_below).

(** [math.floor(math.log10(a))].  [log10] passes NaN and infinity on and
    rejects what is not positive; [floor] rejects NaN and infinity.  The
    logarithm is the C library's and is taken to be rounded to the nearest
    binary64 value: for a value a few units in the last place below a
    power of ten it is then that power's exponent, and the floor with
    it. *)
Definition floor_log10 (a : float) : result Z :=
  match a with
  | NaN => Raise (Exn ValueError "cannot convert float NaN to integer")
  | Inf false => Raise (Exn OverflowError "cannot convert float infinity to integer")
  | Inf true => Raise (Exn ValueError "math domain error")
  | Fin q =>
      if Qle_bool q 0 then Raise (Exn ValueError "math domain error")
      else
        let k := Qfloor_log10 q in
        Ok (if log10_rounds_to q (k + 1) then k + 1 else k)
  end.

(** [10**exponent] as the divisor of a float division.  For a
    non-negative exponent it is an [int], which the division converts: to
    the nearest float, or not at all when it is too large.  For a negative
    exponent it is the float that [pow] returns, taken to be the nearest
    one: 0.0 for an exponent below -323. *)
Definition pow10 (exponent : Z) : result float :=
  match float_of_Q (Qpow10 exponent) with
  | Inf _ => Raise (Exn OverflowError "int too large to convert to float")
  | divisor => Ok divisor
  end.


(** ** Lists: the built-ins the program uses *)

(** [l[i]]: a negative index counts from the end; [None] stands for
    [IndexError]. *)
Definition py_index {A} (l : list A) (i : Z) : option A :=
  let n := Z.of_nat (length l) in
  if (0 <=? i) && (i <? n) then l !! Z.to_nat i
  else if (- n <=? i) && (i <? 0) then l !! Z.to_nat (n + i)
  else None.

(** [range(lo, hi)] *)
Definition range (lo hi : Z) : list Z := seqZ lo (hi - lo).

(** [sorted(l)] under the order [leb]: a stable insertion sort. *)
Fixpoint sorted_insert {A} (leb : A -> A -> bool) (x : A) (l : list A) : list A :=
  match l with
  | [] => [x]
  | y :: l' => if leb x y then x :: y :: l' else y :: sorted_insert leb x l'
  end.

Definition py_sorted {A} (leb : A -> A -> bool) (l : list A) : list A :=
  foldr (sorted_insert leb) [] l.

(** [sum(l)] on [int]s: a left fold from 0. *)
Definition sum_int (l : list Z) : Z := fold_left Z.add l 0.

(** [sum(l)] on floats.  Up to CPython 3.11 it is a left fold of rounded
    additions from 0.  From CPython 3.12 the rounding errors of the
    additions are accumulated beside the sum (Neumaier's scheme) and added
    at the end.  [compensated] tells which of the two the interpreter
    does. *)
Definition sum_float_plain (l : list Q) : Q :=
  fold_left (fun acc x => binary64 (acc + x)) l 0%Q.

Definition neumaier_step (state : Q * Q) (x : Q) : Q * Q :=
  let '(f, c) := state in
  let t := binary64 (f + x) in
  let lost := if Qle_bool (Qabs x) (Qabs f)
              then binary64 (binary64 (f - t) + x)
              else binary64 (binary64 (x - t) + f) in
  (t, binary64 (c + lost)).

Definition sum_float_compensated (l : list Q) : Q :=
  match l with
  | [] => 0%Q
  | x :: l' =>
      let '(f, c) := fold_left neumaier_step l' (binary64 (0 + x), 0%Q) in
      if Qeq_bool c 0 then f else binary64 (f + c)
  end.

Definition sum_float (compensated : bool) (l : list Q) : Q :=
  if compensated then sum_float_compensated l else sum_float_plain l.

(** [max(l, key=key)]: the first element whose key no later one exceeds;
    [ValueError] on an empty list. *)
Definition py_max_by {A} (key : A -> Q) (l : list A) : result A :=
  match l with
  | [] => Raise (Exn ValueError "max() arg is an empty sequence")
  | x :: l' =>
      Ok (fold_left (fun best y => if Qlt_le_dec (key best) (key y) then y else best) l' x)
  end.

(** [l.count(x)] *)
Definition py_count (l : list Z) (x : Z) : Z :=
  Z.of_nat (length (filter (fun y => y = x) l)).

(** A loop whose body may raise. *)
Fixpoint for_each {S A} (body : S -> A -> result S) (l : list A) (s : S) : result S :=
  match l with
  | [] => Ok s
  | x :: l' => s' ← body s x; for_each body l' s'
  end.

(** ** XML elements, as [xml.etree.ElementTree] presents them *)

#[warnings="-register-all"]
Inductive element : Type :=
  Element (tag : string) (attrib : list (string * string))
          (text : option string) (children : list element).

Definition tag (e : element) : string := let 'Element t _ _ _ := e in t.
Definition attrib (e : element) : list (string * string) := let 'Element _ a _ _ := e in a.
Definition text (e : element) : option string := let 'Element _ _ t _ := e in t.
Definition children (e : element) : list element := let 'Element _ _ _ c := e in c.

(** [e.attrib.get(key)] *)
Fixpoint assoc_get (key : string) (l : list (string * string)) : option string :=
  match l with
  | [] => None
  | (k, v) :: l' => if String.eqb k key then Some v else assoc_get key l'
  end.

Definition attrib_get (e : element) (key : string) : option string :=
  assoc_get key (attrib e).

(** Every element below [e], in document order. *)
Fixpoint descendants (e : element) : list element :=
  let 'Element _ _ _ cs := e in
  flat_map (fun c => c :: descendants c) cs.

Definition has_tag (t : string) (e : element) : bool := String.eqb (tag e) t.

(** [e.findall(t)], [e.find(t)], [e.findall(".//" + t)], [e.find(".//" + t)] *)
Definition findall (e : element) (t : string) : list element :=
  List.filter (has_tag t) (children e).
Definition find (e : element) (t : string) : option element :=
  head (findall e t).
Definition findall_deep (e : element) (t : string) : list element :=
  List.filter (has_tag t) (descendants e).
Definition find_deep (e : element) (t : string) : option element :=
  head (findall_deep e t).

Definition NAMESPACE : string :=
  "{http://schemas.openxmlformats.org/spreadsheetml/2006/main}".

(** ** The package: named parts, already parsed as XML *)

Definition Package : Type := list (string * element).

Definition namelist (zip_file : Package) : list string := map fst zip_file.

(** [zip_file.read(name)]: the last part of that name; [None] stands for
    [KeyError]. *)
Definition zip_read (zip_file : Package) (name : string) : option element :=
  fold_left (fun found part => if String.eqb (fst part) name then Some (snd part) else found)
            zip_file None.

(** ** Cell values: [None], a float or a string *)

Inductive value : Type :=
  | VNone
  | VFloat (f : float)
  | VStr (s : string).

Record SheetData : Type := mkSheetData {
  headers : list string;
  rows : list (list value)
}.

(** ** 4.2 Shared-string table loader *)

Definition read_shared_strings (zip_file : Package) : list string :=
  match zip_read zip_file "xl/sharedStrings.xml" with
  | None => []
  | Some root =>
      map (fun si =>
             let text_parts :=
               map (fun node => default "" (text node)) (findall_deep si (NAMESPACE ++ "t")) in
             String.concat "" text_parts)
          (findall root (NAMESPACE ++ "si"))
  end.

(** ** 4.3 Cell value decoder *)

Definition value_of_text (t : option string) : value :=
  match t with
  | Some s => VStr s
  | None => VNone
  end.

Definition parse_cell_value (cell : element) (shared_strings : list string) : value :=
  let cell_type := attrib_get cell "t" in
  if bool_decide (cell_type = Some "inlineStr") then
    let inline := find cell (NAMESPACE ++ "is") in
    let text_node :=
      match inline with
      | Some i => find_deep i (NAMESPACE ++ "t")
      | None => None
      end in
    match text_node with
    | Some node => value_of_text (text node)
    | None => VNone
    end
  else
    match find cell (NAMESPACE ++ "v") with
    | None => VNone
    | Some value_node =>
        match text value_node with
        | None => VNone
        | Some raw =>
            if bool_decide (cell_type = Some "s") then
              match py_int raw with
              | None => VNone
              | Some i =>
                  match py_index shared_strings i with
                  | Some s => VStr s
                  | None => VNone
                  end
              end
            else if bool_decide (cell_type = None) || bool_decide (cell_type = Some "n") then
              match py_float raw with
              | Some f => VFloat f
              | None => VStr raw
              end
            else VStr raw
        end
    end.

(** ** 4.4 Worksheet extractor *)

(** Truth value of a cell value, as [x or y] tests it. *)
Definition truthy (v : value) : bool :=
  match v with
  | VNone => false
  | VFloat f => negb (float_eqb f (Fin 0))
  | VStr s => negb (String.eqb s "")
  end.

(** [x or y] *)
Definition py_or (x y : value) : value := if truthy x then x else y.

(** [d.get(k)] on a row of cells *)
Definition cells_get (row_cells : gmap Z value) (col_idx : Z) : value :=
  default VNone (row_cells !! col_idx).

Definition is_sheet_name (name : string) : bool :=
  startswith name "xl/worksheets/sheet" && endswith name ".xml".

Definition no_worksheet : exn := Exn ValueError "No worksheet found in the Excel file.".
Definition no_header_row : exn := Exn ValueError "Unable to locate header row.".

(** The errors of [int(s)].  In the first the text is quoted the way
    [repr] quotes a string without quotes, backslashes or control
    characters. *)
Definition invalid_literal (s : string) : exn :=
  Exn ValueError ("invalid literal for int() with base 10: '" ++ s ++ "'").

Definition too_many_digits (n : nat) : exn :=
  Exn ValueError
      ("Exceeds the limit (" ++ str_of_int int_max_str_digits
       ++ " digits) for integer string conversion: value has "
       ++ str_of_int (Z.of_nat n)
       ++ " digits; use sys.set_int_max_str_digits() to increase the limit").

(** The [ValueError] that [int(s)] raises when it raises.  The digits are
    counted once the run of digits has been read and before the rest of the
    text is looked at, as CPython 3.11 does. *)
Definition int_error (s : string) : exn :=
  let '(_, body) := split_sign (numeric_strip s) in
  match digitpart body with
  | Some (_, n, rest) =>
      if String.prefix "_" rest then invalid_literal s
      else if int_max_str_digits <? Z.of_nat n then too_many_digits n
      else invalid_literal s
  | None => invalid_literal s
  end.

(** The body of the loop over the cells of one row. *)
Definition scan_cell (shared_strings : list string)
    (state : gmap Z value * Z) (cell : element) : gmap Z value * Z :=
  let '(row_cells, max_col) := state in
  let ref := default "" (attrib_get cell "r") in
  let col_idx := column_index_from_ref ref in
  if col_idx =? 0 then (row_cells, max_col)
  else
    let value := parse_cell_value cell shared_strings in
    (<[col_idx := value]> row_cells, Z.max max_col col_idx).

(** The body of the loop over the rows of the sheet. *)
Definition scan_row (shared_strings : list string)
    (state : gmap Z (gmap Z value) * Z) (row : element)
    : result (gmap Z (gmap Z value) * Z) :=
  let '(rows, max_col) := state in
  let r := default "0" (attrib_get row "r") in
  match py_int r with
  | None => Raise (int_error r)
  | Some row_idx =>
      let '(row_cells, max_col) :=
        fold_left (scan_cell shared_strings) (findall row (NAMESPACE ++ "c")) (∅, max_col) in
      Ok (if row_idx =? 0 then rows else <[row_idx := row_cells]> rows, max_col)
  end.

Definition scan_sheet (shared_strings : list string) (root : element)
    : result (gmap Z (gmap Z value) * Z) :=
  for_each (scan_row shared_strings) (findall_deep root (NAMESPACE ++ "row")) (∅, 0).

Section Extractor.

(** [str(x)] for a float: the shortest decimal text that reads back as
    the same binary64 value.  It is a parameter. *)
Variable float_repr : float -> string.

(** [str(v)] *)
Definition py_str (v : value) : string :=
  match v with
  | VNone => "None"
  | VFloat f => float_repr f
  | VStr s => s
  end.

Definition header_of (row1 : gmap Z value) (col_idx : Z) : string :=
  strip (py_str (py_or (cells_get row1 col_idx) (VStr ("Column" ++ str_of_int col_idx)))).

Definition load_first_sheet (path : Package) : result SheetData :=
  let zip_file := path in
  let sheet_names := py_sorted String.leb (List.filter is_sheet_name (namelist zip_file)) in
  match sheet_names with
  | [] => Raise no_worksheet
  | first :: _ =>
      let shared_strings := read_shared_strings zip_file in
      match zip_read zip_file first with
      | None => Raise (Exn KeyError first)
      | Some root =>
          '(rows, max_col) ← scan_sheet shared_strings root;
          match rows !! 1 with
          | None => Raise no_header_row
          | Some row1 =>
              let headers := map (header_of row1) (range 1 (max_col + 1)) in
              let data_rows :=
                map (fun row_idx =>
                       map (cells_get (rows !!! row_idx)) (range 1 (max_col + 1)))
                    (py_sorted Z.leb
                       (List.filter (fun idx => negb (idx =? 1)) (map fst (map_to_list rows)))) in
              Ok (mkSheetData headers data_rows)
          end
      end
  end.

End Extractor.

(** ** 4.5 Column classifier *)

Definition parse_numeric (v : value) : option float :=
  match v with
  | VNone => None
  | VStr EmptyString => None
  | VFloat f => Some f
  | VStr s => py_float (remove_commas s)
  end.

(** The mapping from header to values: keys in insertion order. *)
Definition columns_dict : Type := list (string * list float).

(** [d[key] = v]: an existing key keeps its place. *)
Fixpoint dict_set (d : columns_dict) (key : string) (v : list float) : columns_dict :=
  match d with
  | [] => [(key, v)]
  | (k, w) :: d' => if String.eqb k key then (k, v) :: d' else (k, w) :: dict_set d' key v
  end.

(** [d[key].append(x)]; the key is present wherever the program does this. *)
Definition dict_append (d : columns_dict) (key : string) (x : float) : columns_dict :=
  map (fun entry : string * list float =>
         if String.eqb (fst entry) key then (fst entry, (snd entry ++ [x])%list) else entry) d.

(** The test of one value in [is_date_like_column]:
    [20000 <= value <= 60000 and abs(value - round(value)) < 0.01].  The
    bound is compared as the decimal 0.01: the float 0.01 exceeds it by
    less than 10^-18, and the distance of a float of this range from an
    integer is a multiple of 2^-38, none of which lies in between. *)
Definition is_serial_date (v : float) : result bool :=
  if float_leb (float_of_int 20000) v && float_leb v (float_of_int 60000) then
    r ← py_round v;
    Ok (float_ltb (float_abs (float_sub v (float_of_int r))) (Fin (1 # 100)))
  else Ok false.

Definition is_date_like_column (header : string) (values : list float) : result bool :=
  if contains "date" (lower header) then Ok true
  else match values with
       | [] => Ok false
       | _ =>
           date_like ← for_each (fun (date_like : Z) (v : float) =>
                                   b ← is_serial_date v;
                                   Ok (if b : bool then date_like + 1 else date_like))
                                values 0;
           ratio ← exact_ratio date_like (Z.of_nat (length values));
           Ok (Qle_bool (8 # 10) ratio)
       end.

Definition numeric_columns (sheet : SheetData) : result columns_dict :=
  let columns := fold_left (fun d header => dict_set d header []) (headers sheet) [] in
  let columns :=
    fold_left (fun d row =>
                 fold_left (fun d cell =>
                              match parse_numeric (snd cell) with
                              | Some numeric_value => dict_append d (fst cell) numeric_value
                              | None => d
                              end)
                           (zip (headers sheet) row) d)
              (rows sheet) columns in
  for_each (fun (kept : columns_dict) (entry : string * list float) =>
              let '(header, values) := entry in
              match values with
              | [] => Ok kept
              | _ =>
                  b ← is_date_like_column header values;
                  Ok (if b : bool then kept else (kept ++ [(header, values)])%list)
              end)
           columns [].

(** ** 4.6 Benford engine *)

Record digit_row : Type := mkDigitRow {
  column : string;
  digit : Z;
  count : Z;
  observed : Q;
  expected : Q;
  deviation : Q
}.

Record summary_row : Type := mkSummaryRow {
  s_column : string;
  total_values : Z;
  mad : Q;
  max_abs_deviation : Q;
  top_deviation_digit : Z
}.

(** One turn of the loop in [leading_digits]: [None] when the value adds
    no digit. *)
Definition leading_digit (v : float) : result (option Z) :=
  if float_eqb v (float_of_int 0) then Ok None
  else
    let v := float_abs v in
    exponent ← floor_log10 v;
    divisor ← pow10 exponent;
    quotient ← float_truediv v divisor;
    leading ← int_of_float quotient;
    Ok (if (1 <=? leading) && (leading <=? 9) then Some leading else None).

Definition leading_digits (values : list float) : result (list Z) :=
  for_each (fun (digits : list Z) (v : float) =>
              d ← leading_digit v;
              Ok match d with
                 | Some leading => (digits ++ [leading])%list
                 | None => digits
                 end)
           values [].

Section Benford.

(** [EXPECTED_DIGITS[d]] is the float that [math.log10(1 + 1 / d)]
    returns: a fixed table of nine binary64 values, left open here. *)
Variable EXPECTED_DIGITS : Z -> Q.

(** Whether the interpreter's [sum] compensates rounding errors. *)
Variable compensated : bool.

Definition benford_for_column (values : list float) (label : string)
    : result (list digit_row) :=
  digits ← leading_digits values;
  let counts : gmap Z Z :=
    list_to_map (map (fun digit => (digit, py_count digits digit)) (range 1 10)) in
  let total := sum_int (map snd (map_to_list counts)) in
  for_each (fun (rows : list digit_row) (digit : Z) =>
              observed ← (if total =? 0 then Ok 0%Q
                          else int_truediv (counts !!! digit) total);
              let expected := EXPECTED_DIGITS digit in
              Ok (rows ++ [mkDigitRow label digit (counts !!! digit)
                                      observed expected
                                      (binary64 (observed - expected))])%list)
           (range 1 10) [].

Definition summary_of (digit_detail : list digit_row) (label : string)
    : result summary_row :=
  let column_rows := List.filter (fun row => String.eqb (column row) label) digit_detail in
  let deviations := map (fun row => Qabs (deviation row)) column_rows in
  let total_values := sum_int (map count column_rows) in
  max_dev_row ← py_max_by (fun row => Qabs (deviation row)) column_rows;
  mad ← match deviations with
        | [] => Ok 0%Q
        | _ => Q_truediv (sum_float compensated deviations)
                         (Z.of_nat (length deviations))
        end;
  max_abs ← match deviations with
            | [] => Ok 0%Q
            | _ => py_max_by (fun x => x) deviations
            end;
  Ok (mkSummaryRow label total_values mad max_abs (digit max_dev_row)).

Definition summarize_benford (columns : columns_dict)
    : result (list summary_row * list digit_row) :=
  digit_detail ← for_each (fun (detail : list digit_row) (entry : string * list float) =>
                             rows ← benford_for_column (snd entry) (fst entry);
                             Ok (detail ++ rows)%list)
                          columns [];
  summary ← for_each (fun (summary : list summary_row) (entry : string * list float) =>
                        row ← summary_of digit_detail (fst entry);
                        Ok (summary ++ [row])%list)
                     columns [];
  Ok (py_sorted (fun a b => Qle_bool (mad b) (mad a)) summary, digit_detail).

End Benford.

(** ** [main], up to the writing of the result files

    The value is what [main] hands to the writers: the numeric columns, the
    summary and the digit detail. *)

Definition main (float_repr : float -> string) (EXPECTED_DIGITS : Z -> Q)
    (compensated : bool) (input : Package)
    : result (columns_dict * (list summary_row * list digit_row)) :=
  sheet ← load_first_sheet float_repr input;
  columns ← numeric_columns sheet;
  report ← summarize_benford EXPECTED_DIGITS compensated columns;
  Ok (columns, report).

(** ** Definitions used to state the properties *)

(** The value of a letter as a base-26 digit: A=1 .. Z=26. *)
Definition letter_value (c : ascii) : Z := ord c - 64.

(** The positional value of a run of letters read as a base-26 numeral. *)
Fixpoint base26_numeral (letters : string) : Z :=
  match letters with
  | String c rest => letter_value c * 26 ^ Z.of_nat (String.length rest) + base26_numeral rest
  | EmptyString => 0
  end.

Definition all_upper (s : string) : Prop :=
  Forall (fun c => is_upper c = true) (list_ascii_of_string s).

Definition starts_upper (s : string) : bool :=
  match s with
  | String c _ => is_upper c
  | EmptyString => false
  end.

(** A cell typed as a shared-string reference whose value node holds [raw]. *)
Definition shared_string_cell (ref raw : string) : element :=
  Element (NAMESPACE ++ "c") [("r", ref); ("t", "s")] None
          [Element (NAMESPACE ++ "v") [] (Some raw) []].

(** A cell with an inline string. *)
Definition inline_string_cell (ref s : string) : element :=
  Element (NAMESPACE ++ "c") [("r", ref); ("t", "inlineStr")] None
          [Element (NAMESPACE ++ "is") [] None [Element (NAMESPACE ++ "t") [] (Some s) []]].

(** A cell of the default (numeric) type. *)
Definition number_cell (ref raw : string) : element :=
  Element (NAMESPACE ++ "c") [("r", ref)] None
          [Element (NAMESPACE ++ "v") [] (Some raw) []].

Definition row_element (r : string) (cells : list element) : element :=
  Element (NAMESPACE ++ "row") [("r", r)] None cells.

Definition worksheet (row_elements : list element) : element :=
  Element (NAMESPACE ++ "worksheet") [] None
          [Element (NAMESPACE ++ "sheetData") [] None row_elements].

(** [e] is the floor of the base-10 logarithm of [q]. *)
Definition is_floor_log10 (q : Q) (e : Z) : Prop :=
  (Qpow10 e <= q /\ q < Qpow10 (e + 1))%Q.

(** The number of digits counted over 1..9. *)
Definition total_count (digits : list Z) : Z :=
  foldr Z.add 0 (map (py_count digits) (range 1 10)).

(** [observed(d) = count(d) / total_count] as a float, and 0 when nothing
    was counted. *)
Definition observed_share (digits : list Z) (d : Z) : Q :=
  if total_count digits =? 0 then 0%Q
  else binary64 (inject_Z (py_count digits d) / inject_Z (total_count digits)).

(** The row of the histogram for digit [d]. *)
Definition histogram_row (EXPECTED_DIGITS : Z -> Q) (label : string) (digits : list Z) (d : Z)
    : digit_row :=
  mkDigitRow label d (py_count digits d) (observed_share digits d) (EXPECTED_DIGITS d)
             (binary64 (observed_share digits d - EXPECTED_DIGITS d)).

(** [|observed(d) - expected(d)|], the difference being a float. *)
Definition abs_deviation (EXPECTED_DIGITS : Z -> Q) (digits : list Z) (d : Z) : Q :=
  Qabs (binary64 (observed_share digits d - EXPECTED_DIGITS d)).

(** The mean over the digits 1..9 of [|observed(d) - expected(d)|], as
    floats give it: the nine numbers summed in the order of the digits, the
    sum divided by 9. *)
Definition mean_abs_deviation (EXPECTED_DIGITS : Z -> Q) (compensated : bool)
    (digits : list Z) : Q :=
  let a := abs_deviation EXPECTED_DIGITS digits in
  binary64 (sum_float compensated
              [a 1%Z; a 2%Z; a 3%Z; a 4%Z; a 5%Z; a 6%Z; a 7%Z; a 8%Z; a 9%Z]
            / 9).

(** The digits of a column, when their extraction succeeds. *)
Definition digits_of (values : list float) : list Z :=
  match leading_digits values with
  | Ok digits => digits
  | Raise _ => []
  end.

(** The summary row of one column, as the specification describes it up
    to the choice among equal deviations. *)
Definition summary_row_ok (EXPECTED_DIGITS : Z -> Q) (compensated : bool)
    (digits : list Z) (row : summary_row) : Prop :=
  (mad row == mean_abs_deviation EXPECTED_DIGITS compensated digits)%Q
  /\ (forall d, 1 <= d <= 9 ->
        (abs_deviation EXPECTED_DIGITS digits d <= max_abs_deviation row)%Q)
  /\ 1 <= top_deviation_digit row <= 9
  /\ (max_abs_deviation row
      == abs_deviation EXPECTED_DIGITS digits (top_deviation_digit row))%Q
  /\ (forall d, 1 <= d < top_deviation_digit row ->
        (abs_deviation EXPECTED_DIGITS digits d < max_abs_deviation row)%Q).

(** The table as the interpreter builds it with a C library whose [log10]
    rounds to the nearest value here: the binary64 values of
    [math.log10(1 + 1 / d)], written as fractions. *)
Definition EXPECTED_DIGITS_binary64 (d : Z) : Q :=
  match d with
  | 1 => 5422874305198591 # 18014398509481984
  | 2 => 1586089057332735 # 9007199254740992
  | 3 => 9002784762132481 # 72057594037927936
  | 4 => 6983102375544845 # 72057594037927936
  | 5 => 5705610083117035 # 72057594037927936
  | 6 => 4824024589345291 # 72057594037927936
  | 7 => 8357520345574385 # 144115188075855872
  | 8 => 3685927696529397 # 72057594037927936
  | 9 => 3297174679015449 # 72057594037927936
  | _ => 0
  end.

(** [str] on the floats that occur in the examples below: an integral
    value of magnitude under 10^16 prints with a trailing ".0", the special
    values by name.  Other values do not occur there. *)
Definition float_repr_integral (f : float) : string :=
  match f with
  | Fin q => str_of_int (Qfloor q) ++ ".0"
  | Inf false => "inf"
  | Inf true => "-inf"
  | NaN => "nan"
  end.

(** The digit detail of a mapping of columns: nine rows per column, in the
    order of the mapping. *)
Definition detail_of (EXPECTED_DIGITS : Z -> Q) (columns : columns_dict) : list digit_row :=
  flat_map (fun entry : string * list float =>
              map (histogram_row EXPECTED_DIGITS (fst entry) (digits_of (snd entry))) (range 1 10))
           columns.

(** The parsed numeric values that the cells of one row contribute to a
    header: column by column over every column that carries this header. *)
Definition row_values (header : string) (cells : list (string * value)) : list float :=
  flat_map (fun cell : string * value =>
              if String.eqb (fst cell) header
              then option_list (parse_numeric (snd cell)) else [])
           cells.

(** The parsed numeric values found under a header, row by row. *)
Definition column_values (sheet : SheetData) (header : string) : list float :=
  flat_map (fun row : list value => row_values header (zip (headers sheet) row))
           (rows sheet).

(** The header contains "date", whatever the case of its letters. *)
Definition mentions_date (header : string) : Prop :=
  exists pre post : string, lower header = pre ++ "date" ++ post.

(** Within 0.01 of an integer. *)
Definition near_integer (q : Q) : Prop :=
  exists n : Z, (Qabs (q - inject_Z n) < 1 # 100)%Q.

(** A value in the range of spreadsheet serial dates. *)
Definition serial_date_like (v : float) : Prop :=
  match v with
  | Fin q => (inject_Z 20000 <= q)%Q /\ (q <= inject_Z 60000)%Q /\ near_integer q
  | _ => False
  end.

(** The same test as a boolean, looking at the two neighbouring integers. *)
Definition serial_date_like_b (v : float) : bool :=
  match v with
  | Fin q =>
      Qle_bool (inject_Z 20000) q && Qle_bool q (inject_Z 60000)
      && (negb (Qle_bool (1 # 100) (q - inject_Z (Qfloor q)))
          || negb (Qle_bool (1 # 100) (inject_Z (Qfloor q + 1) - q)))
  | _ => false
  end.

(** At least 80% of the values are serial-date-like. *)
Definition mostly_serial_dates (values : list float) : Prop :=
  4 * Z.of_nat (length values)
  <= 5 * Z.of_nat (length (List.filter serial_date_like_b values)).

(** A mapping given by its keys and the value of each key. *)
Definition dict_of (keys : list string) (f : string -> list float) : columns_dict :=
  map (fun k => (k, f k)) keys.

(** What [is_date_like_column] returns. *)
Definition is_date_like_b (header : string) (values : list float) : bool :=
  contains "date" (lower header)
  || match values with
     | [] => false
     | _ => 4 * Z.of_nat (length values)
            <=? 5 * Z.of_nat (length (List.filter serial_date_like_b values))
     end.

(** The entries the classifier keeps. *)
Definition kept_b (entry : string * list float) : bool :=
  match snd entry with
  | [] => false
  | _ => negb (is_date_like_b (fst entry) (snd entry))
  end.

(** The keys of a mapping after [d[h] = ...]. *)
Fixpoint key_add (keys : list string) (h : string) : list string :=
  match keys with
  | [] => [h]
  | k :: keys' => if String.eqb k h then k :: keys' else k :: key_add keys' h
  end.

(** The distinct headers, each at the place of its first occurrence. *)
Definition first_occurrences (headers : list string) : list string :=
  fold_left key_add headers [].

(** Example sheets. *)
Definition sheet_amount_date : SheetData :=
  mkSheetData ["A"; "B"]
    [[VFloat (Fin (100 # 1)); VFloat (Fin (20000 # 1))];
     [VFloat (Fin (200 # 1)); VFloat (Fin (20001 # 1))];
     [VFloat (Fin (300 # 1)); VStr "x"]].

Definition sheet_twice_x : SheetData :=
  mkSheetData ["x"; "y"; "x"]
    [[VFloat (Fin (1 # 1)); VStr "n/a"; VFloat (Fin (2 # 1))];
     [VStr "3"; VNone; VStr "1,004"]].

(** The declared index of a row element; [None] when [int] rejects it. *)
Definition row_index (row : element) : option Z :=
  py_int (default "0" (attrib_get row "r")).

(** The worksheet the extractor reads: the part whose name comes first, in
    the order of strings, among the worksheet names of the package. *)
Definition selected_sheet (zip_file : Package) (name : string) (root : element) : Prop :=
  In name (namelist zip_file)
  /\ is_sheet_name name = true
  /\ (forall other, In other (namelist zip_file) -> is_sheet_name other = true ->
                    String.leb name other = true)
  /\ zip_read zip_file name = Some root.

(** The row elements of a worksheet. *)
Definition row_elements_of (root : element) : list element :=
  findall_deep root (NAMESPACE ++ "row").

(** What the extractor builds from the scanned rows. *)
Definition sheet_of (float_repr : float -> string)
    (rows : gmap Z (gmap Z value)) (max_col : Z) (row1 : gmap Z value) : SheetData :=
  mkSheetData
    (map (header_of float_repr row1) (range 1 (max_col + 1)))
    (map (fun row_idx => map (cells_get (rows !!! row_idx)) (range 1 (max_col + 1)))
         (py_sorted Z.leb (List.filter (fun idx => negb (idx =? 1)) (map fst (map_to_list rows))))).

(** Example packages. *)

(** One worksheet whose second row carries an index that is no integer. *)
Definition sheet_bad_row_index : element :=
  worksheet [row_element "1" [inline_string_cell "A1" "Amount"];
             row_element "x" [number_cell "A2" "100"]].

Definition package_bad_row_index : Package :=
  [("xl/worksheets/sheet1.xml", sheet_bad_row_index)].

(** One worksheet with a padded header text, and a header cell holding
    the number zero. *)
Definition sheet_padded_header : element :=
  worksheet [row_element "1" [inline_string_cell "A1" " Amount "; number_cell "B1" "0"];
             row_element "2" [number_cell "A2" "100"; number_cell "B2" "7"]].

Definition package_padded_header : Package :=
  [("xl/worksheets/sheet1.xml", sheet_padded_header)].

(** Two worksheets and a shared-string table; the first sheet in name
    order has a header row and three data rows. *)
Definition shared_strings_part : element :=
  Element (NAMESPACE ++ "sst") [] None
    [Element (NAMESPACE ++ "si") [] None [Element (NAMESPACE ++ "t") [] (Some "A") []];
     Element (NAMESPACE ++ "si") [] None
       [Element (NAMESPACE ++ "r") [] None [Element (NAMESPACE ++ "t") [] (Some "B") []];
        Element (NAMESPACE ++ "r") [] None [Element (NAMESPACE ++ "t") [] None []]]].

Definition sheet_three_rows : element :=
  worksheet [row_element "3" [number_cell "A3" "200"; number_cell "B3" "20001"];
             row_element "1" [shared_string_cell "A1" "0"; shared_string_cell "B1" "1"];
             row_element "2" [number_cell "A2" "100"; number_cell "B2" "20000"];
             row_element "4" [number_cell "A4" "300"; inline_string_cell "B4" "x"]].

Definition package_three_rows : Package :=
  [("xl/sharedStrings.xml", shared_strings_part);
   ("xl/worksheets/sheet2.xml", worksheet []);
   ("xl/worksheets/sheet1.xml", sheet_three_rows)].

(** One worksheet with a header row and no other row. *)
Definition sheet_header_only : element :=
  worksheet [row_element "1" [inline_string_cell "A1" "Amount"; inline_string_cell "B1" "Date"]].

Definition package_header_only : Package :=
  [("xl/worksheets/sheet1.xml", sheet_header_only)].

(** No character of the string is white space. *)
Fixpoint no_space (s : string) : bool :=
  match s with
  | String c s' => negb (is_space c) && no_space s'
  | EmptyString => true
  end.

(** ** Further definitions used to state properties *)

(** The column a cell element is filed under. *)
Definition cell_column (cell : element) : Z :=
  column_index_from_ref (default "" (attrib_get cell "r")).

(** The cell elements of a row element. *)
Definition cell_elements_of (row : element) : list element :=
  findall row (NAMESPACE ++ "c").

(** The last element of a list that passes a test. *)
Definition last_such {A} (f : A -> bool) (l : list A) : option A :=
  last (List.filter f l).

(** The cells the extractor records for one row element. *)
Definition cells_of_row (shared_strings : list string) (row : element) : gmap Z value :=
  fst (fold_left (scan_cell shared_strings) (cell_elements_of row) (∅, 0)).

(** The value of a run of letters, accumulated as the resolver does. *)
Definition horner26 (letters : list ascii) : Z :=
  fold_left (fun result char => result * 26 + (ord char - ord "A" + 1)) letters 0.

(** The cell the extractor resolves for row index [k] and column [n]: in
    the last row element with index [k], the value of the last cell filed
    under column [n]; [None] when there is no such row or cell. *)
Definition resolved_cell (shared_strings : list string) (root : element) (k n : Z) : value :=
  match last_such (fun row => bool_decide (row_index row = Some k)) (row_elements_of root) with
  | Some row =>
      match last_such (fun c => cell_column c =? n) (cell_elements_of row) with
      | Some c => parse_cell_value c shared_strings
      | None => VNone
      end
  | None => VNone
  end.

(** The example package with its parts in another order. *)
Definition package_three_rows_reordered : Package :=
  [("xl/worksheets/sheet1.xml", sheet_three_rows);
   ("xl/sharedStrings.xml", shared_strings_part);
   ("xl/worksheets/sheet2.xml", worksheet [])].

(** A sheet whose second column holds texts with thousands separators. *)
Definition sheet_with_commas : SheetData :=
  mkSheetData ["Amount"; "Total"]
    [[VFloat (Fin (12 # 1)); VStr "1,250"];
     [VNone; VStr "3,000,000"];
     [VFloat (Fin (7 # 1)); VStr "n/a"]].

(** The values that are neither infinite nor NaN. *)
Definition is_finite (v : float) : bool :=
  match v with
  | Fin _ => true
  | _ => false
  end.

(** [value == 0], the test that makes [leading_digits] skip a value. *)
Definition is_zero (v : float) : bool := float_eqb v (float_of_int 0).

(** ** [plot_overall], up to the call of [svg_bar_chart]

    The value is what [plot_overall] hands to [svg_bar_chart]: the title,
    the labels and the two series (name, values, colour).  [totals] is a
    dict keyed by the digits 1..9; adding to the total of another key
    raises [KeyError]. *)

Definition plot_overall_totals (digit_detail : list digit_row) : result (gmap Z Z) :=
  for_each (fun (totals : gmap Z Z) (row : digit_row) =>
              match totals !! digit row with
              | Some t => Ok (<[digit row := t + count row]> totals)
              | None => Raise (Exn KeyError (str_of_int (digit row)))
              end)
           digit_detail
           (list_to_map (map (fun digit => (digit, 0)) (range 1 10))).

Definition plot_overall (EXPECTED_DIGITS : Z -> Q) (digit_detail : list digit_row)
    : result (string * list string * list (string * list Q * string)) :=
  totals ← plot_overall_totals digit_detail;
  let total_count := sum_int (map snd (map_to_list totals)) in
  observed ← for_each (fun (observed : list Q) (digit : Z) =>
                         share ← (if total_count =? 0 then Ok 0%Q
                                  else int_truediv (totals !!! digit) total_count);
                         Ok (observed ++ [share])%list)
                      (range 1 10) [];
  let expected := map EXPECTED_DIGITS (range 1 10) in
  let labels := map str_of_int (range 1 10) in
  Ok ("Overall Benford Analysis (Observed vs Expected)", labels,
      [("Observed", observed, "#1b9e77"); ("Expected", expected, "#7570b3")]).

(** The digits of all the columns of a mapping, pooled in its order. *)
Definition pooled_digits (columns : columns_dict) : list Z :=
  flat_map (fun entry : string * list float => digits_of (snd entry)) columns.

(** A table of totals over the digits 1..9. *)
Definition totals_of (g : Z -> Z) : gmap Z Z :=
  list_to_map (map (fun digit => (digit, g digit)) (range 1 10)).

(** The sum of the counts of the detail rows of one digit. *)
Definition digit_total (digit_detail : list digit_row) (k : Z) : Z :=
  foldr Z.add 0 (map count (List.filter (fun row => digit row =? k) digit_detail)).

(** An entry of a shared-string table as a workbook stores it: a plain
    text, or a rich text made of formatted runs. *)
Inductive string_item : Type :=
  | Plain (s : string)
  | Rich (runs : list string).

Definition item_text (item : string_item) : string :=
  match item with
  | Plain s => s
  | Rich runs => String.concat "" runs
  end.

Definition text_run (s : string) : element :=
  Element (NAMESPACE ++ "r") [] None
          [Element (NAMESPACE ++ "rPr") [] None [];
           Element (NAMESPACE ++ "t") [] (Some s) []].

Definition item_element (item : string_item) : element :=
  match item with
  | Plain s => Element (NAMESPACE ++ "si") [] None [Element (NAMESPACE ++ "t") [] (Some s) []]
  | Rich runs => Element (NAMESPACE ++ "si") [] None (map text_run runs)
  end.

(** The parts of a package that the extractor reads: the shared-string
    table, when there is one, and the selected worksheet. *)
Definition parts_read (zip_file : Package) (name : string) (root : element) : Package :=
  (match zip_read zip_file "xl/sharedStrings.xml" with
   | Some shared => [("xl/sharedStrings.xml", shared)]
   | None => []
   end ++ [(name, root)])%list.

(** A literal of [n] digits. *)
Fixpoint ones (n : nat) : string :=
  match n with
  | O => ""
  | S n' => String "1" (ones n')
  end.

(** A sheet whose only column holds amounts a cent away from a whole
    number, written with thousands separators. *)
Definition sheet_cents : SheetData :=
  mkSheetData ["v"]
    [[VStr "20,000.01"]; [VStr "20,000.99"]; [VStr "25,123.01"]; [VStr "32,767.99"]].

(** A sheet whose only column holds the smallest positive float. *)
Definition sheet_smallest_float : SheetData :=
  mkSheetData ["v"] [[VStr "5e-324"]].

(** The smallest positive binary64 value, [2^-1074]. *)
Definition smallest_float : float := Fin (1 # 2 ^ 1074).

(** * Properties *)

(** ** 4.1 CellRef resolver *)

Lemma upper_run_app (run rest : string) :
  all_upper run -> starts_upper rest = false -> upper_run (run ++ rest) = run.
Proof.
  unfold all_upper. induction run as [|c run IH]; simpl; intros Hup Hrest.
  - destruct rest as [|c rest]; simpl in *; [reflexivity|]. now rewrite Hrest.
  - inversion Hup as [|? ? Hc Hup']; subst. rewrite Hc. f_equal. now apply IH.
Qed.

Lemma upper_run_no_letters (s : string) :
  starts_upper s = false -> upper_run s = "".
Proof. destruct s as [|c s]; simpl; [reflexivity|]. now intros ->. Qed.

Lemma horner26_positional (letters : string) (acc : Z) :
  fold_left (fun result c => result * 26 + letter_value c) (list_ascii_of_string letters) acc
  = acc * 26 ^ Z.of_nat (String.length letters) + base26_numeral letters.
Proof.
  revert acc. induction letters as [|c letters IH]; intros acc; simpl String.length; simpl fold_left.
  - simpl. lia.
  - rewrite IH. simpl base26_numeral. rewrite Nat2Z.inj_succ, Z.pow_succ_r by lia. ring.
Qed.

Lemma fold_left_pointwise {A B} (f g : A -> B -> A) (l : list B) (a : A) :
  (forall x y, f x y = g x y) -> fold_left f l a = fold_left g l a.
Proof.
  intros Hfg. revert a. induction l as [|y l IH]; intros a; simpl; [reflexivity|].
  now rewrite Hfg, IH.
Qed.

Lemma column_index_of_run (run rest : string) :
  run <> "" -> all_upper run -> starts_upper rest = false ->
  column_index_from_ref (run ++ rest)
  = fold_left (fun result c => result * 26 + letter_value c) (list_ascii_of_string run) 0.
Proof.
  intros Hne Hup Hrest. unfold column_index_from_ref, re_match_upper.
  rewrite upper_run_app by assumption.
  destruct run as [|c run]; [congruence|].
  apply fold_left_pointwise. intros result char. unfold letter_value.
  change (ord "A") with 65. lia.
Qed.

(** C9: the leading run of upper-case letters of a cell address is read as
    a base-26 numeral with digits A=1 .. Z=26, accumulated left to right as
    [result * 26 + digit]; "A".."Z" give 1..26, "AA" 27, "AB" 28, "AZ" 52,
    "BA" 53; an address with no leading letter gives 0. *)
Theorem column_index_from_ref_base26 :
  (forall run rest : string,
      run <> "" -> all_upper run -> starts_upper rest = false ->
      column_index_from_ref (run ++ rest)
      = fold_left (fun result c => result * 26 + letter_value c) (list_ascii_of_string run) 0
      /\ column_index_from_ref (run ++ rest) = base26_numeral run)
  /\ (forall s : string, starts_upper s = false -> column_index_from_ref s = 0)
  /\ (forall c : ascii, is_upper c = true ->
        column_index_from_ref (String c "") = letter_value c /\ 1 <= letter_value c <= 26)
  /\ map column_index_from_ref
       ["A"; "B"; "C"; "D"; "E"; "F"; "G"; "H"; "I"; "J"; "K"; "L"; "M";
        "N"; "O"; "P"; "Q"; "R"; "S"; "T"; "U"; "V"; "W"; "X"; "Y"; "Z"]
     = range 1 27
  /\ map column_index_from_ref ["AA"; "AB"; "AZ"; "BA"] = [27; 28; 52; 53].
Proof.
  split; [|split; [|split; [|split]]].
  - intros run rest Hne Hup Hrest.
    rewrite (column_index_of_run run rest Hne Hup Hrest). split; [reflexivity|].
    rewrite horner26_positional. lia.
  - intros s Hs. unfold column_index_from_ref, re_match_upper.
    now rewrite upper_run_no_letters.
  - intros c Hc. split.
    + unfold column_index_from_ref, re_match_upper. simpl. rewrite Hc. simpl.
      unfold letter_value. change (ord "A") with 65. lia.
    + unfold is_upper in Hc. unfold letter_value. lia.
  - reflexivity.
  - reflexivity.
Qed.

Lemma column_index_from_ref_base26_witness :
  column_index_from_ref "AB12" = 28
  /\ base26_numeral "AB" = 28
  /\ column_index_from_ref "12" = 0
  /\ column_index_from_ref "Q" = 17.
Proof.
  destruct column_index_from_ref_base26 as (Hrun & Hnone & Hone & _).
  split; [|split; [|split]].
  - destruct (Hrun "AB" "12") as [_ H].
    + discriminate.
    + repeat constructor.
    + reflexivity.
    + exact H.
  - reflexivity.
  - apply (Hnone "12"). reflexivity.
  - destruct (Hone "Q"%char) as [H _]; [reflexivity | exact H].
Defined.

(** ** 4.3 Cell value decoder *)

Lemma py_index_in_range {A} (l : list A) (i : Z) :
  0 <= i < Z.of_nat (length l) -> py_index l i = l !! Z.to_nat i.
Proof.
  intros Hi. unfold py_index.
  destruct (Z.leb_spec 0 i); [|lia]. destruct (Z.ltb_spec i (Z.of_nat (length l))); [|lia].
  reflexivity.
Qed.

Lemma py_index_wraps {A} (l : list A) (i : Z) :
  - Z.of_nat (length l) <= i < 0 ->
  py_index l i = l !! Z.to_nat (Z.of_nat (length l) + i).
Proof.
  intros Hi. unfold py_index.
  destruct (Z.leb_spec 0 i); [lia|]. simpl.
  destruct (Z.leb_spec (- Z.of_nat (length l)) i); [|lia].
  destruct (Z.ltb_spec i 0); [|lia]. reflexivity.
Qed.

Lemma py_index_out_of_range {A} (l : list A) (i : Z) :
  i < - Z.of_nat (length l) \/ Z.of_nat (length l) <= i -> py_index l i = None.
Proof.
  intros Hi. unfold py_index.
  destruct (Z.leb_spec 0 i), (Z.ltb_spec i (Z.of_nat (length l))),
    (Z.leb_spec (- Z.of_nat (length l)) i), (Z.ltb_spec i 0); simpl; try reflexivity; lia.
Qed.

(** What the decoder returns for a cell typed "s" with a value text. *)
Lemma parse_cell_value_shared (cell value_node : element) (raw : string)
    (shared_strings : list string) :
  attrib_get cell "t" = Some "s" ->
  find cell (NAMESPACE ++ "v") = Some value_node ->
  text value_node = Some raw ->
  parse_cell_value cell shared_strings
  = match py_int raw with
    | Some i => match py_index shared_strings i with
                | Some s => VStr s
                | None => VNone
                end
    | None => VNone
    end.
Proof.
  intros Ht Hv Hraw. unfold parse_cell_value. rewrite Ht, Hv, Hraw.
  reflexivity.
Qed.

(** The part of C4 that holds: an index in [0, len) gives the string at
    that index, an index at or beyond [len] and a text that is no integer
    give the empty value. *)
Lemma parse_cell_value_shared_cases (cell value_node : element) (raw : string)
    (shared_strings : list string) :
  attrib_get cell "t" = Some "s" ->
  find cell (NAMESPACE ++ "v") = Some value_node ->
  text value_node = Some raw ->
  (forall i s, py_int raw = Some i -> 0 <= i -> shared_strings !! Z.to_nat i = Some s ->
               parse_cell_value cell shared_strings = VStr s)
  /\ (forall i, py_int raw = Some i -> Z.of_nat (length shared_strings) <= i ->
                parse_cell_value cell shared_strings = VNone)
  /\ (py_int raw = None -> parse_cell_value cell shared_strings = VNone)
  /\ (forall i, py_int raw = Some i -> - Z.of_nat (length shared_strings) <= i < 0 ->
                exists s, shared_strings !! Z.to_nat (Z.of_nat (length shared_strings) + i) = Some s
                          /\ parse_cell_value cell shared_strings = VStr s).
Proof.
  intros Ht Hv Hraw.
  rewrite (parse_cell_value_shared cell value_node raw shared_strings Ht Hv Hraw).
  repeat split.
  - intros i s -> Hi Hs. apply lookup_lt_Some in Hs as Hlt.
    rewrite py_index_in_range by lia. now rewrite Hs.
  - intros i -> Hi. now rewrite py_index_out_of_range by lia.
  - now intros ->.
  - intros i -> Hi. rewrite py_index_wraps by lia.
    destruct (lookup_lt_is_Some_2 shared_strings (Z.to_nat (Z.of_nat (length shared_strings) + i)))
      as [s Hs]; [lia|].
    exists s. now rewrite Hs.
Qed.

(** The two examples of the specification. *)
Example parse_cell_value_shared_examples :
  parse_cell_value (shared_string_cell "A1" "1") ["Alpha"; "Beta"] = VStr "Beta"
  /\ parse_cell_value (shared_string_cell "A1" "5") ["Alpha"; "Beta"] = VNone
  /\ parse_cell_value (shared_string_cell "A1" "1.0") ["Alpha"; "Beta"] = VNone.
Proof. repeat split. Qed.

(** C4, evaluated where it fails: the index text "-1" is an integer that
    is not a position of the two-entry table, and the decoder returns the
    last entry instead of the empty value. *)
Theorem parse_cell_value_negative_index :
  py_int "-1" = Some (-1)
  /\ ~ (0 <= -1 < Z.of_nat (length ["Alpha"; "Beta"]))
  /\ parse_cell_value (shared_string_cell "A1" "-1") ["Alpha"; "Beta"] = VStr "Beta".
Proof. split; [reflexivity|]. split; [simpl; lia|reflexivity]. Qed.

(** ** 4.6 Benford engine: leading digits *)

Lemma Zlog10_fuel_spec (fuel : nat) (n : Z) :
  1 <= n < 2 ^ Z.of_nat fuel ->
  0 <= Zlog10_fuel fuel n
  /\ 10 ^ Zlog10_fuel fuel n <= n < 10 ^ (Zlog10_fuel fuel n + 1).
Proof.
  revert n. induction fuel as [|fuel IH]; intros n Hn.
  - simpl in Hn. lia.
  - simpl Zlog10_fuel. destruct (Z.ltb_spec n 10) as [Hlt|Hge].
    + simpl. lia.
    + assert (Hdiv : 1 <= n / 10 < 2 ^ Z.of_nat fuel).
      { rewrite Nat2Z.inj_succ, Z.pow_succ_r in Hn by lia. split.
        - apply Z.div_le_lower_bound; lia.
        - apply Z.div_lt_upper_bound; lia. }
      destruct (IH _ Hdiv) as (Hnonneg & Hlo & Hhi).
      set (k := Zlog10_fuel fuel (n / 10)) in *.
      split; [lia|].
      replace (1 + k + 1) with (Z.succ (k + 1)) by lia.
      replace (1 + k) with (Z.succ k) by lia.
      rewrite !Z.pow_succ_r by lia.
      pose proof (Z.div_mod n 10 ltac:(lia)) as Hdm.
      pose proof (Z.mod_pos_bound n 10 ltac:(lia)) as Hmod.
      lia.
Qed.

Lemma Zlog10_spec (n : Z) :
  1 <= n -> 0 <= Zlog10 n /\ 10 ^ Zlog10 n <= n < 10 ^ (Zlog10 n + 1).
Proof.
  intros Hn. unfold Zlog10. apply Zlog10_fuel_spec.
  split; [assumption|].
  rewrite Nat2Z.inj_succ, Z2Nat.id by apply Z.log2_nonneg.
  destruct (Z.log2_spec n ltac:(lia)) as [_ H]. exact H.
Qed.

Lemma Qpow10_pos (e : Z) : (0 < Qpow10 e)%Q.
Proof. unfold Qpow10. apply Qpower_0_lt. reflexivity. Qed.

Lemma Qpow10_succ (e : Z) : (Qpow10 (e + 1) == Qpow10 e * (10 # 1))%Q.
Proof. unfold Qpow10. rewrite Qpower_plus by discriminate. reflexivity. Qed.

Lemma Qpow10_inject (x : Z) : 0 <= x -> (Qpow10 x == inject_Z (10 ^ x))%Q.
Proof.
  intros Hx. unfold Qpow10. change (10 # 1)%Q with (inject_Z 10).
  symmetry. now apply Zpower_Qpower.
Qed.

Lemma Qpow10_minus (x y : Z) :
  0 <= x -> 0 <= y -> (Qpow10 (x - y) == inject_Z (10 ^ x) / inject_Z (10 ^ y))%Q.
Proof.
  intros Hx Hy. rewrite <- !Qpow10_inject by assumption.
  unfold Qpow10. now rewrite Qpower_minus by discriminate.
Qed.

(** [Qfloor_log10] is the floor of the logarithm. *)
Lemma Qfloor_log10_spec (q : Q) :
  (0 < q)%Q -> is_floor_log10 q (Qfloor_log10 q).
Proof.
  intros Hq. destruct q as [n d]. 
  assert (Hn : 1 <= n) by (unfold Qlt in Hq; simpl in Hq; lia).
  destruct (Zlog10_spec n Hn) as (Ha & Halo & Hahi).
  destruct (Zlog10_spec (Zpos d) ltac:(lia)) as (Hb & Hblo & Hbhi).
  unfold Qfloor_log10. simpl Qnum. simpl Qden.
  set (a := Zlog10 n) in *. set (b := Zlog10 (Zpos d)) in *.
  assert (Hpa : 0 < 10 ^ a) by (apply Z.pow_pos_nonneg; lia).
  assert (Hpb : 0 < 10 ^ b) by (apply Z.pow_pos_nonneg; lia).
  assert (Hupper : (n # d < Qpow10 (a - b + 1))%Q).
  { replace (a - b + 1) with ((a + 1) - b) by lia.
    rewrite Qpow10_minus by lia.
    apply Qlt_shift_div_l; [change 0%Q with (inject_Z 0); rewrite <- Zlt_Qlt; lia|].
    unfold Qlt, Qmult, inject_Z. simpl. nia. }
  assert (Hlower : (Qpow10 (a - b - 1) <= n # d)%Q).
  { replace (a - b - 1) with (a - (b + 1)) by lia.
    rewrite Qpow10_minus by lia.
    apply Qle_shift_div_r.
    - change 0%Q with (inject_Z 0). rewrite <- Zlt_Qlt. apply Z.pow_pos_nonneg; lia.
    - unfold Qle, Qmult, inject_Z. simpl. nia. }
  unfold is_floor_log10.
  destruct (Qle_bool (Qpow10 (a - b)) (n # d)) eqn:Hcmp.
  - apply Qle_bool_iff in Hcmp. split; assumption.
  - split; [assumption|].
    replace (a - b - 1 + 1) with (a - b) by lia.
    apply Qnot_le_lt. intros Hle. apply Qle_bool_iff in Hle. congruence.
Qed.

(** A loop that only appends is a [flat_map]. *)
Lemma for_each_append {A B} (body : list B -> A -> result (list B)) (g : A -> list B)
    (l : list A) (s : list B) :
  (forall s x, In x l -> body s x = Ok (s ++ g x)%list) ->
  for_each body l s = Ok (s ++ flat_map g l)%list.
Proof.
  revert s. induction l as [|x l IH]; intros s Hbody; simpl.
  - now rewrite app_nil_r.
  - rewrite Hbody by (now left). simpl. rewrite IH.
    + now rewrite <- app_assoc.
    + intros s' y Hy. apply Hbody. now right.
Qed.

(** C2, evaluated where it fails: a column holding an infinite value or a
    NaN (the cell texts "inf", "1e999" and "nan" parse to such values) makes
    the extraction raise, so no value of the column, zero or not, in range
    or not, reaches the digit population. *)
Theorem leading_digits_raises_on_non_finite :
  parse_numeric (VStr "inf") = Some (Inf false)
  /\ parse_numeric (VStr "1e999") = Some (Inf false)
  /\ parse_numeric (VStr "nan") = Some NaN
  /\ leading_digits [Fin (123 # 1); Inf false]
     = Raise (Exn OverflowError "cannot convert float infinity to integer")
  /\ leading_digits [Fin (123 # 1); NaN]
     = Raise (Exn ValueError "cannot convert float NaN to integer")
  /\ leading_digits [Fin (123 # 1)] = Ok [1].
Proof. repeat split; vm_compute; reflexivity. Qed.

(** The digit is the one that the floats give.  The text "0.3" parses to
    a float below 0.3, whose quotient by the float [10 ** -1] is below 3:
    its digit is 2.  The float next below 1000 has a logarithm that rounds
    to 3.0, so its quotient by 1000 is below 1 and it adds no digit. *)
Example leading_digits_rounded :
  parse_numeric (VStr "0.3") = Some (Fin (5404319552844595 # 18014398509481984))
  /\ leading_digits [Fin (5404319552844595 # 18014398509481984)] = Ok [2]
  /\ parse_numeric (VStr "999.9999999999999")
     = Some (Fin (8796093022207999 # 8796093022208))
  /\ floor_log10 (Fin (8796093022207999 # 8796093022208)) = Ok 3
  /\ leading_digits [Fin (8796093022207999 # 8796093022208)] = Ok [].
Proof. repeat split; vm_compute; reflexivity. Qed.

(** ** Rounding to binary64 *)

Lemma Qround_half_even_bounds (q : Q) (lo hi : Z) :
  (inject_Z lo <= q)%Q -> (q <= inject_Z hi)%Q -> lo <= Qround_half_even q <= hi.
Proof.
  intros Hlo Hhi.
  pose proof (Qfloor_le q) as Hfloor. pose proof (Qlt_floor q) as Hnext.
  assert (Hf : lo <= Qfloor q <= hi).
  { split.
    - rewrite <- (Qfloor_Z lo). now apply Qfloor_resp_le.
    - rewrite <- (Qfloor_Z hi). now apply Qfloor_resp_le. }
  unfold Qround_half_even. set (f := Qfloor q) in *.
  assert (Hup : (1 # 2 <= q - inject_Z f)%Q -> f + 1 <= hi).
  { intros Hr. assert (H : (inject_Z f < inject_Z hi)%Q) by lra.
    rewrite <- Zlt_Qlt in H. lia. }
  destruct (Qcompare_spec (q - inject_Z f) (1 # 2)) as [Heq|Hlt|Hgt].
  - destruct (Z.even f); [lia|]. split; [lia|]. apply Hup. rewrite Heq. apply Qle_refl.
  - lia.
  - split; [lia|]. apply Hup. now apply Qlt_le_weak.
Qed.

Lemma Qpow2_nonpos (e : Z) :
  e <= 0 -> exists N : Z, 1 <= N /\ (Qpow2 e == 1 / inject_Z N)%Q.
Proof.
  intros He. unfold Qpow2. destruct (Z.leb_spec 0 e) as [H0|Hneg].
  - exists 1. replace e with 0 by lia. split; [lia|reflexivity].
  - exists (2 ^ (- e)).
    assert (Hpos : 0 < 2 ^ (- e)) by (apply Z.pow_pos_nonneg; lia).
    split; [lia|]. rewrite Qmake_Qdiv, Z2Pos.id by assumption. reflexivity.
Qed.

Lemma Qfloor_log2_unit (n : Z) (d : positive) :
  0 < n -> n <= Zpos d -> Qfloor_log2 (n # d) <= 0.
Proof.
  intros Hn Hle. unfold Qfloor_log2. simpl Qnum. simpl Qden.
  pose proof (Z.log2_le_mono n (Zpos d) Hle).
  destruct (Qle_bool _ _); lia.
Qed.

(** A share rounds to a share: rounding keeps a number within [0, 1]. *)
Lemma binary64_unit (q : Q) : (0 <= q)%Q -> (q <= 1)%Q -> (0 <= binary64 q <= 1)%Q.
Proof.
  intros H0 H1. unfold binary64.
  destruct (Qeq_bool q 0) eqn:Hz; [split; lra|].
  assert (Hq : ~ (q == 0)%Q) by (intros H; apply Qeq_bool_iff in H; congruence).
  assert (Hsign : Qle_bool 0 q = true) by now apply Qle_bool_iff.
  rewrite Hsign, Qred_correct.
  destruct q as [n d].
  assert (Hn : 0 < n).
  { unfold Qle in H0. unfold Qeq in Hq. simpl in *. lia. }
  assert (Hnd : n <= Zpos d) by (unfold Qle in H1; simpl in H1; lia).
  assert (Habs : Qabs (n # d) = n # d) by (unfold Qabs; now rewrite Z.abs_eq by lia).
  rewrite Habs.
  set (e := Z.max (Qfloor_log2 (n # d) - 52) (-1074)).
  assert (He : e <= 0) by (pose proof (Qfloor_log2_unit n d Hn Hnd); lia).
  destruct (Qpow2_nonpos e He) as (N & HN & Hpow).
  assert (HNpos : (0 < inject_Z N)%Q) by (change 0%Q with (inject_Z 0); rewrite <- Zlt_Qlt; lia).
  assert (Hscaled : ((n # d) / Qpow2 e == (n # d) * inject_Z N)%Q).
  { rewrite Hpow. field. lra. }
  destruct (Qround_half_even_bounds ((n # d) / Qpow2 e) 0 N) as [Hm0 HmN].
  - rewrite Hscaled. change (inject_Z 0) with 0%Q. apply Qmult_le_0_compat; lra.
  - rewrite Hscaled. apply Qle_trans with (1 * inject_Z N)%Q.
    + apply Qmult_le_compat_r; lra.
    + rewrite Qmult_1_l. apply Qle_refl.
  - set (m := Qround_half_even ((n # d) / Qpow2 e)) in *.
    rewrite Hpow.
    assert (Hm0' : (0 <= inject_Z m)%Q) by (change 0%Q with (inject_Z 0); now rewrite <- Zle_Qle).
    assert (HmN' : (inject_Z m <= inject_Z N)%Q) by now rewrite <- Zle_Qle.
    split.
    + apply Qmult_le_0_compat; [assumption|]. apply Qle_shift_div_l; lra.
    + apply Qle_trans with (inject_Z m / inject_Z N)%Q.
      * apply Qle_lteq. right. field. lra.
      * apply Qle_shift_div_r; lra.
Qed.

Lemma Qpow2_1024_large : (1 < Qpow2 1024)%Q.
Proof.
  unfold Qpow2. change (0 <=? 1024) with true. cbv iota.
  change 1%Q with (inject_Z 1). rewrite <- Zlt_Qlt. apply Z.pow_gt_1; lia.
Qed.

Lemma float_of_Q_unit (q : Q) :
  (0 <= q)%Q -> (q <= 1)%Q -> float_of_Q q = Fin (binary64 q).
Proof.
  intros H0 H1. unfold float_of_Q. cbv zeta.
  destruct (binary64_unit q H0 H1) as [Hlo Hhi].
  destruct (Qle_bool (Qpow2 1024) (Qabs (binary64 q))) eqn:Hover; [|reflexivity].
  apply Qle_bool_iff in Hover. rewrite Qabs_pos in Hover by assumption.
  pose proof Qpow2_1024_large. lra.
Qed.

(** The division of a count by a total that is at least as large. *)
Lemma int_truediv_share (c t : Z) :
  0 <= c <= t -> 0 < t ->
  int_truediv c t = Ok (binary64 (inject_Z c / inject_Z t)).
Proof.
  intros Hc Ht. unfold int_truediv.
  destruct (Z.eqb_spec t 0) as [->|_]; [lia|].
  assert (Htq : (0 < inject_Z t)%Q) by (change 0%Q with (inject_Z 0); rewrite <- Zlt_Qlt; lia).
  rewrite float_of_Q_unit; [reflexivity| |].
  - apply Qle_shift_div_l; [assumption|]. rewrite Qmult_0_l.
    change 0%Q with (inject_Z 0). rewrite <- Zle_Qle. lia.
  - apply Qle_shift_div_r; [assumption|]. rewrite Qmult_1_l. rewrite <- Zle_Qle. lia.
Qed.

(** ** 4.6 Benford engine: the histogram of one column *)

Lemma range_1_10 : range 1 10 = [1; 2; 3; 4; 5; 6; 7; 8; 9].
Proof. reflexivity. Qed.

Lemma in_range_1_10 (d : Z) : In d (range 1 10) <-> 1 <= d <= 9.
Proof.
  rewrite <- list_elem_of_In. unfold range. rewrite elem_of_seqZ. lia.
Qed.

Lemma py_count_cons (x : Z) (l : list Z) (d : Z) :
  py_count (x :: l) d = (if x =? d then 1 else 0) + py_count l d.
Proof.
  unfold py_count. rewrite filter_cons.
  destruct (Z.eqb_spec x d) as [Heq|Hne]; case_decide; try contradiction; simpl length; lia.
Qed.

Lemma py_count_bounds (l : list Z) (d : Z) : 0 <= py_count l d <= Z.of_nat (length l).
Proof.
  induction l as [|x l IH]; [unfold py_count; simpl; lia|].
  rewrite py_count_cons. simpl length. destruct (x =? d); lia.
Qed.

(** No count exceeds the total. *)
Lemma py_count_le_total (digits : list Z) (d : Z) :
  1 <= d <= 9 -> 0 <= py_count digits d <= total_count digits.
Proof.
  intros Hd. unfold total_count. rewrite range_1_10. cbn [map foldr].
  pose proof (py_count_bounds digits 1). pose proof (py_count_bounds digits 2).
  pose proof (py_count_bounds digits 3). pose proof (py_count_bounds digits 4).
  pose proof (py_count_bounds digits 5). pose proof (py_count_bounds digits 6).
  pose proof (py_count_bounds digits 7). pose proof (py_count_bounds digits 8).
  pose proof (py_count_bounds digits 9).
  assert (Hcases : d = 1 \/ d = 2 \/ d = 3 \/ d = 4 \/ d = 5 \/ d = 6 \/ d = 7 \/ d = 8 \/ d = 9)
    by lia.
  destruct Hcases as [->|[->|[->|[->|[->|[->|[->|[->| ->]]]]]]]]; lia.
Qed.

Lemma sum_int_foldr (l : list Z) : sum_int l = foldr Z.add 0 l.
Proof.
  unfold sum_int. rewrite <- fold_left_rev_right. 
  assert (H : forall l' : list Z, fold_right (fun y x => x + y) 0 l' = foldr Z.add 0 l').
  { induction l' as [|x l' IH]; simpl; [reflexivity|]. rewrite IH. lia. }
  rewrite H. clear H.
  induction l as [|x l IH]; simpl; [reflexivity|].
  rewrite foldr_app. simpl. rewrite <- IH.
  generalize (rev l). intros r. induction r as [|y r IHr]; simpl; lia.
Qed.

Lemma foldr_add_perm (l1 l2 : list Z) :
  l1 ≡ₚ l2 -> foldr Z.add 0 l1 = foldr Z.add 0 l2.
Proof. induction 1; simpl; lia. Qed.

Lemma fst_map_pair {A B} (g : A -> B) (l : list A) :
  (map (fun x => (x, g x)) l).*1 = l.
Proof. induction l as [|x l IH]; [reflexivity|]. cbn. f_equal. exact IH. Qed.

Lemma snd_map_pair {A B} (g : A -> B) (l : list A) :
  (map (fun x => (x, g x)) l).*2 = map g l.
Proof. induction l as [|x l IH]; [reflexivity|]. cbn. f_equal. exact IH. Qed.

Lemma counts_keys_NoDup (digits : list Z) :
  NoDup (map (fun digit => (digit, py_count digits digit)) (range 1 10)).*1.
Proof. rewrite fst_map_pair. apply NoDup_seqZ. Qed.

Lemma counts_lookup (digits : list Z) (d : Z) :
  1 <= d <= 9 ->
  (list_to_map (map (fun digit => (digit, py_count digits digit)) (range 1 10)) : gmap Z Z) !!! d
  = py_count digits d.
Proof.
  intros Hd. rewrite lookup_total_alt.
  erewrite elem_of_list_to_map_1; [reflexivity|apply counts_keys_NoDup|].
  apply list_elem_of_fmap. exists d. split; [reflexivity|].
  unfold range. apply elem_of_seqZ. lia.
Qed.

Lemma counts_total (digits : list Z) :
  sum_int (map snd (map_to_list
             (list_to_map (map (fun digit => (digit, py_count digits digit)) (range 1 10))
              : gmap Z Z)))
  = total_count digits.
Proof.
  rewrite sum_int_foldr. unfold total_count.
  apply foldr_add_perm.
  change (map snd) with (fmap (M:=list) (@snd Z Z)).
  rewrite map_to_list_to_map by apply counts_keys_NoDup.
  now rewrite snd_map_pair.
Qed.

Lemma benford_for_column_rows (EXPECTED_DIGITS : Z -> Q) (values : list float)
    (label : string) (digits : list Z) :
  leading_digits values = Ok digits ->
  benford_for_column EXPECTED_DIGITS values label
  = Ok (map (histogram_row EXPECTED_DIGITS label digits) (range 1 10)).
Proof.
  intros Hdigits. unfold benford_for_column. rewrite Hdigits.
  unfold mbind, result_bind. cbv beta zeta. rewrite counts_total.
  rewrite (for_each_append _ (fun d => [histogram_row EXPECTED_DIGITS label digits d])).
  - reflexivity.
  - intros s d Hd. apply in_range_1_10 in Hd.
    rewrite counts_lookup by lia.
    pose proof (py_count_le_total digits d Hd) as Hcount.
    unfold histogram_row, observed_share.
    destruct (Z.eqb_spec (total_count digits) 0) as [_|Hne]; [reflexivity|].
    rewrite int_truediv_share by lia. reflexivity.
Qed.

Lemma benford_for_column_raises (EXPECTED_DIGITS : Z -> Q) (values : list float)
    (label : string) (e : exn) :
  benford_for_column EXPECTED_DIGITS values label = Raise e ->
  leading_digits values = Raise e.
Proof.
  intros H. destruct (leading_digits values) as [digits|e'] eqn:Hdigits.
  - rewrite (benford_for_column_rows _ _ _ _ Hdigits) in H. discriminate.
  - unfold benford_for_column in H. rewrite Hdigits in H.
    unfold mbind, result_bind in H. now injection H as ->.
Qed.

(** The part of the histogram that holds: when the digits of a column
    have been extracted, its histogram is exactly nine rows, one per digit
    1..9 in ascending order, each with [observed] the float
    [count / total_count] when [total_count] is positive and 0 when it is
    0; and the histogram of a column fails only when the extraction of its
    digits fails, with the same error. *)
Lemma benford_for_column_histogram (EXPECTED_DIGITS : Z -> Q) (values : list float)
    (label : string) :
  (forall digits,
      leading_digits values = Ok digits ->
      exists rows : list digit_row,
        benford_for_column EXPECTED_DIGITS values label = Ok rows
        /\ length rows = 9%nat
        /\ map digit rows = [1; 2; 3; 4; 5; 6; 7; 8; 9]
        /\ (forall row, In row rows ->
              column row = label
              /\ count row = py_count digits (digit row)
              /\ expected row = EXPECTED_DIGITS (digit row)
              /\ deviation row = binary64 (observed row - expected row)
              /\ (0 < total_count digits ->
                  observed row
                  = binary64 (inject_Z (count row) / inject_Z (total_count digits)))
              /\ (total_count digits = 0 -> observed row = 0%Q))
        /\ (digits = [] -> forall row, In row rows -> observed row = 0%Q))
  /\ (forall e, benford_for_column EXPECTED_DIGITS values label = Raise e ->
                leading_digits values = Raise e).
Proof.
  split; [|intros e He; now apply benford_for_column_raises in He].
  intros digits Hdigits.
  exists (map (histogram_row EXPECTED_DIGITS label digits) (range 1 10)).
  split; [now apply benford_for_column_rows|].
  split; [reflexivity|]. split; [reflexivity|].
  assert (Hrows : forall row,
             In row (map (histogram_row EXPECTED_DIGITS label digits) (range 1 10)) ->
             row = histogram_row EXPECTED_DIGITS label digits (digit row)).
  { intros row Hrow. apply in_map_iff in Hrow as (d & <- & _). reflexivity. }
  split.
  - intros row Hrow. rewrite (Hrows row Hrow). simpl.
    repeat split; unfold observed_share.
    + intros Hpos. destruct (Z.eqb_spec (total_count digits) 0); [lia|reflexivity].
    + intros ->. reflexivity.
  - intros -> row Hrow. rewrite (Hrows row Hrow). reflexivity.
Qed.

(** C8, evaluated where it fails.  The cell text "5e-324" parses to the
    smallest positive float, the classifier keeps the column, and the
    histogram of the column is not nine rows but a division by zero: the
    logarithm of the value has floor -324, [10 ** -324] is 0.0, and
    [leading_digits] divides by it.  A column holding a NaN fails as well,
    with the error of [math.floor].  The division by the total is guarded
    as the claim says: a column of zeros has nine rows with [observed]
    0. *)
Theorem benford_for_column_division_by_zero (EXPECTED_DIGITS : Z -> Q) :
  parse_numeric (VStr "5e-324") = Some smallest_float
  /\ numeric_columns sheet_smallest_float = Ok [("v", [smallest_float])]
  /\ floor_log10 smallest_float = Ok (-324)
  /\ pow10 (-324) = Ok (Fin 0)
  /\ benford_for_column EXPECTED_DIGITS [smallest_float] "v"
     = Raise (Exn ZeroDivisionError "float division by zero")
  /\ benford_for_column EXPECTED_DIGITS [NaN] "v"
     = Raise (Exn ValueError "cannot convert float NaN to integer")
  /\ (exists rows,
        benford_for_column EXPECTED_DIGITS [Fin 0; Fin 0] "v" = Ok rows
        /\ length rows = 9%nat
        /\ map observed rows = [0; 0; 0; 0; 0; 0; 0; 0; 0]%Q).
Proof.
  assert (Hraise : leading_digits [smallest_float]
                   = Raise (Exn ZeroDivisionError "float division by zero"))
    by (vm_compute; reflexivity).
  split; [vm_compute; reflexivity|]. split; [vm_compute; reflexivity|].
  split; [vm_compute; reflexivity|]. split; [vm_compute; reflexivity|].
  split; [|split].
  - unfold benford_for_column. rewrite Hraise. reflexivity.
  - reflexivity.
  - eexists. split; [apply (benford_for_column_rows _ _ _ []); reflexivity|].
    split; reflexivity.
Qed.

(** ** The built-ins [max] and [sorted] *)

Lemma py_max_by_fold_spec {A} (key : A -> Q) (l : list A) (x : A) :
  let r := fold_left (fun best y => if Qlt_le_dec (key best) (key y) then y else best) l x in
  exists pre post,
    x :: l = (pre ++ r :: post)%list
    /\ (forall y, In y pre -> (key y < key r)%Q)
    /\ (forall y, In y post -> (key y <= key r)%Q).
Proof.
  cbv zeta.
  assert (Hgen : forall (l : list A) (pre : list A) (best : A) (mid : list A),
             (forall y, In y pre -> (key y < key best)%Q) ->
             (forall y, In y mid -> (key y <= key best)%Q) ->
             let r := fold_left (fun best y => if Qlt_le_dec (key best) (key y) then y else best)
                                l best in
             exists pre' post',
               (pre ++ best :: mid ++ l = pre' ++ r :: post')%list
               /\ (forall y, In y pre' -> (key y < key r)%Q)
               /\ (forall y, In y post' -> (key y <= key r)%Q)).
  { clear l x. induction l as [|y l IH]; intros pre best mid Hpre Hmid; cbv zeta; simpl fold_left.
    - exists pre, mid. rewrite app_nil_r. auto.
    - destruct (Qlt_le_dec (key best) (key y)) as [Hlt|Hle].
      + destruct (IH (pre ++ best :: mid)%list y []) as (pre' & post' & Heq & Hp & Hq).
        * intros z Hz. apply in_app_or in Hz as [Hz|[<-|Hz]].
          -- eapply Qlt_trans; [now apply Hpre|assumption].
          -- assumption.
          -- eapply Qle_lt_trans; [now apply Hmid|assumption].
        * intros z [].
        * exists pre', post'. split; [|auto].
          rewrite <- Heq. simpl. rewrite <- !app_assoc. simpl. reflexivity.
      + destruct (IH pre best (mid ++ [y])%list) as (pre' & post' & Heq & Hp & Hq).
        * assumption.
        * intros z Hz. apply in_app_or in Hz as [Hz|[<-|[]]]; [now apply Hmid|assumption].
        * exists pre', post'. split; [|auto].
          rewrite <- Heq. rewrite <- !app_assoc. reflexivity. }
  destruct (Hgen l [] x []) as (pre & post & Heq & Hp & Hq).
  - intros y [].
  - intros y [].
  - exists pre, post. simpl in Heq. auto.
Qed.

Lemma py_max_by_spec {A} (key : A -> Q) (l : list A) :
  l <> [] ->
  exists r pre post,
    py_max_by key l = Ok r
    /\ l = (pre ++ r :: post)%list
    /\ (forall y, In y pre -> (key y < key r)%Q)
    /\ (forall y, In y post -> (key y <= key r)%Q).
Proof.
  intros Hne. destruct l as [|x l]; [congruence|].
  destruct (py_max_by_fold_spec key l x) as (pre & post & Heq & Hp & Hq).
  eexists _, pre, post. split; [reflexivity|]. auto.
Qed.

Lemma sorted_insert_perm {A} (leb : A -> A -> bool) (x : A) (l : list A) :
  sorted_insert leb x l ≡ₚ x :: l.
Proof.
  induction l as [|y l IH]; simpl; [reflexivity|].
  destruct (leb x y); [reflexivity|].
  rewrite IH. apply Permutation_swap.
Qed.

Lemma py_sorted_perm {A} (leb : A -> A -> bool) (l : list A) :
  py_sorted leb l ≡ₚ l.
Proof.
  induction l as [|x l IH]; simpl; [reflexivity|].
  rewrite sorted_insert_perm. now rewrite IH.
Qed.

Section Sorted.

Context {A : Type} (leb : A -> A -> bool).
Hypothesis leb_total : forall x y, leb x y = false -> leb y x = true.
Hypothesis leb_trans : forall x y z, leb x y = true -> leb y z = true -> leb x z = true.

Lemma sorted_insert_sorted (x : A) (l : list A) :
  StronglySorted (fun a b => leb a b = true) l ->
  StronglySorted (fun a b => leb a b = true) (sorted_insert leb x l).
Proof.
  induction 1 as [|y l Hsorted IH Hall]; simpl.
  - repeat constructor.
  - destruct (leb x y) eqn:Hxy.
    + constructor; [now constructor|].
      constructor; [assumption|].
      eapply Forall_impl; [exact Hall|]. intros z Hz. now apply (leb_trans x y z).
    + constructor; [assumption|].
      rewrite sorted_insert_perm.
      constructor; [now apply leb_total|assumption].
Qed.

Lemma py_sorted_sorted (l : list A) :
  StronglySorted (fun a b => leb a b = true) (py_sorted leb l).
Proof.
  induction l as [|x l IH]; simpl; [constructor|]. now apply sorted_insert_sorted.
Qed.

End Sorted.

Lemma StronglySorted_lookup_lt {A} (R : A -> A -> Prop) (l : list A) (i j : nat) (a b : A) :
  StronglySorted R l -> (i < j)%nat -> l !! i = Some a -> l !! j = Some b -> R a b.
Proof.
  intros Hs. revert i j. induction Hs as [|x l Hs IH Hall]; intros i j Hij Ha Hb.
  - discriminate.
  - destruct i as [|i], j as [|j]; simpl in *; try lia.
    + injection Ha as <-. rewrite Forall_forall in Hall. apply Hall.
      eapply list_elem_of_lookup_2. exact Hb.
    + apply (IH i j); [lia|assumption|assumption].
Qed.

(** ** 4.6 Benford engine: the summary *)

Lemma filter_all {A} (f : A -> bool) (l : list A) :
  (forall x, In x l -> f x = true) -> List.filter f l = l.
Proof.
  induction l as [|x l IH]; simpl; intros H; [reflexivity|].
  rewrite H by (now left). f_equal. apply IH. intros y Hy. apply H. now right.
Qed.

Lemma filter_none {A} (f : A -> bool) (l : list A) :
  (forall x, In x l -> f x = false) -> List.filter f l = [].
Proof.
  induction l as [|x l IH]; simpl; intros H; [reflexivity|].
  rewrite H by (now left). apply IH. intros y Hy. apply H. now right.
Qed.

Lemma filter_label_flat_map (G : string * list float -> list digit_row)
    (columns : columns_dict) (label : string) (values : list float) :
  (forall entry row, In row (G entry) -> column row = fst entry) ->
  NoDup (map fst columns) ->
  In (label, values) columns ->
  List.filter (fun row => String.eqb (column row) label) (flat_map G columns)
  = G (label, values).
Proof.
  intros Hcol. induction columns as [|[k v] columns IH]; intros Hnd Hin; [destruct Hin|].
  simpl flat_map. rewrite List.filter_app.
  simpl in Hnd. apply NoDup_cons in Hnd as [Hk Hnd].
  destruct Hin as [Heq|Hin].
  - injection Heq as -> ->.
    rewrite filter_all.
    + rewrite filter_none; [apply app_nil_r|].
      intros row Hrow. apply in_flat_map in Hrow as (entry & Hentry & Hrow).
      apply String.eqb_neq. rewrite (Hcol _ _ Hrow). intros Hlabel. apply Hk.
      apply list_elem_of_In. rewrite <- Hlabel. apply in_map. exact Hentry.
    + intros row Hrow. apply String.eqb_eq. now rewrite (Hcol _ _ Hrow).
  - rewrite filter_none.
    + simpl. now apply IH.
    + intros row Hrow. apply String.eqb_neq. rewrite (Hcol _ _ Hrow). simpl.
      intros ->. apply Hk. apply list_elem_of_In.
      change label with (fst (label, values)). apply in_map. exact Hin.
Qed.

Lemma seqZ_split_below (m n : Z) (ds1 ds2 : list Z) (d0 : Z) :
  seqZ m n = (ds1 ++ d0 :: ds2)%list ->
  d0 = m + Z.of_nat (length ds1)
  /\ (forall d, m <= d < d0 -> In d ds1).
Proof.
  intros Heq.
  assert (Hd0 : seqZ m n !! length ds1 = Some d0).
  { rewrite Heq. rewrite lookup_app_r by lia. now rewrite Nat.sub_diag. }
  apply lookup_seqZ in Hd0 as [Hd0 Hlen]. split; [assumption|].
  intros d Hd.
  assert (Hlook : seqZ m n !! Z.to_nat (d - m) = Some d).
  { apply lookup_seqZ. lia. }
  rewrite Heq in Hlook. rewrite lookup_app_l in Hlook by lia.
  apply list_elem_of_In. eapply list_elem_of_lookup_2. exact Hlook.
Qed.

(** [max(rows, key=...)] over rows listed by ascending digit picks the
    lowest digit among those with the largest key. *)
Lemma py_max_by_digits {A} (key : A -> Q) (h : Z -> A) :
  exists d0,
    py_max_by key (map h (range 1 10)) = Ok (h d0)
    /\ 1 <= d0 <= 9
    /\ (forall d, 1 <= d <= 9 -> (key (h d) <= key (h d0))%Q)
    /\ (forall d, 1 <= d < d0 -> (key (h d) < key (h d0))%Q).
Proof.
  assert (Hne : map h (range 1 10) <> []) by (rewrite range_1_10; discriminate).
  destruct (py_max_by_spec key _ Hne) as (r & pre & post & Hmax & Hsplit & Hpre & Hpost).
  apply map_eq_app in Hsplit as (ds1 & ds' & Hrange & Hds1 & Hrest).
  destruct ds' as [|d0 ds2]; [discriminate|].
  injection Hrest as Hr Hds2. subst r pre post.
  destruct (seqZ_split_below 1 (10 - 1) ds1 ds2 d0 Hrange) as [Hd0 Hbelow].
  exists d0. split; [assumption|].
  assert (Hd0range : 1 <= d0 <= 9).
  { apply in_range_1_10. rewrite Hrange. apply in_elt. }
  split; [assumption|]. split.
  - intros d Hd. apply in_range_1_10 in Hd. rewrite Hrange in Hd.
    apply in_app_or in Hd as [Hd|[<-|Hd]].
    + apply Qlt_le_weak. apply Hpre. now apply in_map.
    + apply Qle_refl.
    + apply Hpost. now apply in_map.
  - intros d Hd. apply Hpre. apply in_map. apply Hbelow. lia.
Qed.

Section Summary.

Variable EXPECTED_DIGITS : Z -> Q.
Variable compensated : bool.

Lemma histogram_row_key (label : string) (digits : list Z) (d : Z) :
  Qabs (deviation (histogram_row EXPECTED_DIGITS label digits d))
  = abs_deviation EXPECTED_DIGITS digits d.
Proof. reflexivity. Qed.

Lemma binary64_nine : binary64 (inject_Z 9) = 9%Q.
Proof. vm_compute. reflexivity. Qed.

Lemma mad_of_deviations (digits : list Z) :
  Q_truediv (sum_float compensated (map (abs_deviation EXPECTED_DIGITS digits) (range 1 10)))
            (Z.of_nat (length (map (abs_deviation EXPECTED_DIGITS digits) (range 1 10))))
  = Ok (mean_abs_deviation EXPECTED_DIGITS compensated digits).
Proof.
  rewrite range_1_10. unfold Q_truediv, mean_abs_deviation. cbn [map length].
  change (Z.of_nat 9) with 9. change (9 =? 0) with false. cbv iota zeta.
  now rewrite binary64_nine.
Qed.

(** The summary of one column, computed from its nine histogram rows. *)
Lemma summary_of_histogram (detail : list digit_row) (label : string) (digits : list Z) :
  List.filter (fun row => String.eqb (column row) label) detail
  = map (histogram_row EXPECTED_DIGITS label digits) (range 1 10) ->
  exists row,
    summary_of compensated detail label = Ok row
    /\ s_column row = label
    /\ summary_row_ok EXPECTED_DIGITS compensated digits row.
Proof.
  intros Hrows. unfold summary_of. rewrite Hrows.
  destruct (py_max_by_digits (fun row => Qabs (deviation row))
              (histogram_row EXPECTED_DIGITS label digits))
    as (d0 & Hmax & Hd0 & Hupper & Hbelow).
  rewrite Hmax. unfold mbind at 1, result_bind at 1.
  assert (Hdevs : map (fun row => Qabs (deviation row))
                      (map (histogram_row EXPECTED_DIGITS label digits) (range 1 10))
                  = map (abs_deviation EXPECTED_DIGITS digits) (range 1 10)).
  { rewrite map_map. reflexivity. }
  rewrite Hdevs. clear Hdevs.
  pose proof (mad_of_deviations digits) as Hx.
  destruct (py_max_by_digits (fun x : Q => x) (abs_deviation EXPECTED_DIGITS digits))
    as (d1 & Hmax' & Hd1 & Hupper' & _).
  destruct (map (abs_deviation EXPECTED_DIGITS digits) (range 1 10)) as [|y l] eqn:Hlist;
    [rewrite range_1_10 in Hlist; discriminate|].
  rewrite Hx. unfold mbind at 1, result_bind at 1.
  rewrite Hmax'. unfold mbind, result_bind.
  eexists. split; [reflexivity|]. split; [reflexivity|].
  unfold summary_row_ok.
  cbn [mad max_abs_deviation top_deviation_digit digit histogram_row].
  rewrite !histogram_row_key in Hupper, Hbelow.
  assert (Hm : (abs_deviation EXPECTED_DIGITS digits d1
                == abs_deviation EXPECTED_DIGITS digits d0)%Q).
  { apply Qle_antisym; [now apply Hupper|now apply Hupper']. }
  split; [apply Qeq_refl|]. split; [exact Hupper'|]. split; [exact Hd0|]. split; [exact Hm|].
  intros d Hd. rewrite Hm. rewrite <- !histogram_row_key with (label := label).
  now apply Hbelow.
Qed.

End Summary.

Lemma for_each_ok_inv {S A} (body : S -> A -> result S) (l : list A) (s s' : S) :
  for_each body l s = Ok s' ->
  forall x, In x l -> exists s1 s2, body s1 x = Ok s2.
Proof.
  revert s. induction l as [|y l IH]; intros s Hok x Hx; [destruct Hx|].
  simpl in Hok. destruct (body s y) as [s1|e] eqn:Hbody; [|discriminate].
  destruct Hx as [<-|Hx].
  - now exists s, s1.
  - now apply (IH s1).
Qed.

Lemma for_each_snoc_exists {A B} (P : A -> B -> Prop)
    (body : list B -> A -> result (list B)) (l : list A) (s : list B) :
  (forall x, In x l -> exists y, P x y /\ forall s, body s x = Ok (s ++ [y])%list) ->
  exists ys, for_each body l s = Ok (s ++ ys)%list /\ Forall2 P l ys.
Proof.
  revert s. induction l as [|x l IH]; intros s Hbody.
  - exists []. simpl. rewrite app_nil_r. split; [reflexivity|constructor].
  - destruct (Hbody x (or_introl eq_refl)) as (y & Hy & Hstep).
    destruct (IH (s ++ [y])%list) as (ys & Hys & Hall).
    { intros z Hz. apply Hbody. now right. }
    exists (y :: ys). simpl. rewrite Hstep. simpl. rewrite Hys.
    rewrite <- app_assoc. split; [reflexivity|]. now constructor.
Qed.

Lemma digits_of_ok (values : list float) (digits : list Z) :
  leading_digits values = Ok digits -> digits_of values = digits.
Proof. unfold digits_of. now intros ->. Qed.

Section Summarize.

Variable EXPECTED_DIGITS : Z -> Q.
Variable compensated : bool.

Lemma detail_loop (columns : columns_dict) :
  (forall label values, In (label, values) columns ->
                        exists digits, leading_digits values = Ok digits) ->
  for_each (fun (detail : list digit_row) (entry : string * list float) =>
              rows ← benford_for_column EXPECTED_DIGITS (snd entry) (fst entry);
              Ok (detail ++ rows)%list)
           columns []
  = Ok (detail_of EXPECTED_DIGITS columns).
Proof.
  intros Hok. unfold detail_of.
  rewrite (for_each_append _ (fun entry : string * list float =>
             map (histogram_row EXPECTED_DIGITS (fst entry) (digits_of (snd entry)))
                 (range 1 10))); [reflexivity|].
  intros s [label values] Hin. destruct (Hok _ _ Hin) as [digits Hdigits]. simpl.
  rewrite (benford_for_column_rows _ _ _ _ Hdigits).
  now rewrite (digits_of_ok _ _ Hdigits).
Qed.

Lemma summarize_benford_ok (columns : columns_dict) :
  NoDup (map fst columns) ->
  (forall label values, In (label, values) columns ->
                        exists digits, leading_digits values = Ok digits) ->
  exists rows,
    summarize_benford EXPECTED_DIGITS compensated columns
    = Ok (py_sorted (fun a b => Qle_bool (mad b) (mad a)) rows, detail_of EXPECTED_DIGITS columns)
    /\ Forall2 (fun (entry : string * list float) row =>
                  s_column row = fst entry
                  /\ summary_row_ok EXPECTED_DIGITS compensated (digits_of (snd entry)) row)
               columns rows.
Proof.
  intros Hnd Hok. unfold summarize_benford.
  rewrite (detail_loop columns Hok). unfold mbind at 1, result_bind at 1.
  destruct (for_each_snoc_exists
              (fun (entry : string * list float) row =>
                 s_column row = fst entry
                 /\ summary_row_ok EXPECTED_DIGITS compensated (digits_of (snd entry)) row)
              (fun (summary : list summary_row) (entry : string * list float) =>
                 row ← summary_of compensated (detail_of EXPECTED_DIGITS columns) (fst entry);
                 Ok (summary ++ [row])%list)
              columns [])
    as (rows & Hrows & Hall).
  - intros [label values] Hin. simpl.
    destruct (summary_of_histogram EXPECTED_DIGITS compensated (detail_of EXPECTED_DIGITS columns) label
                (digits_of values))
      as (row & Hrow & Hlabel & Hspec).
    + unfold detail_of.
      apply (filter_label_flat_map
               (fun entry : string * list float =>
                  map (histogram_row EXPECTED_DIGITS (fst entry) (digits_of (snd entry)))
                      (range 1 10))
               columns label values); [|assumption|assumption].
      intros entry r Hr. apply in_map_iff in Hr as (d & <- & _). reflexivity.
    + exists row. split; [now split|]. intros s. now rewrite Hrow.
  - exists rows. rewrite Hrows. simpl. split; [reflexivity|assumption].
Qed.

Lemma summarize_benford_ok_inv (columns : columns_dict)
    (summary : list summary_row) (detail : list digit_row) :
  summarize_benford EXPECTED_DIGITS compensated columns = Ok (summary, detail) ->
  forall label values, In (label, values) columns ->
                       exists digits, leading_digits values = Ok digits.
Proof.
  intros Hok label values Hin. unfold summarize_benford in Hok.
  destruct (for_each _ columns []) as [d|e] eqn:Hdetail; [|discriminate].
  destruct (for_each_ok_inv _ _ _ _ Hdetail _ Hin) as (s1 & s2 & Hstep).
  simpl in Hstep.
  destruct (leading_digits values) as [digits|e] eqn:Hdigits; [now exists digits|].
  unfold benford_for_column in Hstep. rewrite Hdigits in Hstep. discriminate.
Qed.

End Summarize.

Lemma Qle_bool_total (x y : Q) : Qle_bool x y = false -> Qle_bool y x = true.
Proof.
  intros H. apply Qle_bool_iff. apply Qlt_le_weak. apply Qnot_le_lt.
  intros Hle. apply Qle_bool_iff in Hle. congruence.
Qed.

Lemma Qle_bool_trans (x y z : Q) :
  Qle_bool x y = true -> Qle_bool y z = true -> Qle_bool x z = true.
Proof. rewrite !Qle_bool_iff. apply Qle_trans. Qed.

(** C1: for a mapping of columns (each key once), whenever the engine
    returns, the summary has one row per column; the row of a column has
    [mad] equal to the mean over the digits 1..9 of [|observed - expected|]
    as the floats give it (the nine absolute differences, each a float,
    summed in the order of the digits by the interpreter's [sum], plain or
    compensated, and the sum divided by 9), [max_abs_deviation] equal to the
    largest of these nine numbers, and [top_deviation_digit] the lowest
    digit that attains it; and the rows are in descending order of [mad].
    The engine returns whenever the digits of every column can be
    extracted. *)
Theorem summarize_benford_summary (EXPECTED_DIGITS : Z -> Q) (compensated : bool)
    (columns : columns_dict) :
  NoDup (map fst columns) ->
  (forall summary detail,
      summarize_benford EXPECTED_DIGITS compensated columns = Ok (summary, detail) ->
      map s_column summary ≡ₚ map fst columns
      /\ (forall row, In row summary ->
            exists values digits,
              In (s_column row, values) columns
              /\ leading_digits values = Ok digits
              /\ summary_row_ok EXPECTED_DIGITS compensated digits row)
      /\ (forall i j a b, (i < j)%nat -> summary !! i = Some a -> summary !! j = Some b ->
                          (mad b <= mad a)%Q))
  /\ ((forall label values, In (label, values) columns ->
                            exists digits, leading_digits values = Ok digits) ->
      exists summary detail, summarize_benford EXPECTED_DIGITS compensated columns = Ok (summary, detail)).
Proof.
  intros Hnd. split.
  - intros summary detail Hresult.
    pose proof (summarize_benford_ok_inv _ _ _ _ _ Hresult) as Hok.
    destruct (summarize_benford_ok EXPECTED_DIGITS compensated columns Hnd Hok)
      as (rows & Heq & Hall).
    rewrite Heq in Hresult. injection Hresult as <- <-.
    pose proof (py_sorted_perm (fun a b => Qle_bool (mad b) (mad a)) rows) as Hperm.
    split; [|split].
    + rewrite Hperm. clear -Hall.
      induction Hall as [|entry row columns rows [Hlabel _] _ IH]; simpl; [reflexivity|].
      rewrite Hlabel. now constructor.
    + intros row Hrow.
      assert (Hin : In row rows).
      { apply list_elem_of_In. rewrite <- Hperm. now apply list_elem_of_In. }
      clear -Hall Hin Hok.
      induction Hall as [|entry r columns rows [Hlabel Hspec] _ IH]; [destruct Hin|].
      destruct Hin as [->|Hin].
      * destruct entry as [label values]. simpl in *.
        destruct (Hok label values (or_introl eq_refl)) as [digits Hdigits].
        exists values, digits. rewrite Hlabel.
        rewrite (digits_of_ok _ _ Hdigits) in Hspec. auto.
      * destruct IH as (values & digits & H1 & H2 & H3); [|assumption|].
        -- intros label values H. apply (Hok label values). now right.
        -- exists values, digits. split; [now right|auto].
    + intros i j a b Hij Ha Hb.
      pose proof (py_sorted_sorted (fun a b : summary_row => Qle_bool (mad b) (mad a))
                    (fun x y => Qle_bool_total (mad y) (mad x))
                    (fun x y z Hxy Hyz => Qle_bool_trans (mad z) (mad y) (mad x) Hyz Hxy)
                    rows) as Hsorted.
      apply Qle_bool_iff.
      exact (StronglySorted_lookup_lt _ _ i j a b Hsorted Hij Ha Hb).
  - intros Hok.
    destruct (summarize_benford_ok EXPECTED_DIGITS compensated columns Hnd Hok)
      as (rows & Heq & _).
    eauto.
Qed.


(** The ranking is the ranking of the floats.  The two columns below have the
    same sum of absolute deviations in exact arithmetic; summed left to right
    in binary64 the two means differ in the last place, and the sort of line
    203 moves column P before column Q.  With the compensated sum of the
    later interpreters the two means are the same float, and the stable sort
    keeps the order of the mapping. *)
Example summarize_benford_rounded_ranking :
  let columns := [("Q", [Fin 8; Fin 8; Fin 8; Fin 8; Fin 9; Fin 9; Fin 9]);
                  ("P", [Fin 8; Fin 9; Fin 9; Fin 9; Fin 9; Fin 9; Fin 9])] in
  (exists summary detail,
      summarize_benford EXPECTED_DIGITS_binary64 false columns = Ok (summary, detail)
      /\ map s_column summary = ["P"; "Q"]
      /\ map mad summary = [7230499073598121 # 36028797018963968;
                            903812384199765 # 4503599627370496])
  /\ (exists summary detail,
         summarize_benford EXPECTED_DIGITS_binary64 true columns = Ok (summary, detail)
         /\ map s_column summary = ["Q"; "P"]
         /\ map mad summary = [7230499073598121 # 36028797018963968;
                               7230499073598121 # 36028797018963968]).
Proof. split; vm_compute; eexists _, _; repeat split. Qed.
(** ** 4.5 Column classifier *)

Lemma prefix_iff (p s : string) :
  String.prefix p s = true <-> exists post : string, s = p ++ post.
Proof.
  revert s. induction p as [|a p IH]; intros s.
  - destruct s; simpl; split; eauto.
  - destruct s as [|b s]; simpl.
    + split; [discriminate|]. intros [post H]. discriminate.
    + destruct (ascii_dec a b) as [->|Hne].
      * rewrite IH. split; intros [post H]; exists post; [now rewrite H|].
        now injection H.
      * split; [discriminate|]. intros [post H]. injection H as H _. congruence.
Qed.

Lemma contains_iff (needle hay : string) :
  contains needle hay = true <-> exists pre post : string, hay = pre ++ needle ++ post.
Proof.
  induction hay as [|c hay IH].
  - change (contains needle "") with (String.prefix needle "" || false).
    rewrite orb_false_r. rewrite prefix_iff. split.
    + intros [post H]. exists "", post. exact H.
    + intros (pre & post & H). destruct pre as [|c pre]; [|discriminate].
      exists post. exact H.
  - change (contains needle (String c hay))
      with (String.prefix needle (String c hay) || contains needle hay).
    rewrite orb_true_iff, IH, prefix_iff. split.
    + intros [[post H]|(pre & post & H)].
      * exists "", post. exact H.
      * exists (String c pre), post. simpl. now rewrite H.
    + intros (pre & post & H). destruct pre as [|c' pre].
      * left. exists post. exact H.
      * right. simpl in H. injection H as _ H. exists pre, post. exact H.
Qed.

(** The nearest integer is at least as near as any other. *)
Lemma Qround_half_even_nearest (q : Q) (n : Z) :
  (Qabs (q - inject_Z (Qround_half_even q)) <= Qabs (q - inject_Z n))%Q.
Proof.
  pose proof (Qfloor_le q) as Hlo. pose proof (Qlt_floor q) as Hhi.
  set (f := Qfloor q) in *.
  assert (Hn : n <= f \/ f + 1 <= n) by lia.
  assert (Hcase : (inject_Z n <= inject_Z f \/ inject_Z (f + 1) <= inject_Z n)%Q).
  { destruct Hn as [Hn|Hn]; [left|right]; now rewrite <- Zle_Qle. }
  rewrite inject_Z_plus in Hhi, Hcase. change (inject_Z 1) with 1%Q in *.
  unfold Qround_half_even. fold f.
  destruct (Qcompare_spec (q - inject_Z f) (1 # 2)) as [Heq|Hlt|Hgt].
  - destruct (Z.even f); [|rewrite inject_Z_plus; change (inject_Z 1) with 1%Q];
      apply Qabs_case; intros; apply Qabs_case; intros; destruct Hcase; lra.
  - apply Qabs_case; intros; apply Qabs_case; intros; destruct Hcase; lra.
  - rewrite inject_Z_plus; change (inject_Z 1) with 1%Q.
    apply Qabs_case; intros; apply Qabs_case; intros; destruct Hcase; lra.
Qed.

Lemma near_integer_round (q : Q) :
  near_integer q <-> (Qabs (q - inject_Z (Qround_half_even q)) < 1 # 100)%Q.
Proof.
  split.
  - intros [n Hn]. eapply Qle_lt_trans; [apply (Qround_half_even_nearest q n)|exact Hn].
  - intros H. now exists (Qround_half_even q).
Qed.

Lemma near_integer_floor (q : Q) :
  near_integer q <->
  (q - inject_Z (Qfloor q) < 1 # 100)%Q \/ (inject_Z (Qfloor q + 1) - q < 1 # 100)%Q.
Proof.
  pose proof (Qfloor_le q) as Hlo. pose proof (Qlt_floor q) as Hhi.
  set (f := Qfloor q) in *. split.
  - intros [n Hn].
    assert (Hcase : (inject_Z n <= inject_Z f \/ inject_Z (f + 1) <= inject_Z n)%Q).
    { assert (Hz : n <= f \/ f + 1 <= n) by lia.
      destruct Hz as [Hz|Hz]; [left|right]; now rewrite <- Zle_Qle. }
    revert Hn. apply Qabs_case; intros; destruct Hcase; [left|right|left|right]; lra.
  - intros [H|H].
    + exists f. apply Qabs_case; intros; lra.
    + exists (f + 1). apply Qabs_case; intros; lra.
Qed.

Lemma negb_Qle_bool_iff (x y : Q) : negb (Qle_bool x y) = true <-> (y < x)%Q.
Proof.
  rewrite negb_true_iff. split.
  - intros H. apply Qnot_le_lt. intros Hle. apply Qle_bool_iff in Hle. congruence.
  - intros H. destruct (Qle_bool x y) eqn:Hle; [|reflexivity].
    apply Qle_bool_iff in Hle. lra.
Qed.

Lemma serial_date_like_b_iff (v : float) :
  serial_date_like_b v = true <-> serial_date_like v.
Proof.
  destruct v as [q| |]; simpl; [|split; [discriminate|tauto]..].
  rewrite !andb_true_iff, orb_true_iff, !negb_Qle_bool_iff, !Qle_bool_iff.
  rewrite near_integer_floor. tauto.
Qed.

(** The test of one value never raises: [round] is only reached for a
    value inside the range, which is finite. *)
Lemma is_serial_date_ok (v : float) :
  is_serial_date v = Ok (serial_date_like_b v).
Proof.
  unfold is_serial_date.
  destruct v as [q|s|]; [|destruct s; reflexivity|reflexivity].
  unfold float_leb, float_of_int. simpl serial_date_like_b.
  destruct (Qle_bool (inject_Z 20000) q && Qle_bool q (inject_Z 60000)) eqn:Hrange;
    [|reflexivity].
  simpl. f_equal. unfold float_ltb, float_leb. simpl.
  apply eq_true_iff_eq. rewrite negb_Qle_bool_iff, orb_true_iff, !negb_Qle_bool_iff.
  rewrite <- near_integer_floor. symmetry. apply near_integer_round.
Qed.

Lemma count_serial_loop (values : list float) (c : Z) :
  for_each (fun (date_like : Z) (v : float) =>
              b ← is_serial_date v;
              Ok (if b : bool then date_like + 1 else date_like))
           values c
  = Ok (c + Z.of_nat (length (List.filter serial_date_like_b values))).
Proof.
  revert c. induction values as [|v values IH]; intros c; simpl.
  - f_equal. lia.
  - rewrite is_serial_date_ok. simpl. rewrite IH.
    destruct (serial_date_like_b v); simpl; f_equal; lia.
Qed.

Lemma share_test (c : Z) (n : nat) :
  Qle_bool (8 # 10) (inject_Z c / inject_Z (Z.of_nat (S n)))
  = (4 * Z.of_nat (S n) <=? 5 * c).
Proof.
  apply eq_true_iff_eq. rewrite Qle_bool_iff, Z.leb_le.
  replace (Z.of_nat (S n)) with (Zpos (Pos.of_succ_nat n)) by now rewrite Zpos_P_of_succ_nat, Nat2Z.inj_succ.
  unfold Qle, Qdiv, Qmult, Qinv, inject_Z. simpl. lia.
Qed.

Lemma is_date_like_column_ok (header : string) (values : list float) :
  is_date_like_column header values = Ok (is_date_like_b header values).
Proof.
  unfold is_date_like_column, is_date_like_b.
  destruct (contains "date" (lower header)); [reflexivity|].
  destruct values as [|v values]; [reflexivity|].
  rewrite count_serial_loop. unfold mbind at 1, result_bind at 1.
  unfold exact_ratio.
  destruct (Z.eqb_spec (Z.of_nat (length (v :: values))) 0) as [H|_]; [simpl in H; lia|].
  unfold mbind, result_bind. f_equal. rewrite Z.add_0_l.
  simpl length. now rewrite share_test.
Qed.

Lemma is_date_like_b_iff (header : string) (values : list float) :
  values <> [] ->
  is_date_like_b header values = true <-> mentions_date header \/ mostly_serial_dates values.
Proof.
  intros Hne. unfold is_date_like_b, mentions_date, mostly_serial_dates.
  rewrite orb_true_iff, contains_iff.
  destruct values as [|v values]; [congruence|]. now rewrite Z.leb_le.
Qed.

(** *** The mapping built by [numeric_columns] *)

Lemma dict_of_ext (keys : list string) (f g : string -> list float) :
  (forall k, In k keys -> f k = g k) -> dict_of keys f = dict_of keys g.
Proof.
  unfold dict_of. induction keys as [|k keys IH]; intros H; simpl; [reflexivity|].
  rewrite H by (now left). f_equal. apply IH. intros k' Hk'. apply H. now right.
Qed.

Lemma dict_of_keys (keys : list string) (f : string -> list float) :
  map fst (dict_of keys f) = keys.
Proof. unfold dict_of. rewrite map_map. simpl. apply map_id. Qed.

Lemma dict_append_of (keys : list string) (f : string -> list float) (h : string) (x : float) :
  dict_append (dict_of keys f) h x
  = dict_of keys (fun k => if String.eqb k h then (f k ++ [x])%list else f k).
Proof.
  unfold dict_append, dict_of. rewrite map_map. apply map_ext. intros k. simpl.
  destruct (String.eqb k h); reflexivity.
Qed.

Lemma dict_set_of (keys : list string) (h : string) :
  dict_set (dict_of keys (fun _ => [])) h [] = dict_of (key_add keys h) (fun _ => []).
Proof.
  unfold dict_of. induction keys as [|k keys IH]; simpl; [reflexivity|].
  destruct (String.eqb k h); simpl; [reflexivity|]. now rewrite IH.
Qed.

Lemma key_add_In (keys : list string) (h k : string) :
  In k (key_add keys h) <-> In k keys \/ k = h.
Proof.
  induction keys as [|k' keys IH]; simpl.
  - intuition.
  - destruct (String.eqb_spec k' h) as [->|Hne]; simpl.
    + intuition.
    + rewrite IH. intuition.
Qed.

Lemma key_add_NoDup (keys : list string) (h : string) :
  NoDup keys -> NoDup (key_add keys h).
Proof.
  induction keys as [|k keys IH]; simpl; intros Hnd.
  - apply NoDup_singleton.
  - destruct (String.eqb_spec k h) as [->|Hne]; [assumption|].
    apply NoDup_cons in Hnd as [Hk Hnd]. apply NoDup_cons. split; [|now apply IH].
    rewrite list_elem_of_In, key_add_In. rewrite list_elem_of_In in Hk. intuition.
Qed.

Lemma first_occurrences_spec (headers : list string) :
  NoDup (first_occurrences headers)
  /\ forall k, In k (first_occurrences headers) <-> In k headers.
Proof.
  unfold first_occurrences.
  assert (Hgen : forall hs keys, NoDup keys ->
             NoDup (fold_left key_add hs keys)
             /\ forall k, In k (fold_left key_add hs keys) <-> In k keys \/ In k hs).
  { induction hs as [|h hs IH]; intros keys Hnd; simpl.
    - split; [assumption|]. intuition.
    - destruct (IH (key_add keys h) (key_add_NoDup keys h Hnd)) as [Hnd' Hin].
      split; [assumption|]. intros k. rewrite Hin, key_add_In. intuition. }
  destruct (Hgen headers [] (NoDup_nil_2 : NoDup [])) as [Hnd Hin].
  split; [assumption|]. intros k. rewrite Hin. simpl. intuition.
Qed.

Lemma init_columns (headers : list string) :
  fold_left (fun (d : columns_dict) header => dict_set d header []) headers []
  = dict_of (first_occurrences headers) (fun _ => []).
Proof.
  unfold first_occurrences. change (@nil (string * list float)) with (dict_of [] (fun _ => [])).
  generalize (@nil string). induction headers as [|h headers IH]; intros keys; simpl.
  - reflexivity.
  - rewrite dict_set_of. apply IH.
Qed.

Lemma fill_row (keys : list string) (f : string -> list float) (cells : list (string * value)) :
  fold_left (fun (d : columns_dict) (cell : string * value) =>
               match parse_numeric (snd cell) with
               | Some numeric_value => dict_append d (fst cell) numeric_value
               | None => d
               end)
            cells (dict_of keys f)
  = dict_of keys (fun k => (f k ++ row_values k cells)%list).
Proof.
  revert f. induction cells as [|cell cells IH]; intros f; simpl.
  - apply dict_of_ext. intros k _. now rewrite app_nil_r.
  - destruct (parse_numeric (snd cell)) as [x|] eqn:Hparse.
    + rewrite dict_append_of, IH. apply dict_of_ext. intros k _.
      rewrite String.eqb_sym.
      destruct (String.eqb (fst cell) k); simpl; [now rewrite <- app_assoc|reflexivity].
    + rewrite IH. apply dict_of_ext. intros k _.
      destruct (String.eqb (fst cell) k); reflexivity.
Qed.

Lemma fill_rows (keys : list string) (f : string -> list float)
    (headers : list string) (rows : list (list value)) :
  fold_left (fun (d : columns_dict) (row : list value) =>
               fold_left (fun (d : columns_dict) (cell : string * value) =>
                            match parse_numeric (snd cell) with
                            | Some numeric_value => dict_append d (fst cell) numeric_value
                            | None => d
                            end)
                         (zip headers row) d)
            rows (dict_of keys f)
  = dict_of keys (fun k => (f k ++ flat_map (fun row => row_values k (zip headers row)) rows)%list).
Proof.
  revert f. induction rows as [|row rows IH]; intros f; simpl.
  - apply dict_of_ext. intros k _. now rewrite app_nil_r.
  - rewrite fill_row, IH. apply dict_of_ext. intros k _. now rewrite <- app_assoc.
Qed.

Lemma filter_as_flat_map {A} (f : A -> bool) (l : list A) :
  flat_map (fun x => if f x then [x] else []) l = List.filter f l.
Proof.
  induction l as [|x l IH]; simpl; [reflexivity|]. rewrite IH. now destruct (f x).
Qed.

(** The classifier never raises, and keeps, in the order of their first
    occurrence, the headers with at least one value that are not date-like. *)
Lemma numeric_columns_eq (sheet : SheetData) :
  numeric_columns sheet
  = Ok (List.filter kept_b (dict_of (first_occurrences (headers sheet)) (column_values sheet))).
Proof.
  unfold numeric_columns. rewrite init_columns, fill_rows.
  rewrite (for_each_append _ (fun entry => if kept_b entry then [entry] else [])).
  - simpl app. now rewrite filter_as_flat_map.
  - intros kept [header values] _. unfold kept_b. simpl.
    destruct values as [|v values]; [now rewrite app_nil_r|].
    rewrite is_date_like_column_ok. simpl.
    destruct (is_date_like_b header (v :: values)); simpl; [now rewrite app_nil_r|reflexivity].
Qed.

Lemma numeric_columns_entries (sheet : SheetData) (header : string) (values : list float) :
  In (header, values)
     (List.filter kept_b (dict_of (first_occurrences (headers sheet)) (column_values sheet)))
  <-> In header (headers sheet) /\ values = column_values sheet header
      /\ kept_b (header, values) = true.
Proof.
  rewrite filter_In. unfold dict_of. rewrite in_map_iff.
  destruct (first_occurrences_spec (headers sheet)) as [_ Hin]. split.
  - intros [(k & Heq & Hk) Hkept]. injection Heq as -> <-.
    rewrite Hin in Hk. auto.
  - intros (Hh & -> & Hkept). split; [|assumption].
    exists header. rewrite Hin. auto.
Qed.

Lemma kept_b_false_iff (header : string) (values : list float) :
  kept_b (header, values) = false
  <-> mentions_date header \/ mostly_serial_dates values \/ values = [].
Proof.
  unfold kept_b. simpl. destruct values as [|v values].
  - split; [auto|reflexivity].
  - rewrite negb_false_iff, is_date_like_b_iff by discriminate.
    split; [tauto|]. intros [H|[H|H]]; [auto|auto|discriminate].
Qed.

(** C3: the classifier returns a mapping (it never raises) in which a
    header of the sheet is missing exactly when it contains "date" in any
    case, or at least 80% of the numeric values parsed under it lie in
    [20000, 60000] less than 0.01 away from an integer, or no numeric value
    was parsed under it; every other header is present, with all the values
    parsed under it, and nothing else is present. *)
Theorem numeric_columns_classification (sheet : SheetData) :
  exists columns : columns_dict,
    numeric_columns sheet = Ok columns
    /\ (forall header values,
          In (header, values) columns ->
          In header (headers sheet) /\ values = column_values sheet header)
    /\ (forall header,
          In header (headers sheet) ->
          (~ In header (map fst columns)
           <-> mentions_date header
               \/ mostly_serial_dates (column_values sheet header)
               \/ column_values sheet header = [])
          /\ (In header (map fst columns) ->
              In (header, column_values sheet header) columns)).
Proof.
  eexists. split; [apply numeric_columns_eq|]. split.
  - intros header values Hin. apply numeric_columns_entries in Hin. tauto.
  - intros header Hheader.
    assert (Hpresent : In header (map fst (List.filter kept_b
                          (dict_of (first_occurrences (headers sheet)) (column_values sheet))))
                       <-> kept_b (header, column_values sheet header) = true).
    { rewrite in_map_iff. split.
      - intros ([h values] & Hh & Hin). simpl in Hh. subst h.
        apply numeric_columns_entries in Hin as (_ & -> & Hkept). exact Hkept.
      - intros Hkept. exists (header, column_values sheet header). split; [reflexivity|].
        apply numeric_columns_entries. auto. }
    split.
    + rewrite Hpresent, <- kept_b_false_iff.
      destruct (kept_b (header, column_values sheet header)); split; congruence.
    + intros Hin. apply numeric_columns_entries. rewrite Hpresent in Hin. auto.
Qed.

Lemma numeric_columns_classification_witness :
  exists columns : columns_dict,
    numeric_columns sheet_amount_date = Ok columns
    /\ ~ In "B" (map fst columns)
    /\ In ("A", [Fin (100 # 1); Fin (200 # 1); Fin (300 # 1)]) columns.
Proof.
  destruct (numeric_columns_classification sheet_amount_date) as (columns & Heq & _ & Hcls).
  exists columns. split; [exact Heq|]. split.
  - destruct (Hcls "B") as [Hdrop _]; [simpl; auto|].
    apply Hdrop. right. left. unfold mostly_serial_dates. vm_compute. discriminate.
  - destruct (Hcls "A") as [Hdrop Hkeep]; [simpl; auto|].
    apply Hkeep. clear Hdrop Hkeep Hcls.
    vm_compute in Heq. injection Heq as <-. simpl. auto.
Defined.

(** The values are the floats that the cell texts parse to.  The text
    "20,000.01" parses to the float next below 20000.01, which is less
    than 0.01 away from 20000: a column of such amounts is taken for a
    column of dates and dropped. *)
Example numeric_columns_cents :
  parse_numeric (VStr "20,000.01") = Some (Fin (5497560887659069 # 274877906944))
  /\ (5497560887659069 # 274877906944 < 2000001 # 100)%Q
  /\ is_date_like_column "v" [Fin (5497560887659069 # 274877906944)] = Ok true
  /\ numeric_columns sheet_cents = Ok [].
Proof. repeat split; vm_compute; reflexivity. Qed.

Lemma filter_fst_NoDup {A B} (f : A * B -> bool) (l : list (A * B)) :
  NoDup (map fst l) -> NoDup (map fst (List.filter f l)).
Proof.
  induction l as [|x l IH]; simpl; intros Hnd; [assumption|].
  apply NoDup_cons in Hnd as [Hx Hnd].
  destruct (f x); simpl; [|now apply IH].
  apply NoDup_cons. split; [|now apply IH].
  intros Hin. apply Hx. apply list_elem_of_In in Hin. apply list_elem_of_In.
  apply in_map_iff in Hin as (y & Hy & Hin). apply filter_In in Hin as [Hin _].
  rewrite <- Hy. now apply in_map.
Qed.

(** C10: the classifier returns a mapping in which every header occurs at
    most once, and the values of a header are the numeric values parsed
    from every column that carries it, row after row and, inside a row, in
    the order of the columns. *)
Theorem numeric_columns_merges_duplicates (sheet : SheetData) :
  exists columns : columns_dict,
    numeric_columns sheet = Ok columns
    /\ NoDup (map fst columns)
    /\ (forall header values,
          In (header, values) columns ->
          values
          = flat_map (fun row : list value =>
                        flat_map (fun cell : string * value =>
                                    if String.eqb (fst cell) header
                                    then option_list (parse_numeric (snd cell)) else [])
                                 (zip (headers sheet) row))
                     (rows sheet)).
Proof.
  eexists. split; [apply numeric_columns_eq|]. split.
  - apply filter_fst_NoDup. rewrite dict_of_keys. apply first_occurrences_spec.
  - intros header values Hin. apply numeric_columns_entries in Hin as (_ & -> & _).
    reflexivity.
Qed.

Example numeric_columns_twice_x :
  numeric_columns sheet_twice_x
  = Ok [("x", [Fin (1 # 1); Fin (2 # 1); Fin (3 # 1); Fin (1004 # 1)])].
Proof. vm_compute. reflexivity. Qed.

Lemma numeric_columns_merges_duplicates_witness :
  exists columns : columns_dict,
    numeric_columns sheet_twice_x = Ok columns
    /\ NoDup (map fst columns)
    /\ columns = [("x", [Fin (1 # 1); Fin (2 # 1); Fin (3 # 1); Fin (1004 # 1)])].
Proof.
  destruct (numeric_columns_merges_duplicates sheet_twice_x) as (columns & Heq & Hnd & _).
  exists columns. split; [exact Heq|]. split; [exact Hnd|].
  rewrite numeric_columns_twice_x in Heq. now injection Heq as <-.
Defined.

(** ** 4.4 Worksheet extractor *)

Lemma string_compare_le_trans (s1 s2 s3 : string) :
  String.compare s1 s2 <> Gt -> String.compare s2 s3 <> Gt -> String.compare s1 s3 <> Gt.
Proof.
  revert s2 s3. induction s1 as [|c1 s1 IH]; intros s2 s3 H12 H23.
  - destruct s3; simpl; discriminate.
  - destruct s2 as [|c2 s2]; [simpl in H12; congruence|].
    destruct s3 as [|c3 s3]; [simpl in H23; congruence|].
    simpl in *. unfold Ascii.compare in *.
    destruct (N.compare_spec (N_of_ascii c1) (N_of_ascii c2)) as [E12|L12|G12];
      destruct (N.compare_spec (N_of_ascii c2) (N_of_ascii c3)) as [E23|L23|G23];
      destruct (N.compare_spec (N_of_ascii c1) (N_of_ascii c3)) as [E13|L13|G13];
      try congruence; try lia.
    now apply (IH s2 s3).
Qed.

Lemma string_leb_trans (s1 s2 s3 : string) :
  String.leb s1 s2 = true -> String.leb s2 s3 = true -> String.leb s1 s3 = true.
Proof.
  unfold String.leb. intros H12 H23.
  pose proof (string_compare_le_trans s1 s2 s3) as H.
  destruct (String.compare s1 s2), (String.compare s2 s3), (String.compare s1 s3);
    try reflexivity; try discriminate; exfalso; apply H; congruence.
Qed.

Lemma string_leb_total (s1 s2 : string) :
  String.leb s1 s2 = false -> String.leb s2 s1 = true.
Proof. destruct (String.leb_total s1 s2) as [H|H]; congruence. Qed.

Lemma py_sorted_nil {A} (leb : A -> A -> bool) (l : list A) :
  py_sorted leb l = [] <-> l = [].
Proof.
  split; [|now intros ->]. intros H.
  apply Permutation_nil_r. rewrite <- H. symmetry. apply py_sorted_perm.
Qed.

Lemma py_sorted_head_min {A} (leb : A -> A -> bool) (l : list A) (x : A) (rest : list A) :
  (forall x y, leb x y = false -> leb y x = true) ->
  (forall x y z, leb x y = true -> leb y z = true -> leb x z = true) ->
  py_sorted leb l = x :: rest ->
  In x l /\ forall y, In y l -> leb x y = true.
Proof.
  intros Htotal Htrans Hsorted.
  pose proof (py_sorted_perm leb l) as Hperm. rewrite Hsorted in Hperm.
  pose proof (py_sorted_sorted leb Htotal Htrans l) as Hs. rewrite Hsorted in Hs.
  apply StronglySorted_inv in Hs as [_ Hall]. rewrite Forall_forall in Hall.
  split.
  - apply list_elem_of_In. rewrite <- Hperm. left.
  - intros y Hy. apply list_elem_of_In in Hy. rewrite <- Hperm in Hy.
    apply elem_of_cons in Hy as [->|Hy]; [|now apply Hall].
    destruct (leb x x) eqn:Hxx; [reflexivity|]. rewrite <- Hxx. now apply Htotal.
Qed.

Lemma zip_read_acc (zip_file : Package) (name : string) (found : option element) :
  (is_Some found \/ In name (namelist zip_file)) ->
  is_Some (fold_left (fun found part =>
                        if String.eqb (fst part) name then Some (snd part) else found)
                     zip_file found).
Proof.
  revert found. induction zip_file as [|[n e] zip_file IH]; intros found H; simpl.
  - destruct H as [H|[]]. exact H.
  - apply IH. destruct (String.eqb_spec n name) as [->|Hne].
    + left. eauto.
    + destruct H as [H|[H|H]]; [now left|simpl in H; congruence|now right].
Qed.

Lemma zip_read_listed (zip_file : Package) (name : string) :
  In name (namelist zip_file) -> exists root, zip_read zip_file name = Some root.
Proof.
  intros H. destruct (zip_read_acc zip_file name None (or_intror H)) as [root Hroot].
  now exists root.
Qed.

(** A package with a worksheet part has a selected sheet, and it is the
    one the extractor reads. *)
Lemma selected_sheet_exists (zip_file : Package) :
  (exists name, In name (namelist zip_file) /\ is_sheet_name name = true) ->
  exists name root, selected_sheet zip_file name root.
Proof.
  intros (n & Hn & Hsheet).
  destruct (py_sorted String.leb (List.filter is_sheet_name (namelist zip_file)))
    as [|first rest] eqn:Hsorted.
  - apply py_sorted_nil in Hsorted.
    assert (Hin : In n (List.filter is_sheet_name (namelist zip_file))) by (apply filter_In; auto).
    rewrite Hsorted in Hin. destruct Hin.
  - destruct (py_sorted_head_min _ _ _ _ string_leb_total string_leb_trans Hsorted)
      as [Hfirst Hmin].
    apply filter_In in Hfirst as [Hfirst Hfirst'].
    destruct (zip_read_listed zip_file first Hfirst) as [root Hroot].
    exists first, root. repeat split; try assumption.
    intros other Hother Hother'. apply Hmin. apply filter_In. auto.
Qed.

Section Load.

Variable float_repr : float -> string.

Lemma load_first_sheet_none (zip_file : Package) :
  (forall name, In name (namelist zip_file) -> is_sheet_name name = false) ->
  load_first_sheet float_repr zip_file = Raise no_worksheet.
Proof.
  intros Hnone. unfold load_first_sheet.
  rewrite (filter_none is_sheet_name (namelist zip_file)) by assumption. reflexivity.
Qed.

Lemma load_first_sheet_selected (zip_file : Package) (name : string) (root : element) :
  selected_sheet zip_file name root ->
  load_first_sheet float_repr zip_file
  = match scan_sheet (read_shared_strings zip_file) root with
    | Ok (rows, max_col) =>
        match rows !! 1 with
        | None => Raise no_header_row
        | Some row1 => Ok (sheet_of float_repr rows max_col row1)
        end
    | Raise e => Raise e
    end.
Proof.
  intros (Hname & Hsheet & Hmin & Hroot). unfold load_first_sheet.
  destruct (py_sorted String.leb (List.filter is_sheet_name (namelist zip_file)))
    as [|first rest] eqn:Hsorted.
  - apply py_sorted_nil in Hsorted.
    assert (Hin : In name (List.filter is_sheet_name (namelist zip_file)))
      by (apply filter_In; auto).
    rewrite Hsorted in Hin. destruct Hin.
  - destruct (py_sorted_head_min _ _ _ _ string_leb_total string_leb_trans Hsorted)
      as [Hfirst Hfirstmin].
    assert (Heq : first = name).
    { apply String.leb_antisym.
      - apply Hfirstmin. apply filter_In. auto.
      - apply filter_In in Hfirst as [Hfirst Hfirst']. now apply Hmin. }
    subst first. rewrite Hroot.
    destruct (scan_sheet (read_shared_strings zip_file) root) as [[rows max_col]|e];
      reflexivity.
Qed.

End Load.

Lemma for_each_cons {S A} (body : S -> A -> result S) (x : A) (l : list A) (s : S) :
  for_each body (x :: l) s = (s' ← body s x; for_each body l s').
Proof. reflexivity. Qed.

Lemma scan_row_ok (shared_strings : list string) (rows : gmap Z (gmap Z value))
    (max_col : Z) (row : element) (row_idx : Z) :
  row_index row = Some row_idx ->
  exists row_cells max_col',
    scan_row shared_strings (rows, max_col) row
    = Ok (if row_idx =? 0 then rows else <[row_idx := row_cells]> rows, max_col').
Proof.
  unfold row_index, scan_row. intros ->.
  destruct (fold_left (scan_cell shared_strings) (findall row (NAMESPACE ++ "c")) (∅, max_col))
    as [row_cells max_col'].
  now exists row_cells, max_col'.
Qed.

Lemma scan_row_raise (shared_strings : list string) (state : gmap Z (gmap Z value) * Z)
    (row : element) :
  row_index row = None ->
  scan_row shared_strings state row
  = Raise (int_error (default "0" (attrib_get row "r"))).
Proof. unfold row_index, scan_row. destruct state. now intros ->. Qed.

(** When every row index is an integer the scan succeeds, and a row index
    is a key of the result exactly when it is not 0 and some row carries it. *)
Lemma scan_rows_ok (shared_strings : list string) (row_elements : list element)
    (rows : gmap Z (gmap Z value)) (max_col : Z) :
  Forall (fun row => is_Some (row_index row)) row_elements ->
  exists rows' max_col',
    for_each (scan_row shared_strings) row_elements (rows, max_col) = Ok (rows', max_col')
    /\ forall k, is_Some (rows' !! k)
                 <-> is_Some (rows !! k)
                     \/ (k <> 0 /\ exists row, In row row_elements /\ row_index row = Some k).
Proof.
  revert rows max_col. induction row_elements as [|row row_elements IH];
    intros rows max_col Hall.
  - exists rows, max_col. split; [reflexivity|]. intros k. split; [auto|].
    intros [H|(_ & row & [] & _)]. exact H.
  - apply Forall_cons in Hall as [[idx Hidx] Hall].
    destruct (scan_row_ok shared_strings rows max_col row idx Hidx) as (cells & m & Hstep).
    destruct (IH (if idx =? 0 then rows else <[idx := cells]> rows) m Hall)
      as (rows' & max_col' & Hloop & Hkeys).
    exists rows', max_col'. split.
    + rewrite for_each_cons, Hstep. exact Hloop.
    + intros k. rewrite Hkeys. clear Hkeys Hloop Hstep IH.
      destruct (Z.eqb_spec idx 0) as [->|Hne].
      * split.
        -- intros [H|(Hk & r & Hr & Hr')]; [now left|right].
           split; [assumption|]. exists r. split; [now right|assumption].
        -- intros [H|(Hk & r & [<-|Hr] & Hr')]; [now left| |].
           ++ congruence.
           ++ right. split; [assumption|]. now exists r.
      * rewrite lookup_insert. destruct (decide (idx = k)) as [->|Hk].
        -- split; [|eauto]. intros _. right. split; [assumption|].
           exists row. split; [now left|assumption].
        -- split.
           ++ intros [H|(Hk' & r & Hr & Hr')]; [now left|right].
              split; [assumption|]. exists r. split; [now right|assumption].
           ++ intros [H|(Hk' & r & [<-|Hr] & Hr')]; [now left| |].
              ** congruence.
              ** right. split; [assumption|]. now exists r.
Qed.

(** A row index that [int] rejects makes the scan raise the error of
    [int]. *)
Lemma scan_rows_raise (shared_strings : list string) (row_elements : list element)
    (state : gmap Z (gmap Z value) * Z) :
  (exists row, In row row_elements /\ row_index row = None) ->
  exists r, for_each (scan_row shared_strings) row_elements state = Raise (int_error r).
Proof.
  revert state. induction row_elements as [|row row_elements IH]; intros state (bad & Hin & Hbad).
  - destruct Hin.
  - rewrite for_each_cons. destruct (row_index row) as [idx|] eqn:Hidx.
    + destruct state as [rows max_col].
      destruct (scan_row_ok shared_strings rows max_col row idx Hidx) as (cells & m & Hstep).
      rewrite Hstep. unfold mbind, result_bind. apply IH. exists bad. split; [|assumption].
      destruct Hin as [<-|Hin]; [congruence|assumption].
    + rewrite scan_row_raise by assumption. unfold mbind, result_bind. eauto.
Qed.

Lemma invalid_literal_distinct (r : string) :
  invalid_literal r <> no_worksheet /\ invalid_literal r <> no_header_row.
Proof. split; discriminate. Qed.

(** The error of [int] is neither of the two errors of the extractor. *)
Lemma int_error_distinct (r : string) :
  int_error r <> no_worksheet /\ int_error r <> no_header_row.
Proof.
  unfold int_error. destruct (split_sign (numeric_strip r)) as [neg body].
  destruct (digitpart body) as [[[v n] rest]|]; [|apply invalid_literal_distinct].
  destruct (String.prefix "_" rest); [apply invalid_literal_distinct|].
  destruct (int_max_str_digits <? Z.of_nat n); [|apply invalid_literal_distinct].
  split; discriminate.
Qed.

Lemma no_worksheet_distinct : no_worksheet <> no_header_row.
Proof. discriminate. Qed.

Lemma row_indices_dec (row_elements : list element) :
  Forall (fun row => is_Some (row_index row)) row_elements
  \/ exists row, In row row_elements /\ row_index row = None.
Proof.
  induction row_elements as [|row row_elements [IH|(bad & Hin & Hbad)]].
  - left. constructor.
  - destruct (row_index row) as [idx|] eqn:Hidx.
    + left. constructor; [rewrite Hidx; eauto|assumption].
    + right. exists row. split; [now left|assumption].
  - right. exists bad. split; [now right|assumption].
Qed.

Section LoadErrors.

Variable float_repr : float -> string.

(** The three ways the extractor ends once a worksheet has been selected. *)
Lemma load_first_sheet_cases (zip_file : Package) (name : string) (root : element) :
  selected_sheet zip_file name root ->
  (Forall (fun row => is_Some (row_index row)) (row_elements_of root) ->
   (forall row, In row (row_elements_of root) -> row_index row <> Some 1) ->
   load_first_sheet float_repr zip_file = Raise no_header_row)
  /\ (Forall (fun row => is_Some (row_index row)) (row_elements_of root) ->
      (exists row, In row (row_elements_of root) /\ row_index row = Some 1) ->
      exists rows max_col row1,
        scan_sheet (read_shared_strings zip_file) root = Ok (rows, max_col)
        /\ rows !! 1 = Some row1
        /\ load_first_sheet float_repr zip_file = Ok (sheet_of float_repr rows max_col row1))
  /\ ((exists row, In row (row_elements_of root) /\ row_index row = None) ->
      exists r, load_first_sheet float_repr zip_file = Raise (int_error r)).
Proof.
  intros Hsel. rewrite (load_first_sheet_selected float_repr _ _ _ Hsel).
  unfold scan_sheet. fold (row_elements_of root). split; [|split].
  - intros Hall Hnone.
    destruct (scan_rows_ok (read_shared_strings zip_file) _ ∅ 0 Hall)
      as (rows & max_col & Hscan & Hkeys).
    rewrite Hscan. destruct (rows !! 1) as [row1|] eqn:Hrow1; [|reflexivity].
    exfalso. destruct (proj1 (Hkeys 1)) as [H|(_ & row & Hin & Hidx)]; [eauto| |].
    + rewrite lookup_empty in H. now destruct H.
    + now apply (Hnone row).
  - intros Hall Hsome.
    destruct (scan_rows_ok (read_shared_strings zip_file) _ ∅ 0 Hall)
      as (rows & max_col & Hscan & Hkeys).
    rewrite Hscan. destruct (proj2 (Hkeys 1)) as [row1 Hrow1].
    { right. split; [lia|assumption]. }
    exists rows, max_col, row1. rewrite Hrow1. auto.
  - intros Hbad.
    destruct (scan_rows_raise (read_shared_strings zip_file) _ (∅, 0) Hbad) as [r Hr].
    rewrite Hr. now exists r.
Qed.

End LoadErrors.

(** C5, as the code has it: the extractor fails with the "no worksheet"
    error exactly when no part of the package is a worksheet; the "no
    header row" error differs from it; and for the selected worksheet, when
    [int] accepts the index of every row (a decimal literal of at most 4300
    digits), the extractor fails with the "no header row" error exactly
    when no row has index 1 and returns a sheet otherwise.  A row index
    that [int] rejects makes it fail with the error of [int] instead, which
    is neither of the two. *)
Theorem load_first_sheet_errors (float_repr : float -> string) (zip_file : Package) :
  (load_first_sheet float_repr zip_file = Raise no_worksheet
   <-> forall name, In name (namelist zip_file) -> is_sheet_name name = false)
  /\ no_worksheet <> no_header_row
  /\ (forall name root,
        selected_sheet zip_file name root ->
        (Forall (fun row => is_Some (row_index row)) (row_elements_of root) ->
         (load_first_sheet float_repr zip_file = Raise no_header_row
          <-> forall row, In row (row_elements_of root) -> row_index row <> Some 1)
         /\ ((exists row, In row (row_elements_of root) /\ row_index row = Some 1) ->
             exists sheet, load_first_sheet float_repr zip_file = Ok sheet))
        /\ ((exists row, In row (row_elements_of root) /\ row_index row = None) ->
            exists r, load_first_sheet float_repr zip_file = Raise (int_error r)
                      /\ int_error r <> no_worksheet
                      /\ int_error r <> no_header_row)).
Proof.
  split; [|split; [exact no_worksheet_distinct|]].
  - split; [|apply load_first_sheet_none].
    intros Hraise name Hin.
    destruct (is_sheet_name name) eqn:Hsheet; [exfalso|reflexivity].
    destruct (selected_sheet_exists zip_file) as (first & root & Hsel); [eauto|].
    destruct (load_first_sheet_cases float_repr _ _ _ Hsel) as (Hnone & Hsome & Hbad).
    destruct (row_indices_dec (row_elements_of root)) as [Hall|Hexists].
    + assert (Hone : (exists row, In row (row_elements_of root) /\ row_index row = Some 1)
                     \/ forall row, In row (row_elements_of root) -> row_index row <> Some 1).
      { clear. induction (row_elements_of root) as [|row l [IH|IH]].
        - right. intros row [].
        - left. destruct IH as (r & Hr & Hidx). exists r. split; [now right|assumption].
        - destruct (decide (row_index row = Some 1)) as [Hidx|Hidx].
          + left. exists row. split; [now left|assumption].
          + right. intros r [<-|Hr]; [assumption|now apply IH]. }
      destruct Hone as [Hone|Hone].
      * destruct (Hsome Hall Hone) as (rows & max_col & row1 & _ & _ & Hok). congruence.
      * rewrite (Hnone Hall Hone) in Hraise.
        apply no_worksheet_distinct. congruence.
    + destruct (Hbad Hexists) as [r Hr]. rewrite Hr in Hraise.
      apply (proj1 (int_error_distinct r)). congruence.
  - intros name root Hsel.
    destruct (load_first_sheet_cases float_repr _ _ _ Hsel) as (Hnone & Hsome & Hbad).
    split.
    2: { intros Hexists. destruct (Hbad Hexists) as [r Hr]. exists r.
         split; [exact Hr|apply int_error_distinct]. }
    intros Hall. split.
    + split; [|now apply Hnone].
      intros Hraise row Hin Hidx.
      destruct (Hsome Hall) as (rows & max_col & row1 & _ & _ & Hok); [eauto|]. congruence.
    + intros Hone. destruct (Hsome Hall Hone) as (rows & max_col & row1 & _ & _ & Hok). eauto.
Qed.

(** *** Headers *)

Lemma rstrip_no_space (s : string) : no_space s = true -> rstrip s = s.
Proof.
  induction s as [|c s IH]; simpl; [reflexivity|].
  intros H. apply andb_true_iff in H as [Hc Hs]. rewrite (IH Hs).
  destruct s; [|reflexivity]. apply negb_true_iff in Hc. now rewrite Hc.
Qed.

Lemma lstrip_no_space (s : string) : no_space s = true -> lstrip s = s.
Proof.
  destruct s as [|c s]; simpl; [reflexivity|].
  intros H. apply andb_true_iff in H as [Hc _]. apply negb_true_iff in Hc. now rewrite Hc.
Qed.

Lemma strip_no_space (s : string) : no_space s = true -> strip s = s.
Proof.
  intros H. unfold strip. rewrite rstrip_no_space by assumption. now apply lstrip_no_space.
Qed.

Lemma no_space_app (s t : string) :
  no_space (s ++ t) = no_space s && no_space t.
Proof.
  induction s as [|c s IH]; simpl; [reflexivity|]. rewrite IH. now rewrite andb_assoc.
Qed.

Lemma no_space_string_of_uint (d : Decimal.uint) :
  no_space (NilEmpty.string_of_uint d) = true.
Proof. induction d; simpl; try assumption; reflexivity. Qed.

Lemma no_space_str_of_int (n : Z) : no_space (str_of_int n) = true.
Proof.
  unfold str_of_int. destruct (Z.to_int n) as [d|d]; simpl.
  - destruct d; try reflexivity; apply (no_space_string_of_uint (_ d)).
  - destruct d; try reflexivity; apply (no_space_string_of_uint (_ d)).
Qed.

Lemma strip_column_name (n : Z) :
  strip ("Column" ++ str_of_int n) = "Column" ++ str_of_int n.
Proof.
  apply strip_no_space. rewrite no_space_app. now rewrite no_space_str_of_int.
Qed.

Section Headers.

Variable float_repr : float -> string.

Lemma header_of_cases (row1 : gmap Z value) (n : Z) :
  match cells_get row1 n with
  | VNone => header_of float_repr row1 n = "Column" ++ str_of_int n
  | VStr s =>
      (s = "" -> header_of float_repr row1 n = "Column" ++ str_of_int n)
      /\ (s <> "" -> header_of float_repr row1 n = strip s)
  | VFloat f =>
      float_eqb f (Fin 0) = false -> header_of float_repr row1 n = strip (float_repr f)
  end.
Proof.
  unfold header_of, py_or. destruct (cells_get row1 n) as [|f|s]; simpl.
  - apply strip_column_name.
  - intros ->. reflexivity.
  - split.
    + intros ->. simpl. apply strip_column_name.
    + intros Hs. apply String.eqb_neq in Hs. now rewrite Hs.
Qed.

End Headers.

(** C6, as the code has it: for every column n from 1 to the largest
    column index seen, the header is ["Column" n] when the resolved cell at
    row 1 is missing, empty or the empty text, and otherwise, for a text or
    for a number other than zero, the text of the cell with the white
    space at both ends taken away. *)
Theorem load_first_sheet_headers (float_repr : float -> string) (zip_file : Package)
    (name : string) (root : element)
    (rows : gmap Z (gmap Z value)) (max_col : Z) (row1 : gmap Z value) :
  selected_sheet zip_file name root ->
  scan_sheet (read_shared_strings zip_file) root = Ok (rows, max_col) ->
  rows !! 1 = Some row1 ->
  exists sheet,
    load_first_sheet float_repr zip_file = Ok sheet
    /\ length (headers sheet) = Z.to_nat max_col
    /\ forall n, 1 <= n <= max_col ->
         exists header,
           headers sheet !! Z.to_nat (n - 1) = Some header
           /\ match cells_get row1 n with
              | VNone => header = "Column" ++ str_of_int n
              | VStr s =>
                  (s = "" -> header = "Column" ++ str_of_int n)
                  /\ (s <> "" -> header = strip s)
              | VFloat f =>
                  float_eqb f (Fin 0) = false -> header = strip (float_repr f)
              end.
Proof.
  intros Hsel Hscan Hrow1.
  exists (sheet_of float_repr rows max_col row1).
  split; [|split].
  - rewrite (load_first_sheet_selected float_repr _ _ _ Hsel), Hscan, Hrow1. reflexivity.
  - simpl. rewrite length_map. unfold range. rewrite length_seqZ. f_equal. lia.
  - intros n Hn. exists (header_of float_repr row1 n). split.
    + simpl. unfold range.
      change (map (header_of float_repr row1) (seqZ 1 (max_col + 1 - 1)))
        with (header_of float_repr row1 <$> seqZ 1 (max_col + 1 - 1)).
      rewrite list_lookup_fmap, lookup_seqZ_lt by lia. simpl. f_equal. f_equal. lia.
    + apply header_of_cases.
Qed.

(** *** The extractor on the example packages *)

Example load_three_rows :
  load_first_sheet float_repr_integral package_three_rows = Ok sheet_amount_date.
Proof. vm_compute. reflexivity. Qed.

Lemma selected_three_rows :
  selected_sheet package_three_rows "xl/worksheets/sheet1.xml" sheet_three_rows.
Proof.
  repeat split.
  - simpl. auto.
  - intros other [<-|[<-|[<-|[]]]]; (discriminate || reflexivity).
Qed.

Lemma selected_single (name : string) (root : element) :
  is_sheet_name name = true -> selected_sheet [(name, root)] name root.
Proof.
  intros Hname. repeat split.
  - now left.
  - assumption.
  - intros other [<-|[]] _. simpl.
    destruct (String.leb name name) eqn:H; [reflexivity|].
    rewrite <- H. now apply string_leb_total.
  - unfold zip_read. simpl. now rewrite String.eqb_refl.
Qed.

(** C5 fails as stated: this package has a worksheet part and the
    worksheet has a row with index 1, yet the extractor returns no sheet;
    it raises the error of [int] on the row index "x", which is neither the
    "no worksheet" nor the "no header row" error. *)
Lemma load_first_sheet_row_index_error :
  (exists name, In name (namelist package_bad_row_index) /\ is_sheet_name name = true)
  /\ (exists row, In row (row_elements_of sheet_bad_row_index) /\ row_index row = Some 1)
  /\ load_first_sheet float_repr_integral package_bad_row_index = Raise (invalid_literal "x")
  /\ invalid_literal "x" <> no_worksheet
  /\ invalid_literal "x" <> no_header_row
  /\ ~ (exists sheet, load_first_sheet float_repr_integral package_bad_row_index = Ok sheet).
Proof.
  assert (Hload : load_first_sheet float_repr_integral package_bad_row_index
                  = Raise (invalid_literal "x")) by (vm_compute; reflexivity).
  split; [|split; [|split; [|split; [|split]]]].
  - exists "xl/worksheets/sheet1.xml". split; [now left|reflexivity].
  - exists (row_element "1" [inline_string_cell "A1" "Amount"]). split; [now left|reflexivity].
  - exact Hload.
  - discriminate.
  - discriminate.
  - intros [sheet Hsheet]. rewrite Hload in Hsheet. discriminate.
Qed.

(** The limit of [int] on the number of digits: a row index of 4300
    digits is read, one of 4301 digits is rejected, and the extractor fails
    on it. *)
Example load_first_sheet_long_row_index :
  is_Some (py_int (ones 4300))
  /\ py_int (ones 4301) = None
  /\ load_first_sheet float_repr_integral
       [("xl/worksheets/sheet1.xml",
         worksheet [row_element "1" [inline_string_cell "A1" "Amount"];
                    row_element (ones 4301) [number_cell "A2" "100"]])]
     = Raise (too_many_digits 4301).
Proof.
  split; [|split].
  - destruct (py_int (ones 4300)) eqn:H; [eauto|vm_compute in H; discriminate].
  - vm_compute. reflexivity.
  - vm_compute. reflexivity.
Qed.

Lemma load_first_sheet_errors_witness :
  selected_sheet package_three_rows "xl/worksheets/sheet1.xml" sheet_three_rows
  /\ Forall (fun row => is_Some (row_index row)) (row_elements_of sheet_three_rows)
  /\ exists sheet, load_first_sheet float_repr_integral package_three_rows = Ok sheet.
Proof.
  split; [exact selected_three_rows|].
  assert (Hall : Forall (fun row => is_Some (row_index row)) (row_elements_of sheet_three_rows)).
  { repeat constructor; vm_compute; eauto. }
  split; [exact Hall|].
  destruct (load_first_sheet_errors float_repr_integral package_three_rows) as (_ & _ & H).
  destruct (H _ _ selected_three_rows) as [Hparsed _].
  destruct (Hparsed Hall) as [_ Hsheet].
  apply Hsheet.
  exists (row_element "1" [shared_string_cell "A1" "0"; shared_string_cell "B1" "1"]).
  split; [simpl; auto|reflexivity].
Defined.

(** C6 fails as stated: the header cell A1 holds the text " Amount " and
    the header is "Amount", not the text of the cell; the header cell B1
    holds the number 0, so it is not empty, and the header is "Column2". *)
Lemma load_first_sheet_header_not_cell_text :
  exists sheet rows max_col row1,
    load_first_sheet float_repr_integral package_padded_header = Ok sheet
    /\ scan_sheet (read_shared_strings package_padded_header) sheet_padded_header
       = Ok (rows, max_col)
    /\ rows !! 1 = Some row1
    /\ cells_get row1 1 = VStr " Amount "
    /\ headers sheet !! 0%nat = Some "Amount"
    /\ py_str float_repr_integral (cells_get row1 1) <> "Amount"
    /\ cells_get row1 2 = VFloat (Fin 0)
    /\ headers sheet !! 1%nat = Some "Column2".
Proof.
  destruct (scan_sheet (read_shared_strings package_padded_header) sheet_padded_header)
    as [[rows max_col]|e] eqn:Hscan; [|vm_compute in Hscan; discriminate].
  destruct (rows !! 1) as [row1|] eqn:Hrow1.
  - exists (sheet_of float_repr_integral rows max_col row1), rows, max_col, row1.
    vm_compute in Hscan. injection Hscan as <- <-.
    vm_compute in Hrow1. injection Hrow1 as <-.
    repeat split; try (vm_compute; reflexivity). vm_compute. discriminate.
  - exfalso. vm_compute in Hscan. injection Hscan as <- <-. vm_compute in Hrow1. discriminate.
Qed.

(** ** The pipeline on a sheet without data rows *)

Lemma numeric_columns_no_rows (sheet : SheetData) :
  rows sheet = [] -> numeric_columns sheet = Ok [].
Proof.
  intros Hrows. rewrite numeric_columns_eq. f_equal.
  apply filter_none. intros [header values] Hin.
  unfold dict_of in Hin. apply in_map_iff in Hin as (k & Heq & _).
  injection Heq as <- <-. unfold kept_b, column_values. now rewrite Hrows.
Qed.

Lemma sheet_of_no_data_rows (float_repr : float -> string)
    (scanned : gmap Z (gmap Z value)) (max_col : Z) (row1 : gmap Z value) :
  (forall k, is_Some (scanned !! k) -> k = 1) ->
  rows (sheet_of float_repr scanned max_col row1) = [].
Proof.
  intros Hkeys. unfold sheet_of. simpl.
  rewrite (filter_none (fun idx => negb (idx =? 1))); [reflexivity|].
  intros k Hk. apply in_map_iff in Hk as ([k' v] & <- & Hin). simpl.
  apply list_elem_of_In, elem_of_map_to_list in Hin.
  rewrite (Hkeys k') by eauto. reflexivity.
Qed.

(** C7: a sheet without data rows gives an empty mapping of numeric
    columns, the engine on an empty mapping gives an empty summary and an
    empty detail, and for a package whose selected worksheet has a row of
    index 1 and no row of another index (rows without an index are passed
    over) the whole pipeline returns these empty results and raises
    nothing. *)
Theorem empty_sheet_pipeline (float_repr : float -> string) (EXPECTED_DIGITS : Z -> Q)
    (compensated : bool) :
  (forall sheet, rows sheet = [] -> numeric_columns sheet = Ok [])
  /\ summarize_benford EXPECTED_DIGITS compensated [] = Ok ([], [])
  /\ (forall zip_file name root,
        selected_sheet zip_file name root ->
        Forall (fun row => row_index row = Some 1 \/ row_index row = Some 0)
               (row_elements_of root) ->
        (exists row, In row (row_elements_of root) /\ row_index row = Some 1) ->
        exists sheet,
          load_first_sheet float_repr zip_file = Ok sheet
          /\ rows sheet = []
          /\ main float_repr EXPECTED_DIGITS compensated zip_file = Ok ([], ([], []))).
Proof.
  split; [exact numeric_columns_no_rows|]. split; [reflexivity|].
  intros zip_file name root Hsel Hrows Hheader.
  assert (Hall : Forall (fun row => is_Some (row_index row)) (row_elements_of root)).
  { eapply Forall_impl; [exact Hrows|]. intros row [->| ->]; eauto. }
  pose proof (load_first_sheet_selected float_repr _ _ _ Hsel) as Hload.
  destruct (scan_rows_ok (read_shared_strings zip_file) (row_elements_of root) ∅ 0 Hall)
    as (scanned & max_col & Hscan & Hkeys).
  unfold scan_sheet in Hload. fold (row_elements_of root) in Hload. rewrite Hscan in Hload.
  assert (Hone : forall k, is_Some (scanned !! k) -> k = 1).
  { intros k Hk. apply Hkeys in Hk as [Hk|(Hk & row & Hin & Hidx)].
    - rewrite lookup_empty in Hk. now destruct Hk.
    - rewrite Forall_forall in Hrows. apply list_elem_of_In in Hin.
      destruct (Hrows row Hin) as [H|H]; congruence. }
  destruct (proj2 (Hkeys 1)) as [row1 Hrow1].
  { right. split; [lia|assumption]. }
  rewrite Hrow1 in Hload.
  exists (sheet_of float_repr scanned max_col row1).
  split; [exact Hload|].
  pose proof (sheet_of_no_data_rows float_repr scanned max_col row1 Hone) as Hempty.
  split; [exact Hempty|].
  unfold main. rewrite Hload. unfold mbind at 1, result_bind at 1.
  rewrite (numeric_columns_no_rows _ Hempty). reflexivity.
Qed.

Lemma empty_sheet_pipeline_witness :
  selected_sheet package_header_only "xl/worksheets/sheet1.xml" sheet_header_only
  /\ main float_repr_integral EXPECTED_DIGITS_binary64 false package_header_only
     = Ok ([], ([], [])).
Proof.
  assert (Hsel : selected_sheet package_header_only "xl/worksheets/sheet1.xml"
                                sheet_header_only)
    by (apply selected_single; reflexivity).
  split; [exact Hsel|].
  destruct (empty_sheet_pipeline float_repr_integral EXPECTED_DIGITS_binary64 false)
    as (_ & _ & H).
  destruct (H _ _ _ Hsel) as (sheet & _ & _ & Hmain).
  - repeat constructor.
  - eexists. split; [now left|reflexivity].
  - exact Hmain.
Defined.

Lemma load_first_sheet_headers_witness :
  exists sheet,
    load_first_sheet float_repr_integral package_three_rows = Ok sheet
    /\ headers sheet = ["A"; "B"].
Proof.
  destruct (scan_sheet (read_shared_strings package_three_rows) sheet_three_rows)
    as [[rows max_col]|e] eqn:Hscan; [|vm_compute in Hscan; discriminate].
  destruct (rows !! 1) as [row1|] eqn:Hrow1.
  - destruct (load_first_sheet_headers float_repr_integral package_three_rows _ _ rows max_col
                row1 selected_three_rows Hscan Hrow1) as (sheet & Hload & _ & _).
    exists sheet. split; [exact Hload|].
    rewrite load_three_rows in Hload. now injection Hload as <-.
  - exfalso. vm_compute in Hscan. injection Hscan as <- <-. vm_compute in Hrow1. discriminate.
Defined.

(** ** The engine on the example sheet *)

Lemma benford_for_column_histogram_witness :
  leading_digits [Fin (100 # 1); Fin 0; Fin (-250 # 1); Fin (3 # 8)] = Ok [1; 2; 3]
  /\ exists rows : list digit_row,
       benford_for_column EXPECTED_DIGITS_binary64
         [Fin (100 # 1); Fin 0; Fin (-250 # 1); Fin (3 # 8)] "A" = Ok rows
       /\ length rows = 9%nat
       /\ map count rows = [1; 1; 1; 0; 0; 0; 0; 0; 0].
Proof.
  assert (Hdigits : leading_digits [Fin (100 # 1); Fin 0; Fin (-250 # 1); Fin (3 # 8)]
                    = Ok [1; 2; 3]) by (vm_compute; reflexivity).
  split; [exact Hdigits|].
  destruct (benford_for_column_histogram EXPECTED_DIGITS_binary64
              [Fin (100 # 1); Fin 0; Fin (-250 # 1); Fin (3 # 8)] "A") as [Hok _].
  destruct (Hok [1; 2; 3] Hdigits) as (rows & Hrows & Hlen & _).
  exists rows. split; [exact Hrows|]. split; [exact Hlen|].
  vm_compute in Hrows. injection Hrows as <-. reflexivity.
Defined.

Lemma summarize_benford_summary_witness :
  NoDup (map fst [("A", [Fin (100 # 1); Fin (200 # 1); Fin (300 # 1)]); ("B", [Fin (5 # 1)])])
  /\ exists summary detail,
       summarize_benford EXPECTED_DIGITS_binary64 false
         [("A", [Fin (100 # 1); Fin (200 # 1); Fin (300 # 1)]); ("B", [Fin (5 # 1)])]
       = Ok (summary, detail).
Proof.
  assert (Hnd : NoDup (map fst [("A", [Fin (100 # 1); Fin (200 # 1); Fin (300 # 1)]);
                                ("B", [Fin (5 # 1)])])).
  { apply (bool_decide_unpack _). vm_compute. exact I. }
  split; [exact Hnd|].
  destruct (summarize_benford_summary EXPECTED_DIGITS_binary64 false _ Hnd) as [_ Htotal].
  apply Htotal. intros label values [Heq|[Heq|[]]]; injection Heq as <- <-.
  - exists [1; 2; 3]. vm_compute. reflexivity.
  - exists [5]. vm_compute. reflexivity.
Defined.

Example summarize_example_order :
  match summarize_benford EXPECTED_DIGITS_binary64 false
          [("A", [Fin (100 # 1); Fin (200 # 1); Fin (300 # 1)]); ("B", [Fin (5 # 1)])] with
  | Ok (summary, _) => map s_column summary = ["B"; "A"]
                       /\ map top_deviation_digit summary = [5; 3]
  | Raise _ => False
  end.
Proof. vm_compute. split; reflexivity. Qed.

(** ** The whole pipeline on the example package *)

Example main_three_rows :
  match main float_repr_integral EXPECTED_DIGITS_binary64 false package_three_rows with
  | Ok (columns, (summary, detail)) =>
      columns = [("A", [Fin (100 # 1); Fin (200 # 1); Fin (300 # 1)])]
      /\ map s_column summary = ["A"]
      /\ map total_values summary = [3]
      /\ map top_deviation_digit summary = [3]
      /\ map digit detail = [1; 2; 3; 4; 5; 6; 7; 8; 9]
      /\ map count detail = [1; 1; 1; 0; 0; 0; 0; 0; 0]
  | Raise _ => False
  end.
Proof. vm_compute. repeat split. Qed.

(** * Further properties of the code *)

(** ** CellRef resolver: the index tells the letters *)

Lemma upper_run_all_upper (s : string) : all_upper (upper_run s).
Proof.
  unfold all_upper. induction s as [|c s IH]; simpl; [constructor|].
  destruct (is_upper c) eqn:Hc; simpl; [|constructor]. now constructor.
Qed.

Lemma column_index_horner (s : string) :
  column_index_from_ref s = horner26 (list_ascii_of_string (upper_run s)).
Proof.
  unfold column_index_from_ref, re_match_upper, horner26.
  destruct (upper_run s); reflexivity.
Qed.

Lemma horner26_snoc (l : list ascii) (c : ascii) :
  horner26 (l ++ [c]) = horner26 l * 26 + (ord c - 64).
Proof. unfold horner26. rewrite fold_left_app. simpl. change (ord "A") with 65. lia. Qed.

Lemma horner26_nonneg (l : list ascii) :
  Forall (fun c => is_upper c = true) l -> 0 <= horner26 l.
Proof.
  induction l as [|c l IH] using rev_ind; intros Hup; [unfold horner26; simpl; lia|].
  apply Forall_app in Hup as [Hl Hc]. apply Forall_cons in Hc as [Hc _].
  rewrite horner26_snoc. unfold is_upper in Hc. specialize (IH Hl). lia.
Qed.

Lemma ord_inj (c1 c2 : ascii) : ord c1 = ord c2 -> c1 = c2.
Proof.
  unfold ord. intros H. apply N2Z.inj in H.
  rewrite <- (ascii_N_embedding c1), <- (ascii_N_embedding c2). now rewrite H.
Qed.

Lemma horner26_inj (l1 l2 : list ascii) :
  Forall (fun c => is_upper c = true) l1 ->
  Forall (fun c => is_upper c = true) l2 ->
  horner26 l1 = horner26 l2 -> l1 = l2.
Proof.
  revert l2. induction l1 as [|c1 l1 IH] using rev_ind; intros l2 H1 H2 Heq.
  - destruct l2 as [|c2 l2] using rev_ind; [reflexivity|].
    apply Forall_app in H2 as [Hl Hc]. apply Forall_cons in Hc as [Hc _].
    rewrite horner26_snoc in Heq. pose proof (horner26_nonneg l2 Hl).
    unfold is_upper in Hc. unfold horner26 in Heq at 1. simpl in Heq. lia.
  - apply Forall_app in H1 as [Hl1 Hc1]. apply Forall_cons in Hc1 as [Hc1 _].
    destruct l2 as [|c2 l2 _] using rev_ind.
    + rewrite horner26_snoc in Heq. pose proof (horner26_nonneg l1 Hl1).
      unfold is_upper in Hc1. unfold horner26 in Heq at 2. simpl in Heq. lia.
    + apply Forall_app in H2 as [Hl2 Hc2]. apply Forall_cons in Hc2 as [Hc2 _].
      rewrite !horner26_snoc in Heq.
      unfold is_upper in Hc1, Hc2.
      assert (Hc : ord c1 = ord c2) by lia.
      assert (Hl : horner26 l1 = horner26 l2) by lia.
      rewrite (IH l2 Hl1 Hl2 Hl). now rewrite (ord_inj c1 c2 Hc).
Qed.

Lemma list_ascii_of_string_inj (s1 s2 : string) :
  list_ascii_of_string s1 = list_ascii_of_string s2 -> s1 = s2.
Proof.
  intros H. rewrite <- (string_of_list_ascii_of_string s1),
              <- (string_of_list_ascii_of_string s2). now rewrite H.
Qed.

(** X1: Two cell addresses are filed under the same column only when their
    leading runs of letters are the same: the resolver is one-to-one on
    column letters. *)
Theorem column_index_from_ref_injective (ref1 ref2 : string) :
  column_index_from_ref ref1 = column_index_from_ref ref2 ->
  upper_run ref1 = upper_run ref2.
Proof.
  rewrite !column_index_horner. intros H.
  apply list_ascii_of_string_inj.
  apply horner26_inj; [apply upper_run_all_upper..|exact H].
Qed.

Lemma column_index_from_ref_injective_witness :
  upper_run "AB12" = upper_run "AB7".
Proof.
  apply (column_index_from_ref_injective "AB12" "AB7"). reflexivity.
Defined.

(** X2: The resolver returns 0 exactly for the addresses that do not start
    with a letter A-Z, so 0 never stands for a real column; every other
    result is positive. *)
Theorem column_index_from_ref_zero (ref : string) :
  (column_index_from_ref ref = 0 <-> starts_upper ref = false)
  /\ 0 <= column_index_from_ref ref.
Proof.
  rewrite column_index_horner. split.
  - split.
    + intros H. destruct ref as [|c ref]; [reflexivity|]. simpl.
      destruct (is_upper c) eqn:Hc; [|reflexivity]. exfalso.
      simpl in H. rewrite Hc in H. simpl in H.
      change (c :: list_ascii_of_string (upper_run ref))
        with ([c] ++ list_ascii_of_string (upper_run ref))%list in H.
      unfold horner26 in H. rewrite fold_left_app in H. simpl in H.
      pose proof (upper_run_all_upper ref) as Hup. unfold all_upper in Hup.
      revert H. change (ord "A") with 65.
      assert (Hpos : 0 < 0 * 26 + (ord c - 65 + 1)) by (unfold is_upper in Hc; lia).
      revert Hpos. generalize (0 * 26 + (ord c - 65 + 1)).
      induction Hup as [|d l Hd Hup IH]; intros acc Hacc; simpl; [lia|].
      apply IH. unfold is_upper in Hd. lia.
    + intros H. rewrite upper_run_no_letters by assumption. reflexivity.
  - apply horner26_nonneg. apply upper_run_all_upper.
Qed.

(** ** Worksheet extractor: what the scan records *)

Lemma last_such_snoc {A} (f : A -> bool) (l : list A) (x : A) :
  last_such f (l ++ [x]) = if f x then Some x else last_such f l.
Proof.
  unfold last_such. rewrite List.filter_app. simpl.
  destruct (f x); [apply last_snoc|now rewrite app_nil_r].
Qed.

Lemma last_such_Some {A} (f : A -> bool) (l : list A) (x : A) :
  last_such f l = Some x -> In x l /\ f x = true.
Proof.
  unfold last_such. intros H. apply filter_In.
  apply last_Some in H as [l' ->]. rewrite in_app_iff. right. now left.
Qed.

Lemma last_such_None {A} (f : A -> bool) (l : list A) :
  last_such f l = None <-> forall x, In x l -> f x = false.
Proof.
  unfold last_such. rewrite last_None. split.
  - intros H x Hx. destruct (f x) eqn:Hf; [|reflexivity].
    assert (Hin : In x (List.filter f l)) by (apply filter_In; auto).
    rewrite H in Hin. destruct Hin.
  - intros H. now apply filter_none.
Qed.

Lemma column_index_nonneg (ref : string) : 0 <= column_index_from_ref ref.
Proof.
  rewrite column_index_horner. apply horner26_nonneg. apply upper_run_all_upper.
Qed.

(** The cells of one row: the last cell filed under a column is the one
    kept; cells whose address has no letters are passed over; the running
    maximum takes in every column seen. *)
Lemma scan_cells_spec (shared_strings : list string) (cells : list element)
    (m0 : gmap Z value) (x0 : Z) :
  0 <= x0 ->
  exists m x,
    fold_left (scan_cell shared_strings) cells (m0, x0) = (m, x)
    /\ (forall n, m !! n
                  = match (if n =? 0 then None
                           else last_such (fun c => cell_column c =? n) cells) with
                    | Some c => Some (parse_cell_value c shared_strings)
                    | None => m0 !! n
                    end)
    /\ x0 <= x
    /\ (forall c, In c cells -> cell_column c <= x)
    /\ (x = x0 \/ exists c, In c cells /\ cell_column c = x).
Proof.
  intros Hx0. induction cells as [|cell cells IH] using rev_ind.
  - exists m0, x0. split; [reflexivity|]. split.
    + intros n. now destruct (n =? 0).
    + split; [lia|]. split; [intros c []|now left].
  - destruct IH as (m & x & Hfold & Hlook & Hle & Hall & Hmax).
    rewrite fold_left_app, Hfold. cbn [fold_left]. unfold scan_cell.
    fold (cell_column cell). pose proof (column_index_nonneg (default "" (attrib_get cell "r"))) as Hcol.
    fold (cell_column cell) in Hcol.
    destruct (Z.eqb_spec (cell_column cell) 0) as [Hzero|Hnz].
    + exists m, x. split; [reflexivity|]. split; [|split; [assumption|split]].
      * intros n. rewrite Hlook. destruct (Z.eqb_spec n 0) as [Hn|Hn]; [reflexivity|].
        rewrite last_such_snoc.
        destruct (Z.eqb_spec (cell_column cell) n) as [Hc|Hc]; [lia|reflexivity].
      * intros c Hc. apply in_app_or in Hc as [Hc|[<-|[]]]; [now apply Hall|lia].
      * destruct Hmax as [Hmax|(c & Hc & Hcx)]; [now left|right].
        exists c. split; [apply in_or_app; now left|assumption].
    + exists (<[cell_column cell := parse_cell_value cell shared_strings]> m),
             (Z.max x (cell_column cell)).
      split; [reflexivity|]. split; [|split; [lia|split]].
      * intros n. destruct (Z.eqb_spec n 0) as [Hn|Hn].
        -- rewrite lookup_insert_ne by lia. rewrite Hlook.
           destruct (Z.eqb_spec n 0); [reflexivity|lia].
        -- rewrite last_such_snoc.
           destruct (Z.eqb_spec (cell_column cell) n) as [Hc|Hc].
           ++ subst n. now rewrite lookup_insert_eq.
           ++ rewrite lookup_insert_ne by assumption. rewrite Hlook.
              destruct (Z.eqb_spec n 0); [lia|reflexivity].
      * intros c Hc. apply in_app_or in Hc as [Hc|[<-|[]]]; [specialize (Hall c Hc)|]; lia.
      * destruct (Z.max_spec x (cell_column cell)) as [[_ ->]|[_ ->]].
        -- right. exists cell. split; [apply in_or_app; right; now left|reflexivity].
        -- destruct Hmax as [Hmax|(c & Hc & Hcx)]; [now left|right].
           exists c. split; [apply in_or_app; now left|assumption].
Qed.

Lemma scan_cells_fst (shared_strings : list string) (cells : list element)
    (m0 : gmap Z value) (x0 x1 : Z) :
  fst (fold_left (scan_cell shared_strings) cells (m0, x0))
  = fst (fold_left (scan_cell shared_strings) cells (m0, x1)).
Proof.
  induction cells as [|cell cells IH] using rev_ind; [reflexivity|].
  rewrite !fold_left_app. simpl.
  destruct (fold_left (scan_cell shared_strings) cells (m0, x0)) as [m x].
  destruct (fold_left (scan_cell shared_strings) cells (m0, x1)) as [m' x'].
  simpl in IH. subst m'. unfold scan_cell.
  destruct (column_index_from_ref (default "" (attrib_get cell "r")) =? 0); reflexivity.
Qed.

Lemma for_each_snoc {S A} (body : S -> A -> result S) (l : list A) (x : A) (s : S) :
  for_each body (l ++ [x]) s = (s' ← for_each body l s; body s' x).
Proof.
  revert s. induction l as [|y l IH]; intros s; simpl.
  - destruct (body s x); reflexivity.
  - destruct (body s y) as [s'|e]; simpl; [apply IH|reflexivity].
Qed.

(** The rows of a sheet: the last row element carrying an index is the
    one kept, rows with index 0 are passed over, and the largest column
    takes in the cells of every row element, kept or not. *)
Lemma scan_rows_spec (shared_strings : list string) (row_elements : list element)
    (scanned : gmap Z (gmap Z value)) (max_col : Z) :
  for_each (scan_row shared_strings) row_elements (∅, 0) = Ok (scanned, max_col) ->
  (forall k, scanned !! k
             = if k =? 0 then None
               else cells_of_row shared_strings
                    <$> last_such (fun row => bool_decide (row_index row = Some k)) row_elements)
  /\ 0 <= max_col
  /\ (forall row c, In row row_elements -> In c (cell_elements_of row) ->
                    cell_column c <= max_col)
  /\ (max_col = 0
      \/ exists row c, In row row_elements /\ In c (cell_elements_of row)
                       /\ cell_column c = max_col).
Proof.
  revert scanned max_col.
  induction row_elements as [|row row_elements IH] using rev_ind; intros scanned max_col Hscan.
  - simpl in Hscan. injection Hscan as <- <-. split.
    + intros k. rewrite lookup_empty. now destruct (k =? 0).
    + split; [lia|]. split; [intros row c []|now left].
  - rewrite for_each_snoc in Hscan.
    destruct (for_each (scan_row shared_strings) row_elements (∅, 0)) as [[m x]|e] eqn:Hprev;
      [|discriminate].
    destruct (IH m x eq_refl) as (Hlook & Hx & Hall & Hmax). clear IH.
    unfold mbind, result_bind in Hscan. unfold scan_row in Hscan.
    fold (row_index row) in Hscan.
    destruct (row_index row) as [idx|] eqn:Hidx; [|discriminate].
    fold (cell_elements_of row) in Hscan.
    destruct (scan_cells_spec shared_strings (cell_elements_of row) ∅ x Hx)
      as (cells & x' & Hfold & _ & Hle & Hcells & Hcmax).
    pose proof (scan_cells_fst shared_strings (cell_elements_of row) ∅ x 0) as Hfst.
    rewrite Hfold in Hscan, Hfst. simpl in Hfst.
    fold (cells_of_row shared_strings row) in Hfst. subst cells.
    injection Hscan as <- <-. split; [|split; [lia|split]].
    + intros k. rewrite last_such_snoc.
      destruct (Z.eqb_spec idx 0) as [Hz|Hnz].
      * rewrite Hlook. destruct (Z.eqb_spec k 0) as [Hk|Hk]; [reflexivity|].
        rewrite bool_decide_eq_false_2; [reflexivity|]. congruence.
      * destruct (Z.eqb_spec k 0) as [Hk|Hk].
        -- rewrite lookup_insert_ne by lia. rewrite Hlook.
           destruct (Z.eqb_spec k 0); [reflexivity|lia].
        -- destruct (decide (idx = k)) as [->|Hne].
           ++ rewrite lookup_insert_eq. now rewrite bool_decide_eq_true_2.
           ++ rewrite lookup_insert_ne by assumption. rewrite Hlook.
              destruct (Z.eqb_spec k 0); [lia|].
              rewrite bool_decide_eq_false_2; [reflexivity|]. congruence.
    + intros r c Hr Hc. apply in_app_or in Hr as [Hr|[<-|[]]].
      * specialize (Hall r c Hr Hc). lia.
      * now apply Hcells.
    + destruct Hcmax as [->|(c & Hc & Hcx)].
      * destruct Hmax as [Hmax|(r & c & Hr & Hc & Hcx)]; [now left|right].
        exists r, c. split; [apply in_or_app; now left|auto].
      * right. exists row, c. split; [apply in_or_app; right; now left|auto].
Qed.

(** ** Worksheet extractor: the shape and the content of the sheet *)

Section LoadShape.

Variable float_repr : float -> string.

(** A returned sheet comes from a selected worksheet with a row 1. *)
Lemma load_first_sheet_ok_inv (zip_file : Package) (sheet : SheetData) :
  load_first_sheet float_repr zip_file = Ok sheet ->
  exists name root scanned max_col row1,
    selected_sheet zip_file name root
    /\ scan_sheet (read_shared_strings zip_file) root = Ok (scanned, max_col)
    /\ scanned !! 1 = Some row1
    /\ sheet = sheet_of float_repr scanned max_col row1.
Proof.
  intros Hload.
  assert (Hsome : exists name, In name (namelist zip_file) /\ is_sheet_name name = true).
  { destruct (List.filter is_sheet_name (namelist zip_file)) as [|name l] eqn:Hfilter.
    - unfold load_first_sheet in Hload. rewrite Hfilter in Hload. discriminate.
    - exists name. apply filter_In. rewrite Hfilter. now left. }
  destruct (selected_sheet_exists zip_file Hsome) as (name & root & Hsel).
  rewrite (load_first_sheet_selected float_repr _ _ _ Hsel) in Hload.
  destruct (scan_sheet (read_shared_strings zip_file) root) as [[scanned max_col]|e] eqn:Hscan;
    [|discriminate].
  destruct (scanned !! 1) as [row1|] eqn:Hrow1; [|discriminate].
  injection Hload as <-. exists name, root, scanned, max_col, row1. auto.
Qed.

Lemma selected_sheet_unique (zip_file : Package) (name1 name2 : string) (root1 root2 : element) :
  selected_sheet zip_file name1 root1 -> selected_sheet zip_file name2 root2 ->
  name1 = name2 /\ root1 = root2.
Proof.
  intros (Hin1 & Hs1 & Hmin1 & Hr1) (Hin2 & Hs2 & Hmin2 & Hr2).
  assert (Hname : name1 = name2) by (apply String.leb_antisym; auto).
  subst name2. split; [reflexivity|congruence].
Qed.

End LoadShape.

Lemma sorted_leb_strict (l : list Z) :
  NoDup l -> StronglySorted (fun a b => Z.leb a b = true) l -> StronglySorted Z.lt l.
Proof.
  induction l as [|x l IH]; intros Hnd Hs; [constructor|].
  apply NoDup_cons in Hnd as [Hx Hnd]. apply StronglySorted_inv in Hs as [Hs Hall].
  constructor; [now apply IH|].
  rewrite Forall_forall in Hall |- *. intros y Hy.
  specialize (Hall y Hy). apply Z.leb_le in Hall.
  assert (x <> y) by (intros ->; contradiction). lia.
Qed.

Lemma Z_leb_total (x y : Z) : Z.leb x y = false -> Z.leb y x = true.
Proof. intros H. apply Z.leb_gt in H. apply Z.leb_le. lia. Qed.

Lemma Z_leb_trans (x y z : Z) : Z.leb x y = true -> Z.leb y z = true -> Z.leb x z = true.
Proof. rewrite !Z.leb_le. lia. Qed.

(** X7: Every row of a returned sheet has exactly as many cells as the sheet
    has headers. *)
Theorem load_first_sheet_rectangular (float_repr : float -> string) (zip_file : Package)
    (sheet : SheetData) :
  load_first_sheet float_repr zip_file = Ok sheet ->
  Forall (fun row => length row = length (headers sheet)) (rows sheet).
Proof.
  intros Hload.
  destruct (load_first_sheet_ok_inv float_repr _ _ Hload)
    as (name & root & scanned & max_col & row1 & _ & _ & _ & ->).
  unfold sheet_of. simpl. apply Forall_forall. intros row Hrow.
  apply list_elem_of_In, in_map_iff in Hrow as (k & <- & _).
  now rewrite !length_map.
Qed.

Lemma load_first_sheet_rectangular_witness :
  Forall (fun row => length row = length (headers sheet_amount_date)) (rows sheet_amount_date).
Proof.
  apply (load_first_sheet_rectangular float_repr_integral package_three_rows).
  vm_compute. reflexivity.
Defined.

(** X8: The data rows of a returned sheet: one row for every distinct row
    index of the selected worksheet other than 0 and 1, in ascending order
    of the index, whatever the order of the row elements; the cell of row
    [k] in column [n] is the cell resolved for [k] and [n]; and the number
    of columns is the largest column index of any cell of the worksheet,
    also of cells in rows that are passed over. *)
Theorem load_first_sheet_grid (float_repr : float -> string) (zip_file : Package)
    (name : string) (root : element) (sheet : SheetData) :
  selected_sheet zip_file name root ->
  load_first_sheet float_repr zip_file = Ok sheet ->
  exists (indices : list Z) (max_col : Z),
    StronglySorted Z.lt indices
    /\ (forall k, In k indices
                  <-> k <> 0 /\ k <> 1
                      /\ exists row, In row (row_elements_of root) /\ row_index row = Some k)
    /\ rows sheet
       = map (fun k => map (resolved_cell (read_shared_strings zip_file) root k)
                           (range 1 (max_col + 1)))
             indices
    /\ length (headers sheet) = Z.to_nat max_col
    /\ (forall row c, In row (row_elements_of root) -> In c (cell_elements_of row) ->
                      cell_column c <= max_col)
    /\ (max_col = 0
        \/ exists row c, In row (row_elements_of root) /\ In c (cell_elements_of row)
                         /\ cell_column c = max_col).
Proof.
  intros Hsel Hload.
  destruct (load_first_sheet_ok_inv float_repr _ _ Hload)
    as (name' & root' & scanned & max_col & row1 & Hsel' & Hscan & Hrow1 & ->).
  destruct (selected_sheet_unique _ _ _ _ _ Hsel Hsel') as [<- <-]. clear Hsel'.
  unfold scan_sheet in Hscan. fold (row_elements_of root) in Hscan.
  destruct (scan_rows_spec _ _ _ _ Hscan) as (Hlook & Hmax0 & Hall & Hmax).
  set (keys := List.filter (fun idx => negb (idx =? 1)) (map fst (map_to_list scanned))).
  exists (py_sorted Z.leb keys), max_col.
  assert (Hkeys : forall k, In k keys <-> k <> 1 /\ is_Some (scanned !! k)).
  { intros k. unfold keys. rewrite filter_In, negb_true_iff, Z.eqb_neq.
    rewrite in_map_iff. split.
    - intros [([k' v] & Hk & Hin) Hne]. simpl in Hk. subst k'.
      apply list_elem_of_In, elem_of_map_to_list in Hin. split; [assumption|eauto].
    - intros [Hne [v Hv]]. split; [|assumption]. exists (k, v). split; [reflexivity|].
      now apply list_elem_of_In, elem_of_map_to_list. }
  assert (Hpresent : forall k, is_Some (scanned !! k)
                               <-> k <> 0 /\ exists row, In row (row_elements_of root)
                                                        /\ row_index row = Some k).
  { intros k. rewrite Hlook. destruct (Z.eqb_spec k 0) as [->|Hk].
    - split; [intros [? ?]; discriminate|intros [? _]; congruence].
    - destruct (last_such _ (row_elements_of root)) as [row|] eqn:Hlast; simpl.
      + apply last_such_Some in Hlast as [Hin Hidx]. apply bool_decide_eq_true in Hidx.
        split; [eauto|]. intros _. eauto.
      + split; [intros [? ?]; discriminate|]. intros (_ & row & Hin & Hidx).
        rewrite last_such_None in Hlast. specialize (Hlast row Hin).
        apply bool_decide_eq_false in Hlast. contradiction. }
  split; [|split; [|split; [|split; [|split]]]].
  - apply sorted_leb_strict.
    + rewrite py_sorted_perm. unfold keys. apply NoDup_ListNoDup, List.NoDup_filter.
      apply NoDup_ListNoDup. apply (NoDup_fst_map_to_list scanned).
    + apply py_sorted_sorted; [apply Z_leb_total|apply Z_leb_trans].
  - intros k. rewrite <- list_elem_of_In, py_sorted_perm, list_elem_of_In.
    rewrite Hkeys, Hpresent. tauto.
  - unfold sheet_of. simpl. fold keys. apply map_ext_in. intros k Hk.
    apply list_elem_of_In in Hk. rewrite py_sorted_perm in Hk. apply list_elem_of_In in Hk.
    apply Hkeys in Hk as [_ Hk]. apply Hpresent in Hk as [Hk0 _].
    apply map_ext_in. intros n Hn. apply list_elem_of_In in Hn. unfold range in Hn.
    apply elem_of_seqZ in Hn.
    unfold cells_get, resolved_cell. rewrite lookup_total_alt, Hlook.
    destruct (Z.eqb_spec k 0); [contradiction|].
    destruct (last_such _ (row_elements_of root)) as [row|]; simpl; [|now rewrite lookup_empty].
    unfold cells_of_row.
    destruct (scan_cells_spec (read_shared_strings zip_file) (cell_elements_of row) ∅ 0
                ltac:(lia)) as (m & x & Hfold & Hcells & _).
    rewrite Hfold. simpl. rewrite Hcells.
    destruct (Z.eqb_spec n 0); [lia|].
    destruct (last_such _ (cell_elements_of row)); [reflexivity|now rewrite lookup_empty].
  - unfold sheet_of. simpl. rewrite length_map. unfold range. rewrite length_seqZ. f_equal. lia.
  - exact Hall.
  - exact Hmax.
Qed.

Lemma load_first_sheet_grid_witness :
  exists (indices : list Z) (max_col : Z),
    StronglySorted Z.lt indices
    /\ rows sheet_amount_date
       = map (fun k => map (resolved_cell (read_shared_strings package_three_rows)
                                          sheet_three_rows k)
                           (range 1 (max_col + 1)))
             indices.
Proof.
  destruct (load_first_sheet_grid float_repr_integral package_three_rows _ _ sheet_amount_date
              selected_three_rows load_three_rows)
    as (indices & max_col & Hsorted & _ & Hrows & _).
  exists indices, max_col. split; assumption.
Defined.

(** *** Headers carry no surrounding white space *)

Lemma rstrip_idempotent (s : string) : rstrip (rstrip s) = rstrip s.
Proof.
  induction s as [|c s IH]; [reflexivity|]. simpl.
  destruct (rstrip s) as [|d r] eqn:Hr.
  - destruct (is_space c) eqn:Hc; [reflexivity|]. simpl. now rewrite Hc.
  - simpl. simpl in IH. now rewrite IH.
Qed.

Lemma lstrip_idempotent (s : string) : lstrip (lstrip s) = lstrip s.
Proof.
  induction s as [|c s IH]; [reflexivity|]. simpl.
  destruct (is_space c) eqn:Hc; [assumption|]. simpl. now rewrite Hc.
Qed.

Lemma rstrip_lstrip (s : string) : rstrip s = s -> rstrip (lstrip s) = lstrip s.
Proof.
  induction s as [|c s IH]; [reflexivity|]. intros H. simpl.
  destruct (is_space c) eqn:Hc; [|exact H].
  apply IH. simpl in H. destruct (rstrip s) as [|d r]; [now rewrite Hc in H|].
  now injection H.
Qed.

Lemma strip_fixed (s : string) :
  lstrip (strip s) = strip s /\ rstrip (strip s) = strip s.
Proof.
  unfold strip. split; [apply lstrip_idempotent|].
  apply rstrip_lstrip. apply rstrip_idempotent.
Qed.

(** X9: No header of a returned sheet begins or ends with white space:
    stripping a header again changes nothing. *)
Theorem load_first_sheet_headers_stripped (float_repr : float -> string) (zip_file : Package)
    (sheet : SheetData) :
  load_first_sheet float_repr zip_file = Ok sheet ->
  forall header, In header (headers sheet) ->
                 lstrip header = header /\ rstrip header = header /\ strip header = header.
Proof.
  intros Hload header Hheader.
  destruct (load_first_sheet_ok_inv float_repr _ _ Hload)
    as (name & root & scanned & max_col & row1 & _ & _ & _ & ->).
  unfold sheet_of in Hheader. simpl in Hheader.
  apply in_map_iff in Hheader as (n & <- & _). unfold header_of.
  destruct (strip_fixed (py_str float_repr
              (py_or (cells_get row1 n) (VStr ("Column" ++ str_of_int n))))) as [Hl Hr].
  split; [assumption|]. split; [assumption|].
  unfold strip at 1. now rewrite Hr.
Qed.

Lemma load_first_sheet_headers_stripped_witness :
  exists sheet,
    load_first_sheet float_repr_integral package_padded_header = Ok sheet
    /\ headers sheet = ["Amount"; "Column2"]
    /\ lstrip "Amount" = "Amount" /\ rstrip "Amount" = "Amount" /\ strip "Amount" = "Amount".
Proof.
  destruct (load_first_sheet float_repr_integral package_padded_header)
    as [sheet|e] eqn:Hload; [|vm_compute in Hload; discriminate].
  assert (Hheaders : headers sheet = ["Amount"; "Column2"])
    by (vm_compute in Hload; injection Hload as <-; reflexivity).
  exists sheet. split; [reflexivity|]. split; [exact Hheaders|].
  apply (load_first_sheet_headers_stripped float_repr_integral package_padded_header sheet Hload).
  rewrite Hheaders. left. reflexivity.
Defined.

(** *** The order of the parts in the package *)

Lemma zip_read_snoc (zip_file : Package) (part : string * element) (name : string) :
  zip_read (zip_file ++ [part])%list name
  = if String.eqb (fst part) name then Some (snd part) else zip_read zip_file name.
Proof. unfold zip_read. now rewrite fold_left_app. Qed.

Lemma zip_read_unlisted (zip_file : Package) (name : string) :
  ~ In name (namelist zip_file) -> zip_read zip_file name = None.
Proof.
  induction zip_file as [|part zip_file IH] using rev_ind; intros Hnot; [reflexivity|].
  rewrite zip_read_snoc. unfold namelist in *. rewrite map_app, in_app_iff in Hnot. simpl in Hnot.
  destruct (String.eqb_spec (fst part) name) as [Heq|_]; [tauto|]. apply IH. tauto.
Qed.

Lemma zip_read_member (zip_file : Package) (name : string) (root : element) :
  NoDup (namelist zip_file) -> In (name, root) zip_file -> zip_read zip_file name = Some root.
Proof.
  induction zip_file as [|part zip_file IH] using rev_ind; intros Hnd Hin; [destruct Hin|].
  rewrite zip_read_snoc. unfold namelist in *. rewrite map_app in Hnd. simpl in Hnd.
  apply NoDup_app in Hnd as (Hnd & Hsep & _).
  apply in_app_or in Hin as [Hin|[Hpart|[]]].
  - destruct (String.eqb_spec (fst part) name) as [Heq|_].
    + exfalso.
      assert (H1 : name ∈ map fst zip_file).
      { apply list_elem_of_In, in_map_iff. exists (name, root). auto. }
      apply (Hsep name H1). rewrite <- Heq. left.
    + now apply IH.
  - subst part. simpl. now rewrite String.eqb_refl.
Qed.

Lemma zip_read_perm (zip_file zip_file' : Package) (name : string) :
  NoDup (namelist zip_file) -> zip_file ≡ₚ zip_file' ->
  zip_read zip_file name = zip_read zip_file' name.
Proof.
  intros Hnd Hperm.
  assert (Hnd' : NoDup (namelist zip_file')).
  { unfold namelist in *. change (map fst) with (fmap (M:=list) (@fst string element)) in *.
    now rewrite <- Hperm. }
  destruct (in_dec string_dec name (namelist zip_file)) as [Hin|Hnot].
  - unfold namelist in Hin. apply in_map_iff in Hin as ([n root] & Hn & Hin). simpl in Hn. subst n.
    rewrite (zip_read_member _ _ _ Hnd Hin). symmetry. apply zip_read_member; [assumption|].
    apply list_elem_of_In. rewrite <- Hperm. now apply list_elem_of_In.
  - rewrite (zip_read_unlisted _ _ Hnot). symmetry. apply zip_read_unlisted.
    intros Hin. apply Hnot. unfold namelist in *.
    apply list_elem_of_In. apply list_elem_of_In in Hin.
    change (map fst) with (fmap (M:=list) (@fst string element)) in *. now rewrite Hperm.
Qed.

(** X6: When the names of the parts are distinct, the order in which the
    package lists its parts does not matter: the extractor returns the
    same sheet, or raises the same error, for every reordering. *)
Theorem load_first_sheet_part_order (float_repr : float -> string)
    (zip_file zip_file' : Package) :
  NoDup (namelist zip_file) ->
  zip_file ≡ₚ zip_file' ->
  load_first_sheet float_repr zip_file = load_first_sheet float_repr zip_file'.
Proof.
  intros Hnd Hperm.
  assert (Hnames : forall name, In name (namelist zip_file) <-> In name (namelist zip_file')).
  { intros name. unfold namelist. rewrite <- !list_elem_of_In.
    change (map fst) with (fmap (M:=list) (@fst string element)). now rewrite Hperm. }
  assert (Hshared : read_shared_strings zip_file = read_shared_strings zip_file').
  { unfold read_shared_strings. now rewrite (zip_read_perm _ _ _ Hnd Hperm). }
  destruct (List.filter is_sheet_name (namelist zip_file)) as [|name l] eqn:Hfilter.
  - assert (Hnone : forall name, In name (namelist zip_file) -> is_sheet_name name = false).
    { intros name Hin. destruct (is_sheet_name name) eqn:Hs; [|reflexivity].
      assert (H : In name (List.filter is_sheet_name (namelist zip_file)))
        by (apply filter_In; auto).
      rewrite Hfilter in H. destruct H. }
    rewrite (load_first_sheet_none float_repr _ Hnone). symmetry.
    apply load_first_sheet_none. intros name Hin. apply Hnone. now apply Hnames.
  - destruct (selected_sheet_exists zip_file) as (first & root & Hsel).
    { exists name. apply filter_In. rewrite Hfilter. now left. }
    assert (Hsel' : selected_sheet zip_file' first root).
    { destruct Hsel as (Hin & Hs & Hmin & Hroot). repeat split.
      - now apply Hnames.
      - assumption.
      - intros other Hother. apply Hmin. now apply Hnames.
      - now rewrite <- (zip_read_perm _ _ _ Hnd Hperm). }
    rewrite (load_first_sheet_selected float_repr _ _ _ Hsel),
            (load_first_sheet_selected float_repr _ _ _ Hsel').
    now rewrite Hshared.
Qed.

Lemma load_first_sheet_part_order_witness :
  load_first_sheet float_repr_integral package_three_rows
  = load_first_sheet float_repr_integral package_three_rows_reordered.
Proof.
  apply load_first_sheet_part_order.
  - apply (bool_decide_unpack _). vm_compute. exact I.
  - apply (Permutation_app_comm
             [("xl/sharedStrings.xml", shared_strings_part);
              ("xl/worksheets/sheet2.xml", worksheet [])]
             [("xl/worksheets/sheet1.xml", sheet_three_rows)]).
Defined.

(** ** Shared strings and the decoder *)

(** X4: In a package without a shared-string part the table is empty, and
    then every cell typed as a shared-string reference decodes to [None],
    whatever its index. *)
Theorem no_shared_strings_part (zip_file : Package) (cell : element) :
  ~ In "xl/sharedStrings.xml" (namelist zip_file) ->
  attrib_get cell "t" = Some "s" ->
  read_shared_strings zip_file = []
  /\ parse_cell_value cell (read_shared_strings zip_file) = VNone.
Proof.
  intros Hnot Htype.
  assert (Hempty : read_shared_strings zip_file = []).
  { unfold read_shared_strings. now rewrite zip_read_unlisted. }
  split; [assumption|]. rewrite Hempty. unfold parse_cell_value. rewrite Htype.
  rewrite bool_decide_eq_false_2 by discriminate.
  destruct (find cell (NAMESPACE ++ "v")) as [value_node|]; [|reflexivity].
  destruct (text value_node) as [raw|]; [|reflexivity].
  rewrite bool_decide_eq_true_2 by reflexivity.
  destruct (py_int raw) as [i|]; [|reflexivity].
  assert (Hidx : py_index (@nil string) i = None).
  { apply py_index_out_of_range. simpl. lia. }
  now rewrite Hidx.
Qed.

Lemma no_shared_strings_part_witness :
  read_shared_strings package_header_only = []
  /\ parse_cell_value (shared_string_cell "A1" "0") (read_shared_strings package_header_only)
     = VNone.
Proof.
  apply no_shared_strings_part.
  - simpl. intros [H|[]]. discriminate.
  - reflexivity.
Defined.

(** ** Column classifier: parsing and the shape of the result *)

Lemma remove_commas_idempotent (s : string) :
  remove_commas (remove_commas s) = remove_commas s.
Proof.
  induction s as [|c s IH]; [reflexivity|]. simpl.
  destruct (Ascii.eqb c ",") eqn:Hc; [assumption|]. simpl. now rewrite Hc, IH.
Qed.




(** X13: The date-like test never raises, whatever the values: [round] is only
    reached for a value inside [20000, 60000], the division only for a
    list that is not empty.  It answers [True] exactly when the header
    mentions "date", or the list is not empty and at least 80% of it is
    serial-date-like; so an empty list under another header is not
    date-like. *)
Theorem is_date_like_column_total (header : string) (values : list float) :
  exists b : bool,
    is_date_like_column header values = Ok b
    /\ (b = true <-> mentions_date header \/ (values <> [] /\ mostly_serial_dates values)).
Proof.
  exists (is_date_like_b header values). split; [apply is_date_like_column_ok|].
  destruct values as [|v values].
  - unfold is_date_like_b, mentions_date. rewrite orb_false_r, contains_iff.
    split; [auto|]. intros [H|[H _]]; [assumption|congruence].
  - rewrite is_date_like_b_iff by discriminate. split.
    + intros [H|H]; [now left|right]. split; [discriminate|assumption].
    + intros [H|[_ H]]; auto.
Qed.

Lemma key_add_fresh (keys : list string) (h : string) :
  ~ In h keys -> key_add keys h = (keys ++ [h])%list.
Proof.
  induction keys as [|k keys IH]; intros Hnot; [reflexivity|]. simpl in *.
  destruct (String.eqb_spec k h) as [Heq|_]; [tauto|]. f_equal. apply IH. tauto.
Qed.

Lemma first_occurrences_distinct (headers : list string) :
  NoDup headers -> first_occurrences headers = headers.
Proof.
  unfold first_occurrences. intros Hnd.
  assert (Hgen : forall keys, (forall h, In h headers -> ~ In h keys) ->
                              fold_left key_add headers keys = (keys ++ headers)%list).
  { induction Hnd as [|h headers Hh Hnd IH]; intros keys Hfresh; simpl.
    - now rewrite app_nil_r.
    - rewrite key_add_fresh by (apply Hfresh; now left).
      rewrite IH; [now rewrite <- app_assoc|].
      intros h' Hh' Hin. apply in_app_or in Hin as [Hin|[<-|[]]].
      + apply (Hfresh h'); [now right|assumption].
      + apply Hh. now apply list_elem_of_In. }
  apply (Hgen []). intros h _ [].
Qed.

Lemma filter_sublist {A} (f : A -> bool) (l : list A) : sublist (List.filter f l) l.
Proof.
  induction l as [|x l IH]; simpl; [constructor|].
  destruct (f x); now constructor.
Qed.

Lemma row_values_absent (header : string) (cells : list (string * value)) :
  ~ In header (map fst cells) -> row_values header cells = [].
Proof.
  induction cells as [|cell cells IH]; intros Hnot; [reflexivity|].
  unfold row_values in *. simpl in *.
  destruct (String.eqb_spec (fst cell) header) as [Heq|_]; [tauto|]. apply IH. tauto.
Qed.

Lemma row_values_at_most_one (header : string) (cells : list (string * value)) :
  NoDup (map fst cells) -> (length (row_values header cells) <= 1)%nat.
Proof.
  induction cells as [|cell cells IH]; intros Hnd; [simpl; lia|].
  simpl in Hnd. apply NoDup_cons in Hnd as [Hcell Hnd].
  change (row_values header (cell :: cells))
    with ((if String.eqb (fst cell) header
           then option_list (parse_numeric (snd cell)) else []) ++ row_values header cells)%list.
  rewrite length_app.
  destruct (String.eqb_spec (fst cell) header) as [Heq|_].
  - rewrite row_values_absent.
    + destruct (parse_numeric (snd cell)); simpl; lia.
    + rewrite <- Heq. intros Hin. apply Hcell. now apply list_elem_of_In.
  - simpl. now apply IH.
Qed.

Lemma zip_fst_NoDup {A B} (l : list A) (k : list B) :
  NoDup l -> NoDup (map fst (zip l k)).
Proof.
  revert k. induction l as [|x l IH]; intros k Hnd; [constructor|].
  destruct k as [|y k]; [constructor|]. simpl.
  apply NoDup_cons in Hnd as [Hx Hnd]. apply NoDup_cons. split; [|now apply IH].
  intros Hin. apply Hx. apply list_elem_of_In in Hin. apply in_map_iff in Hin as ([a b] & Ha & Hin).
  simpl in Ha. subst a. apply list_elem_of_In. apply list_elem_of_In in Hin.
  apply elem_of_zip_l in Hin. now apply list_elem_of_In.
Qed.

Lemma column_values_length (sheet : SheetData) (header : string) :
  NoDup (headers sheet) ->
  (length (column_values sheet header) <= length (rows sheet))%nat.
Proof.
  intros Hnd. unfold column_values. induction (rows sheet) as [|row l IH]; [simpl; lia|].
  simpl. rewrite length_app.
  pose proof (row_values_at_most_one header (zip (headers sheet) row)
                (zip_fst_NoDup _ _ Hnd)). lia.
Qed.

(** X12: For a sheet whose headers are distinct, the numeric columns come in
    the order of the sheet, and each has at least one value and at most one
    value per data row. *)
Theorem numeric_columns_shape (sheet : SheetData) (columns : columns_dict) :
  NoDup (headers sheet) ->
  numeric_columns sheet = Ok columns ->
  sublist (map fst columns) (headers sheet)
  /\ forall header values,
       In (header, values) columns ->
       (1 <= length values <= length (rows sheet))%nat.
Proof.
  intros Hnd Hcolumns. rewrite numeric_columns_eq in Hcolumns. injection Hcolumns as <-.
  rewrite (first_occurrences_distinct _ Hnd). split.
  - transitivity (map fst (dict_of (headers sheet) (column_values sheet))).
    + generalize (dict_of (headers sheet) (column_values sheet)). intros d.
      induction d as [|e d IH]; simpl; [constructor|].
      destruct (kept_b e); simpl; now constructor.
    + now rewrite dict_of_keys.
  - intros header values Hin. apply filter_In in Hin as [Hin Hkept].
    unfold dict_of in Hin. apply in_map_iff in Hin as (k & Heq & _).
    injection Heq as <- <-. split; [|now apply column_values_length].
    unfold kept_b in Hkept. simpl in Hkept.
    destruct (column_values sheet k); [discriminate|simpl; lia].
Qed.

Lemma numeric_columns_shape_witness :
  exists columns,
    numeric_columns sheet_with_commas = Ok columns
    /\ sublist (map fst columns) ["Amount"; "Total"]
    /\ columns = [("Amount", [Fin (12 # 1); Fin (7 # 1)]);
                  ("Total", [Fin (1250 # 1); Fin (3000000 # 1)])].
Proof.
  assert (Heq : numeric_columns sheet_with_commas
                = Ok [("Amount", [Fin (12 # 1); Fin (7 # 1)]);
                      ("Total", [Fin (1250 # 1); Fin (3000000 # 1)])])
    by (vm_compute; reflexivity).
  assert (Hnd : NoDup (headers sheet_with_commas))
    by (apply (bool_decide_unpack _); vm_compute; exact I).
  eexists. split; [exact Heq|]. split; [|reflexivity].
  apply (numeric_columns_shape sheet_with_commas _ Hnd Heq).
Defined.

(** ** Digit extraction: what the loop of [leading_digits] guarantees *)

Lemma leading_digit_guard (v : float) (d : Z) :
  leading_digit v = Ok (Some d) -> 1 <= d <= 9.
Proof.
  unfold leading_digit. destruct (float_eqb v (float_of_int 0)); [discriminate|].
  destruct (floor_log10 (float_abs v)) as [exponent|e]; [|discriminate].
  unfold mbind, result_bind.
  destruct (pow10 exponent) as [divisor|e]; [|discriminate].
  destruct (float_truediv (float_abs v) divisor) as [quotient|e]; [|discriminate].
  destruct (int_of_float quotient) as [leading|e]; [|discriminate].
  destruct ((1 <=? leading) && (leading <=? 9)) eqn:Hguard; [|discriminate].
  intros H. injection H as <-. apply andb_true_iff in Hguard as [H1 H9]. lia.
Qed.

Lemma leading_digits_loop (values : list float) (digits0 digits : list Z) :
  for_each (fun (digits : list Z) (v : float) =>
              d ← leading_digit v;
              Ok match d with
                 | Some leading => (digits ++ [leading])%list
                 | None => digits
                 end)
           values digits0 = Ok digits ->
  exists added,
    digits = (digits0 ++ added)%list
    /\ Forall (fun d => 1 <= d <= 9) added
    /\ (length added <= length values)%nat.
Proof.
  revert digits0. induction values as [|v values IH]; intros digits0 H.
  - injection H as <-. exists []. rewrite app_nil_r. repeat split; [constructor|simpl; lia].
  - rewrite for_each_cons in H. unfold mbind at 1, result_bind at 1 in H.
    destruct (leading_digit v) as [[d|]|e] eqn:Hv; unfold mbind, result_bind in H;
      [| |discriminate].
    + apply IH in H as (added & -> & Hall & Hlen). exists (d :: added).
      rewrite <- app_assoc. repeat split; [|simpl; lia].
      constructor; [now apply (leading_digit_guard v)|assumption].
    + apply IH in H as (added & -> & Hall & Hlen). exists added.
      repeat split; [assumption|simpl; lia].
Qed.

(** X14: Whatever the values, a list that [leading_digits] returns holds only
    digits from 1 to 9, and at most one digit per value. *)
Theorem leading_digits_range (values : list float) (digits : list Z) :
  leading_digits values = Ok digits ->
  Forall (fun d => 1 <= d <= 9) digits
  /\ (length digits <= length values)%nat.
Proof.
  intros H. apply leading_digits_loop in H as (added & -> & Hall & Hlen). now split.
Qed.

Lemma leading_digits_range_witness :
  Forall (fun d => 1 <= d <= 9) [1; 2; 3]
  /\ (length [1; 2; 3] <= length [Fin (100 # 1); Fin 0; Fin (-250 # 1); Fin (3 # 8)])%nat.
Proof.
  apply (leading_digits_range [Fin (100 # 1); Fin 0; Fin (-250 # 1); Fin (3 # 8)]).
  vm_compute. reflexivity.
Defined.

Lemma leading_digit_non_finite (v : float) :
  is_finite v = false -> exists e, leading_digit v = Raise e.
Proof. destruct v as [q|[]|]; [discriminate| | |]; intros _; eexists; reflexivity. Qed.

Lemma leading_digits_loop_raises (values : list float) (v : float) (digits0 : list Z) :
  In v values -> is_finite v = false ->
  exists e,
    for_each (fun (digits : list Z) (v : float) =>
              d ← leading_digit v;
              Ok match d with
                 | Some leading => (digits ++ [leading])%list
                 | None => digits
                 end)
             values digits0 = Raise e.
Proof.
  revert digits0. induction values as [|v' values IH]; intros digits0 Hin Hv; [destruct Hin|].
  rewrite for_each_cons. unfold mbind at 1, result_bind at 1.
  destruct (leading_digit v') as [d|e] eqn:Hv'; unfold mbind, result_bind.
  - destruct Hin as [->|Hin].
    + destruct (leading_digit_non_finite v Hv) as [e He]. congruence.
    + now apply IH.
  - now exists e.
Qed.

(** X15: A value that is infinite or NaN, anywhere in the list, makes
    [leading_digits] raise: the loop has no guard for it and no handler,
    so no digit of the column is returned. *)
Theorem leading_digits_non_finite (values : list float) (v : float) :
  In v values -> is_finite v = false ->
  exists e, leading_digits values = Raise e.
Proof. intros Hin Hv. now apply leading_digits_loop_raises with (v := v). Qed.

Lemma leading_digits_non_finite_witness :
  exists e, leading_digits [Fin (12 # 1); NaN; Fin (7 # 1)] = Raise e.
Proof.
  apply (leading_digits_non_finite [Fin (12 # 1); NaN; Fin (7 # 1)] NaN).
  - simpl. right. left. reflexivity.
  - reflexivity.
Defined.

Lemma float_abs_involutive (v : float) : float_abs (float_abs v) = float_abs v.
Proof.
  destruct v as [[n d]| |]; try reflexivity. simpl. unfold Qabs. now rewrite Z.abs_idemp.
Qed.

Lemma is_zero_abs (v : float) : is_zero (float_abs v) = is_zero v.
Proof.
  destruct v as [q| |]; try reflexivity. unfold is_zero. simpl.
  apply eq_true_iff_eq. rewrite !Qeq_bool_iff. change (inject_Z 0) with 0%Q.
  split; intros H.
  - revert H. apply Qabs_case; intros _ H; lra.
  - rewrite H. reflexivity.
Qed.

Lemma leading_digit_abs (v : float) : leading_digit (float_abs v) = leading_digit v.
Proof.
  unfold leading_digit. fold (is_zero (float_abs v)). fold (is_zero v).
  rewrite is_zero_abs, float_abs_involutive. reflexivity.
Qed.

Lemma leading_digit_is_zero (v : float) : is_zero v = true -> leading_digit v = Ok None.
Proof. unfold leading_digit, is_zero. now intros ->. Qed.

Lemma leading_digits_loop_magnitudes (values : list float) (digits0 : list Z) :
  for_each (fun (digits : list Z) (v : float) =>
              d ← leading_digit v;
              Ok match d with
                 | Some leading => (digits ++ [leading])%list
                 | None => digits
                 end)
           (map float_abs (List.filter (fun v => negb (is_zero v)) values)) digits0
  = for_each (fun (digits : list Z) (v : float) =>
              d ← leading_digit v;
              Ok match d with
                 | Some leading => (digits ++ [leading])%list
                 | None => digits
                 end)
             values digits0.
Proof.
  revert digits0. induction values as [|v values IH]; intros digits0; [reflexivity|].
  cbn [List.filter]. destruct (is_zero v) eqn:Hv; cbn [negb map].
  - rewrite IH, (for_each_cons _ v). rewrite (leading_digit_is_zero v Hv). reflexivity.
  - rewrite !for_each_cons, leading_digit_abs. unfold mbind at 1 3, result_bind at 1 3.
    destruct (leading_digit v) as [d|e]; unfold mbind, result_bind; [|reflexivity].
    apply IH.
Qed.

(** X16: [leading_digits] looks at the magnitudes of the values that are not
    zero and at nothing else: dropping the zeros and the signs of a list
    changes neither the digits returned nor the error raised. *)
Theorem leading_digits_magnitudes (values : list float) :
  leading_digits (map float_abs (List.filter (fun v => negb (is_zero v)) values))
  = leading_digits values.
Proof. apply leading_digits_loop_magnitudes. Qed.

(** ** Histogram: the counts add up to the number of digits *)

Lemma total_count_length (digits : list Z) :
  Forall (fun d => 1 <= d <= 9) digits -> total_count digits = Z.of_nat (length digits).
Proof.
  unfold total_count. rewrite range_1_10. cbn [map foldr].
  induction 1 as [|x l Hx _ IH]; [reflexivity|].
  rewrite !py_count_cons. simpl length.
  assert (Hcases : x = 1 \/ x = 2 \/ x = 3 \/ x = 4 \/ x = 5 \/ x = 6 \/ x = 7 \/ x = 8 \/ x = 9)
    by lia.
  destruct Hcases as [->|[->|[->|[->|[->|[->|[->|[->| ->]]]]]]]];
    cbn [Z.eqb Pos.eqb]; lia.
Qed.

Lemma observed_share_bounds (digits : list Z) (d : Z) :
  Forall (fun d => 1 <= d <= 9) digits ->
  (0 <= observed_share digits d <= 1)%Q.
Proof.
  intros Hall. unfold observed_share. rewrite (total_count_length digits Hall).
  pose proof (py_count_bounds digits d) as [H0 Hle].
  destruct (Z.eqb_spec (Z.of_nat (length digits)) 0) as [_|Hne]; [split; lra|].
  assert (Hpos : (0 < inject_Z (Z.of_nat (length digits)))%Q).
  { change 0%Q with (inject_Z 0). rewrite <- Zlt_Qlt. lia. }
  apply binary64_unit.
  - apply Qle_shift_div_l; [assumption|]. rewrite Qmult_0_l.
    change 0%Q with (inject_Z 0). now rewrite <- Zle_Qle.
  - apply Qle_shift_div_r; [assumption|]. rewrite Qmult_1_l. now rewrite <- Zle_Qle.
Qed.

(** X17: The histogram of a column loses no digit: its nine counts add up to
    the number of digits extracted from the column, each count lies
    between 0 and that number, and each observed share between 0 and 1. *)
Theorem benford_for_column_totals (EXPECTED_DIGITS : Z -> Q) (values : list float)
    (label : string) (rows : list digit_row) :
  benford_for_column EXPECTED_DIGITS values label = Ok rows ->
  exists digits,
    leading_digits values = Ok digits
    /\ sum_int (map count rows) = Z.of_nat (length digits)
    /\ Forall (fun row => 0 <= count row <= Z.of_nat (length digits)
                          /\ (0 <= observed row <= 1)%Q) rows.
Proof.
  intros Hrows. destruct (leading_digits values) as [digits|e] eqn:Hdigits.
  - exists digits. split; [reflexivity|].
    rewrite (benford_for_column_rows _ _ _ _ Hdigits) in Hrows.
    assert (Heq' : rows = map (histogram_row EXPECTED_DIGITS label digits) (range 1 10))
      by congruence.
    rewrite Heq'. clear Heq' Hrows.
    destruct (leading_digits_loop _ _ _ Hdigits) as (added & Heq & Hall & _).
    simpl in Heq. subst added. split.
    + rewrite sum_int_foldr, <- (total_count_length digits Hall), List.map_map.
      reflexivity.
    + apply Forall_forall. intros row Hin. apply list_elem_of_In in Hin.
      apply in_map_iff in Hin as (d & <- & _). simpl. split.
      * apply py_count_bounds.
      * now apply observed_share_bounds.
  - unfold benford_for_column in Hrows. rewrite Hdigits in Hrows. discriminate.
Qed.

Lemma benford_for_column_totals_witness :
  exists digits,
    leading_digits [Fin (100 # 1); Fin 0; Fin (-250 # 1); Fin (3 # 8)] = Ok digits
    /\ sum_int (map count
                  (map (histogram_row EXPECTED_DIGITS_binary64 "A" [1; 2; 3]) (range 1 10)))
       = Z.of_nat (length digits)
    /\ Forall (fun row => 0 <= count row <= Z.of_nat (length digits)
                          /\ (0 <= observed row <= 1)%Q)
              (map (histogram_row EXPECTED_DIGITS_binary64 "A" [1; 2; 3]) (range 1 10)).
Proof.
  apply (benford_for_column_totals EXPECTED_DIGITS_binary64
           [Fin (100 # 1); Fin 0; Fin (-250 # 1); Fin (3 # 8)] "A").
  vm_compute. reflexivity.
Defined.

(** ** Summary: shape of the report, totals and ties *)

Lemma for_each_length {A B} (body : list B -> A -> result (list B)) (l : list A)
    (s s' : list B) :
  (forall s x s', body s x = Ok s' -> length s' = S (length s)) ->
  for_each body l s = Ok s' -> length s' = (length s + length l)%nat.
Proof.
  intros Hstep. revert s. induction l as [|x l IH]; intros s H.
  - injection H as <-. simpl. lia.
  - rewrite for_each_cons in H. destruct (body s x) as [s1|e] eqn:Hbody; [|discriminate].
    unfold mbind, result_bind in H. apply IH in H. rewrite H, (Hstep _ _ _ Hbody).
    simpl. lia.
Qed.


Lemma result_bind_ok_inv {A B} (m : result A) (k : A -> result B) (r : B) :
  (x ← m; k x) = Ok r -> exists a, m = Ok a /\ k a = Ok r.
Proof. destruct m as [a|e]; [|discriminate]. intros H. now exists a. Qed.

Lemma sorted_insert_filter {A} (leb : A -> A -> bool) (P : A -> bool) (x : A) (l : list A) :
  (forall a b, leb a b = false -> P a = true -> P b = true -> False) ->
  List.filter P (sorted_insert leb x l) = List.filter P (x :: l).
Proof.
  intros Hcompat. induction l as [|y l IH]; [reflexivity|].
  cbn [sorted_insert]. destruct (leb x y) eqn:Hxy; [reflexivity|].
  cbn [List.filter] in *. rewrite IH.
  destruct (P x) eqn:Hx, (P y) eqn:Hy; try reflexivity.
  destruct (Hcompat x y Hxy Hx Hy).
Qed.

Lemma py_sorted_filter {A} (leb : A -> A -> bool) (P : A -> bool) (l : list A) :
  (forall a b, leb a b = false -> P a = true -> P b = true -> False) ->
  List.filter P (py_sorted leb l) = List.filter P l.
Proof.
  intros Hcompat. induction l as [|x l IH]; [reflexivity|].
  change (py_sorted leb (x :: l)) with (sorted_insert leb x (py_sorted leb l)).
  rewrite (sorted_insert_filter leb P x _ Hcompat). cbn [List.filter]. now rewrite IH.
Qed.

Lemma map_filter_sublist {A B} (f : A -> B) (P : A -> bool) (l : list A) :
  sublist (map f (List.filter P l)) (map f l).
Proof.
  induction l as [|x l IH]; simpl; [constructor|].
  destruct (P x); simpl; now constructor.
Qed.

Section Report.

Variable EXPECTED_DIGITS : Z -> Q.
Variable compensated : bool.

Lemma summary_of_total (detail : list digit_row) (label : string) (row : summary_row) :
  summary_of compensated detail label = Ok row ->
  total_values row
  = sum_int (map count (List.filter (fun r => String.eqb (column r) label) detail)).
Proof.
  unfold summary_of. intros H.
  apply result_bind_ok_inv in H as (max_dev_row & _ & H).
  apply result_bind_ok_inv in H as (m & _ & H).
  apply result_bind_ok_inv in H as (x & _ & H).
  injection H as <-. reflexivity.
Qed.

Lemma summarize_benford_rows (columns : columns_dict)
    (summary : list summary_row) (detail : list digit_row) :
  NoDup (map fst columns) ->
  summarize_benford EXPECTED_DIGITS compensated columns = Ok (summary, detail) ->
  exists rows,
    summary = py_sorted (fun a b => Qle_bool (mad b) (mad a)) rows
    /\ detail = detail_of EXPECTED_DIGITS columns
    /\ Forall2 (fun (entry : string * list float) row =>
                  s_column row = fst entry
                  /\ total_values row = total_count (digits_of (snd entry)))
               columns rows.
Proof.
  intros Hnd Hresult.
  pose proof (summarize_benford_ok_inv _ _ _ _ _ Hresult) as Hok.
  unfold summarize_benford in Hresult.
  rewrite (detail_loop EXPECTED_DIGITS columns Hok) in Hresult.
  unfold mbind at 1, result_bind at 1 in Hresult.
  destruct (for_each_snoc_exists
              (fun (entry : string * list float) row =>
                 s_column row = fst entry
                 /\ total_values row = total_count (digits_of (snd entry)))
              (fun (summary : list summary_row) (entry : string * list float) =>
                 row ← summary_of compensated (detail_of EXPECTED_DIGITS columns) (fst entry);
                 Ok (summary ++ [row])%list)
              columns [])
    as (rows & Hrows & Hall).
  - intros [label values] Hin. simpl.
    assert (Hfilter : List.filter (fun r => String.eqb (column r) label)
                                  (detail_of EXPECTED_DIGITS columns)
                      = map (histogram_row EXPECTED_DIGITS label (digits_of values))
                            (range 1 10)).
    { unfold detail_of.
      apply (filter_label_flat_map
               (fun entry : string * list float =>
                  map (histogram_row EXPECTED_DIGITS (fst entry) (digits_of (snd entry)))
                      (range 1 10))
               columns label values); [|assumption|assumption].
      intros entry r Hr. apply in_map_iff in Hr as (d & <- & _). reflexivity. }
    destruct (summary_of_histogram EXPECTED_DIGITS compensated _ label (digits_of values) Hfilter)
      as (row & Hrow & Hlabel & _).
    exists row. split; [split; [assumption|]|].
    + rewrite (summary_of_total _ _ _ Hrow), Hfilter, sum_int_foldr, List.map_map.
      reflexivity.
    + intros s. now rewrite Hrow.
  - rewrite Hrows in Hresult. unfold mbind, result_bind in Hresult. simpl in Hresult.
    injection Hresult as <- <-. now exists rows.
Qed.

End Report.

Lemma summarize_benford_lengths (EXPECTED_DIGITS : Z -> Q) (compensated : bool)
    (columns : columns_dict)
    (summary : list summary_row) (detail : list digit_row) :
  summarize_benford EXPECTED_DIGITS compensated columns = Ok (summary, detail) ->
  detail = detail_of EXPECTED_DIGITS columns
  /\ length detail = (9 * length columns)%nat
  /\ length summary = length columns.
Proof.
  intros Hresult.
  pose proof (summarize_benford_ok_inv _ _ _ _ _ Hresult) as Hok.
  unfold summarize_benford in Hresult.
  rewrite (detail_loop EXPECTED_DIGITS columns Hok) in Hresult.
  unfold mbind at 1, result_bind at 1 in Hresult.
  destruct (for_each _ columns []) as [rows|e] eqn:Hrows; [|discriminate].
  unfold mbind, result_bind in Hresult.
  assert (Hsummary : summary = py_sorted (fun a b => Qle_bool (mad b) (mad a)) rows)
    by congruence.
  assert (Hdetail : detail = detail_of EXPECTED_DIGITS columns) by congruence.
  clear Hresult. split; [exact Hdetail|]. split.
  - rewrite Hdetail. unfold detail_of. clear. induction columns as [|entry columns IH].
    + reflexivity.
    + cbn [flat_map]. rewrite length_app, IH, length_map, range_1_10. simpl. lia.
  - rewrite Hsummary, (Permutation_length (py_sorted_perm _ rows)).
    apply for_each_length in Hrows; [exact Hrows|].
    intros s x s'. destruct (summary_of _ _ _) as [row|e]; [|discriminate].
    unfold mbind, result_bind. intros H. injection H as <-.
    rewrite length_app. simpl. lia.
Qed.

(** X18: Whenever the engine returns, the detail is the concatenation, in the
    order of the mapping, of the nine-row histograms of the columns, and
    the summary has one row per column: so the detail is empty exactly
    when the summary is, which is when there is no column. *)
Theorem summarize_benford_shape (EXPECTED_DIGITS : Z -> Q) (compensated : bool)
    (columns : columns_dict)
    (summary : list summary_row) (detail : list digit_row) :
  summarize_benford EXPECTED_DIGITS compensated columns = Ok (summary, detail) ->
  detail = flat_map (fun entry : string * list float =>
                       map (histogram_row EXPECTED_DIGITS (fst entry) (digits_of (snd entry)))
                           (range 1 10))
                    columns
  /\ length detail = (9 * length columns)%nat
  /\ length summary = length columns.
Proof. apply summarize_benford_lengths. Qed.

Lemma summarize_benford_shape_witness :
  exists summary detail,
    summarize_benford EXPECTED_DIGITS_binary64 false
      [("A", [Fin (100 # 1); Fin (200 # 1); Fin (300 # 1)]); ("B", [Fin (5 # 1)])]
    = Ok (summary, detail)
    /\ length detail = 18%nat /\ length summary = 2%nat.
Proof.
  destruct (summarize_benford EXPECTED_DIGITS_binary64 false
              [("A", [Fin (100 # 1); Fin (200 # 1); Fin (300 # 1)]); ("B", [Fin (5 # 1)])])
    as [[summary detail]|e] eqn:Hresult; [|vm_compute in Hresult; discriminate].
  exists summary, detail. split; [reflexivity|].
  exact (proj2 (summarize_benford_shape _ _ _ _ _ Hresult)).
Defined.

(** X19: For a mapping of columns (each key once), the [total_values] of a
    summary row is the number of digits extracted from its column: no digit
    is lost between the extraction and the summary.  It is at most the
    number of values of the column, and less when the column has zeros. *)
Theorem summarize_benford_total_values (EXPECTED_DIGITS : Z -> Q) (compensated : bool)
    (columns : columns_dict)
    (summary : list summary_row) (detail : list digit_row) :
  NoDup (map fst columns) ->
  summarize_benford EXPECTED_DIGITS compensated columns = Ok (summary, detail) ->
  forall row, In row summary ->
    exists values digits,
      In (s_column row, values) columns
      /\ leading_digits values = Ok digits
      /\ total_values row = Z.of_nat (length digits)
      /\ 0 <= total_values row <= Z.of_nat (length values).
Proof.
  intros Hnd Hresult row Hrow.
  pose proof (summarize_benford_ok_inv _ _ _ _ _ Hresult) as Hok.
  destruct (summarize_benford_rows _ _ _ _ _ Hnd Hresult) as (rows & -> & _ & Hall).
  assert (Hin : In row rows).
  { apply list_elem_of_In. rewrite <- (py_sorted_perm (fun a b => Qle_bool (mad b) (mad a)) rows).
    now apply list_elem_of_In. }
  clear Hresult Hrow Hnd.
  induction Hall as [|entry r columns rows [Hlabel Htotal] _ IH]; [destruct Hin|].
  destruct Hin as [->|Hin].
  - destruct entry as [label values]. simpl in *.
    destruct (Hok label values (or_introl eq_refl)) as [digits Hdigits].
    exists values, digits. rewrite Hlabel.
    rewrite (digits_of_ok _ _ Hdigits) in Htotal.
    destruct (leading_digits_loop _ _ _ Hdigits) as (added & Heq & Hrange & Hlen).
    simpl in Heq. subst added.
    rewrite (total_count_length digits Hrange) in Htotal.
    split; [now left|]. split; [assumption|]. split; [assumption|]. lia.
  - destruct IH as (values & digits & H1 & H2 & H3 & H4); [|assumption|].
    + intros label values H. apply (Hok label values). now right.
    + exists values, digits. split; [now right|auto].
Qed.

Lemma summarize_benford_total_values_witness :
  exists summary detail,
    summarize_benford EXPECTED_DIGITS_binary64 false
      [("A", [Fin (100 # 1); Fin 0; Fin (300 # 1)]); ("B", [Fin (5 # 1)])]
    = Ok (summary, detail)
    /\ forall row, In row summary ->
         exists values digits,
           In (s_column row, values)
              [("A", [Fin (100 # 1); Fin 0; Fin (300 # 1)]); ("B", [Fin (5 # 1)])]
           /\ leading_digits values = Ok digits
           /\ total_values row = Z.of_nat (length digits)
           /\ 0 <= total_values row <= Z.of_nat (length values).
Proof.
  assert (Hnd : NoDup (map fst [("A", [Fin (100 # 1); Fin 0; Fin (300 # 1)]);
                                ("B", [Fin (5 # 1)])]))
    by (apply (bool_decide_unpack _); vm_compute; exact I).
  destruct (summarize_benford EXPECTED_DIGITS_binary64 false
              [("A", [Fin (100 # 1); Fin 0; Fin (300 # 1)]); ("B", [Fin (5 # 1)])])
    as [[summary detail]|e] eqn:Hresult; [|vm_compute in Hresult; discriminate].
  exists summary, detail. split; [reflexivity|].
  exact (summarize_benford_total_values _ _ _ _ _ Hnd Hresult).
Defined.

(** X20: The sort of the summary is stable: the columns whose [mad] equals a
    given number stand in the summary in the order they have in the
    mapping. *)
Theorem summarize_benford_ties (EXPECTED_DIGITS : Z -> Q) (compensated : bool)
    (columns : columns_dict)
    (summary : list summary_row) (detail : list digit_row) (m : Q) :
  NoDup (map fst columns) ->
  summarize_benford EXPECTED_DIGITS compensated columns = Ok (summary, detail) ->
  sublist (map s_column (List.filter (fun row => Qeq_bool (mad row) m) summary))
          (map fst columns).
Proof.
  intros Hnd Hresult.
  destruct (summarize_benford_rows _ _ _ _ _ Hnd Hresult) as (rows & -> & _ & Hall).
  rewrite py_sorted_filter.
  - assert (Hkeys : map s_column rows = map fst columns).
    { clear -Hall. induction Hall as [|entry row columns rows [Hlabel _] _ IH]; [reflexivity|].
      simpl. now rewrite Hlabel, IH. }
    rewrite <- Hkeys. apply map_filter_sublist.
  - intros a b Hab Ha Hb. apply Qeq_bool_iff in Ha, Hb.
    assert (Hle : Qle_bool (mad b) (mad a) = true).
    { apply Qle_bool_iff. rewrite Ha, Hb. apply Qle_refl. }
    congruence.
Qed.

Lemma summarize_benford_ties_witness :
  exists summary detail,
    summarize_benford EXPECTED_DIGITS_binary64 false
      [("B", [Fin (5 # 1)]); ("C", [Fin (100 # 1); Fin (2 # 1)]); ("A", [Fin (-50 # 1)])]
    = Ok (summary, detail)
    /\ map s_column summary = ["B"; "A"; "C"]
    /\ sublist (map s_column (List.filter (fun row => Qeq_bool (mad row)
                                                        (mad (default (mkSummaryRow "" 0 0 0 0)
                                                                      (head summary))))
                                          summary))
               ["B"; "C"; "A"].
Proof.
  assert (Hnd : NoDup (map fst [("B", [Fin (5 # 1)]); ("C", [Fin (100 # 1); Fin (2 # 1)]);
                                ("A", [Fin (-50 # 1)])]))
    by (apply (bool_decide_unpack _); vm_compute; exact I).
  destruct (summarize_benford EXPECTED_DIGITS_binary64 false
              [("B", [Fin (5 # 1)]); ("C", [Fin (100 # 1); Fin (2 # 1)]); ("A", [Fin (-50 # 1)])])
    as [[summary detail]|e] eqn:Hresult; [|vm_compute in Hresult; discriminate].
  exists summary, detail. split; [reflexivity|]. split.
  - vm_compute in Hresult. injection Hresult as <- _. reflexivity.
  - exact (summarize_benford_ties _ _ _ _ _ _ Hnd Hresult).
Defined.

(** ** The pipeline as a whole *)


Lemma numeric_columns_keys_NoDup (sheet : SheetData) (columns : columns_dict) :
  numeric_columns sheet = Ok columns -> NoDup (map fst columns).
Proof.
  rewrite numeric_columns_eq. intros H. injection H as <-.
  apply filter_fst_NoDup. rewrite dict_of_keys.
  apply (first_occurrences_spec (headers sheet)).
Qed.



(** X23: When [main] reaches the writers, the numeric columns have distinct
    names, the summary holds exactly these names, and the detail has nine
    rows for each row of the summary: the two result files, and the two
    charts that [main] draws only for a non-empty list, are empty or absent
    together. *)
Theorem main_report (float_repr : float -> string) (EXPECTED_DIGITS : Z -> Q)
    (compensated : bool) (input : Package) (columns : columns_dict)
    (summary : list summary_row) (detail : list digit_row) :
  main float_repr EXPECTED_DIGITS compensated input = Ok (columns, (summary, detail)) ->
  NoDup (map fst columns)
  /\ map s_column summary ≡ₚ map fst columns
  /\ length detail = (9 * length summary)%nat
  /\ (summary = [] <-> detail = []).
Proof.
  unfold main. intros Hmain.
  apply result_bind_ok_inv in Hmain as (sheet & _ & Hmain).
  apply result_bind_ok_inv in Hmain as (columns' & Hcolumns & Hmain).
  apply result_bind_ok_inv in Hmain as ([summary' detail'] & Hreport & Hmain).
  injection Hmain as -> -> ->.
  pose proof (numeric_columns_keys_NoDup _ _ Hcolumns) as Hnd.
  destruct (summarize_benford_lengths _ _ _ _ _ Hreport) as (_ & Hdetail & Hsummary).
  destruct (summarize_benford_rows _ _ _ _ _ Hnd Hreport) as (rows & Hsorted & _ & Hall).
  split; [assumption|]. split; [|split].
  - rewrite Hsorted, (py_sorted_perm _ rows). clear -Hall.
    induction Hall as [|entry row columns rows [Hlabel _] _ IH]; simpl; [reflexivity|].
    rewrite Hlabel. now constructor.
  - lia.
  - split; intros ->; simpl in *.
    + destruct detail; [reflexivity|simpl in Hdetail; lia].
    + destruct summary; [reflexivity|simpl in Hdetail, Hsummary; lia].
Qed.

Lemma main_report_witness :
  exists columns summary detail,
    main float_repr_integral EXPECTED_DIGITS_binary64 false package_three_rows
    = Ok (columns, (summary, detail))
    /\ map fst columns = ["A"]
    /\ map s_column summary ≡ₚ map fst columns
    /\ length detail = (9 * length summary)%nat.
Proof.
  destruct (main float_repr_integral EXPECTED_DIGITS_binary64 false package_three_rows)
    as [[columns [summary detail]]|e] eqn:Hmain; [|vm_compute in Hmain; discriminate].
  exists columns, summary, detail. split; [reflexivity|].
  destruct (main_report _ _ _ _ _ _ _ Hmain) as (_ & Hperm & Hlen & _).
  split; [|split; assumption].
  vm_compute in Hmain. injection Hmain as <- _ _. reflexivity.
Defined.

(** ** The overall chart: the histogram of the pooled digits *)

Lemma totals_of_lookup (g : Z -> Z) (k : Z) :
  totals_of g !! k = if (1 <=? k) && (k <=? 9) then Some (g k) else None.
Proof.
  unfold totals_of. destruct ((1 <=? k) && (k <=? 9)) eqn:Hk.
  - apply andb_true_iff in Hk as [H1 H9].
    apply elem_of_list_to_map_1.
    + rewrite fst_map_pair. apply NoDup_seqZ.
    + apply list_elem_of_fmap. exists k. split; [reflexivity|].
      unfold range. apply elem_of_seqZ. lia.
  - apply not_elem_of_list_to_map_1. rewrite fst_map_pair. unfold range.
    intros Hin. apply elem_of_seqZ in Hin. apply andb_false_iff in Hk as [Hk|Hk]; lia.
Qed.

Lemma totals_of_ext (g g' : Z -> Z) :
  (forall k, 1 <= k <= 9 -> g k = g' k) -> totals_of g = totals_of g'.
Proof.
  intros Hext. apply map_eq. intros k. rewrite !totals_of_lookup.
  destruct ((1 <=? k) && (k <=? 9)) eqn:Hk; [|reflexivity].
  apply andb_true_iff in Hk as [H1 H9]. rewrite Hext by lia. reflexivity.
Qed.

Lemma totals_of_insert (g : Z -> Z) (d v : Z) :
  1 <= d <= 9 ->
  <[d := v]> (totals_of g) = totals_of (fun k => if k =? d then v else g k).
Proof.
  intros Hd. apply map_eq. intros k. rewrite totals_of_lookup.
  destruct (Z.eqb_spec k d) as [->|Hne].
  - rewrite lookup_insert_eq.
    destruct ((1 <=? d) && (d <=? 9)) eqn:Hk; [reflexivity|].
    apply andb_false_iff in Hk as [Hk|Hk]; lia.
  - rewrite lookup_insert_ne by congruence. apply totals_of_lookup.
Qed.

Lemma totals_of_sum (g : Z -> Z) :
  sum_int (map snd (map_to_list (totals_of g))) = foldr Z.add 0 (map g (range 1 10)).
Proof.
  rewrite sum_int_foldr. apply foldr_add_perm.
  change (map snd) with (fmap (M:=list) (@snd Z Z)).
  unfold totals_of. rewrite map_to_list_to_map.
  - now rewrite snd_map_pair.
  - rewrite fst_map_pair. apply NoDup_seqZ.
Qed.

Lemma digit_total_cons (row : digit_row) (detail : list digit_row) (k : Z) :
  digit_total (row :: detail) k
  = (if digit row =? k then count row else 0) + digit_total detail k.
Proof. unfold digit_total. cbn [List.filter]. destruct (digit row =? k); reflexivity. Qed.

Lemma digit_total_app (detail1 detail2 : list digit_row) (k : Z) :
  digit_total (detail1 ++ detail2) k = digit_total detail1 k + digit_total detail2 k.
Proof.
  induction detail1 as [|row detail1 IH]; [reflexivity|].
  change ((row :: detail1) ++ detail2)%list with (row :: (detail1 ++ detail2))%list.
  rewrite !digit_total_cons, IH. lia.
Qed.

Lemma plot_overall_totals_loop (digit_detail : list digit_row) (g : Z -> Z) :
  Forall (fun row => 1 <= digit row <= 9) digit_detail ->
  for_each (fun (totals : gmap Z Z) (row : digit_row) =>
              match totals !! digit row with
              | Some t => Ok (<[digit row := t + count row]> totals)
              | None => Raise (Exn KeyError (str_of_int (digit row)))
              end)
           digit_detail (totals_of g)
  = Ok (totals_of (fun k => g k + digit_total digit_detail k)).
Proof.
  intros Hall. revert g. induction Hall as [|row detail Hrow _ IH]; intros g.
  - simpl. f_equal. apply totals_of_ext. intros k _. unfold digit_total. simpl. lia.
  - rewrite for_each_cons, totals_of_lookup.
    assert (Hk : (1 <=? digit row) && (digit row <=? 9) = true).
    { apply andb_true_iff. split; lia. }
    rewrite Hk. unfold mbind, result_bind.
    rewrite (totals_of_insert g _ _ Hrow), IH. f_equal.
    apply totals_of_ext. intros k _. rewrite digit_total_cons.
    destruct (Z.eqb_spec k (digit row)) as [->|Hne].
    + rewrite Z.eqb_refl. lia.
    + destruct (Z.eqb_spec (digit row) k) as [Heq|_]; [congruence|lia].
Qed.

Lemma py_count_app (l1 l2 : list Z) (k : Z) :
  py_count (l1 ++ l2) k = py_count l1 k + py_count l2 k.
Proof.
  induction l1 as [|x l1 IH]; [unfold py_count at 2; simpl; lia|].
  change ((x :: l1) ++ l2)%list with (x :: (l1 ++ l2))%list.
  rewrite !py_count_cons, IH. lia.
Qed.

Lemma digit_total_histogram (EXPECTED_DIGITS : Z -> Q) (label : string) (digits : list Z)
    (k : Z) :
  1 <= k <= 9 ->
  digit_total (map (histogram_row EXPECTED_DIGITS label digits) (range 1 10)) k
  = py_count digits k.
Proof.
  intros Hk. rewrite range_1_10. cbn [map]. rewrite !digit_total_cons.
  cbn [digit count histogram_row]. unfold digit_total. cbn [List.filter map foldr].
  assert (Hcases : k = 1 \/ k = 2 \/ k = 3 \/ k = 4 \/ k = 5 \/ k = 6 \/ k = 7 \/ k = 8 \/ k = 9)
    by lia.
  destruct Hcases as [->|[->|[->|[->|[->|[->|[->|[->| ->]]]]]]]];
    cbn [Z.eqb Pos.eqb]; lia.
Qed.

Lemma digit_total_detail (EXPECTED_DIGITS : Z -> Q) (columns : columns_dict) (k : Z) :
  1 <= k <= 9 ->
  digit_total (detail_of EXPECTED_DIGITS columns) k = py_count (pooled_digits columns) k.
Proof.
  intros Hk. unfold detail_of, pooled_digits.
  induction columns as [|entry columns IH]; [reflexivity|].
  cbn [flat_map]. rewrite digit_total_app, py_count_app, IH.
  now rewrite digit_total_histogram.
Qed.

Lemma detail_of_digits (EXPECTED_DIGITS : Z -> Q) (columns : columns_dict) :
  Forall (fun row => 1 <= digit row <= 9) (detail_of EXPECTED_DIGITS columns).
Proof.
  apply Forall_forall. intros row Hin. apply list_elem_of_In in Hin.
  unfold detail_of in Hin. apply in_flat_map in Hin as (entry & _ & Hin).
  apply in_map_iff in Hin as (d & <- & Hd). simpl. now apply in_range_1_10.
Qed.

(** X21: On the detail that the engine returns, [plot_overall] raises nothing
    (every row carries a digit that is a key of [totals]) and charts the
    histogram of the digits of all the columns pooled: the observed share
    of a digit is its count over all the columns divided by the number of
    digits of all the columns, and 0 when there is none. *)
Theorem plot_overall_pooled (EXPECTED_DIGITS : Z -> Q) (compensated : bool)
    (columns : columns_dict)
    (summary : list summary_row) (detail : list digit_row) :
  summarize_benford EXPECTED_DIGITS compensated columns = Ok (summary, detail) ->
  plot_overall EXPECTED_DIGITS detail
  = Ok ("Overall Benford Analysis (Observed vs Expected)",
        map str_of_int (range 1 10),
        [("Observed", map (observed_share (pooled_digits columns)) (range 1 10), "#1b9e77");
         ("Expected", map EXPECTED_DIGITS (range 1 10), "#7570b3")]).
Proof.
  intros Hresult.
  destruct (summarize_benford_lengths _ _ _ _ _ Hresult) as (-> & _ & _).
  unfold plot_overall, plot_overall_totals.
  change (list_to_map (map (fun digit : Z => (digit, 0)) (range 1 10)))
    with (totals_of (fun _ => 0)).
  rewrite (plot_overall_totals_loop _ _ (detail_of_digits EXPECTED_DIGITS columns)).
  rewrite (totals_of_ext _ (py_count (pooled_digits columns)))
    by (intros k Hk; rewrite (digit_total_detail EXPECTED_DIGITS columns k Hk); lia).
  unfold mbind at 1, result_bind at 1. cbv zeta. rewrite totals_of_sum.
  fold (total_count (pooled_digits columns)).
  rewrite (for_each_append _ (fun d => [observed_share (pooled_digits columns) d])).
  - reflexivity.
  - intros s d Hd. apply in_range_1_10 in Hd.
    rewrite lookup_total_alt, totals_of_lookup.
    assert (Hk : (1 <=? d) && (d <=? 9) = true) by (apply andb_true_iff; split; lia).
    rewrite Hk. cbn [from_option id].
    pose proof (py_count_le_total (pooled_digits columns) d Hd) as Hcount.
    unfold observed_share.
    destruct (Z.eqb_spec (total_count (pooled_digits columns)) 0) as [_|Hne]; [reflexivity|].
    rewrite int_truediv_share by lia. reflexivity.
Qed.

Lemma plot_overall_pooled_witness :
  exists observed expected,
    plot_overall EXPECTED_DIGITS_binary64
      (detail_of EXPECTED_DIGITS_binary64
         [("A", [Fin (100 # 1); Fin (200 # 1); Fin (300 # 1)]); ("B", [Fin (15 # 1)])])
    = Ok ("Overall Benford Analysis (Observed vs Expected)",
          ["1"; "2"; "3"; "4"; "5"; "6"; "7"; "8"; "9"],
          [("Observed", observed, "#1b9e77"); ("Expected", expected, "#7570b3")])
    /\ map Qred observed = [1 # 2; 1 # 4; 1 # 4; 0; 0; 0; 0; 0; 0]%Q.
Proof.
  assert (Hresult : exists summary,
             summarize_benford EXPECTED_DIGITS_binary64 false
               [("A", [Fin (100 # 1); Fin (200 # 1); Fin (300 # 1)]); ("B", [Fin (15 # 1)])]
             = Ok (summary,
                   detail_of EXPECTED_DIGITS_binary64
                     [("A", [Fin (100 # 1); Fin (200 # 1); Fin (300 # 1)]);
                      ("B", [Fin (15 # 1)])])).
  { eexists. vm_compute. reflexivity. }
  destruct Hresult as [summary Hresult].
  eexists. eexists. split.
  - rewrite (plot_overall_pooled _ _ _ _ _ Hresult). reflexivity.
  - vm_compute. reflexivity.
Defined.

(** ** The loader: shared strings, the parts read, a header cell of zero *)

Lemma text_run_texts (runs : list string) :
  map (fun node => default "" (text node))
      (List.filter (has_tag (NAMESPACE ++ "t"))
                   (flat_map (fun c => c :: descendants c) (map text_run runs)))
  = runs.
Proof.
  induction runs as [|s runs IH]; [reflexivity|].
  cbn [map flat_map]. rewrite List.filter_app, map_app, IH. reflexivity.
Qed.

Lemma item_element_text (item : string_item) :
  String.concat ""
    (map (fun node => default "" (text node))
         (findall_deep (item_element item) (NAMESPACE ++ "t")))
  = item_text item.
Proof.
  destruct item as [s|runs]; [reflexivity|].
  unfold findall_deep, item_element. cbn [descendants].
  now rewrite text_run_texts.
Qed.

Lemma item_elements_found (items : list string_item) :
  List.filter (has_tag (NAMESPACE ++ "si")) (map item_element items) = map item_element items.
Proof.
  induction items as [|item items IH]; [reflexivity|].
  cbn [map List.filter].
  assert (Htag : has_tag (NAMESPACE ++ "si") (item_element item) = true)
    by (destruct item; reflexivity).
  now rewrite Htag, IH.
Qed.

(** X3: Reading back a shared-string table: when the entries of the part are
    plain texts and rich texts, the loader returns their texts in order, a
    rich text as the concatenation of its runs. *)
Theorem read_shared_strings_items (zip_file : Package) (root : element)
    (items : list string_item) :
  zip_read zip_file "xl/sharedStrings.xml" = Some root ->
  children root = map item_element items ->
  read_shared_strings zip_file = map item_text items.
Proof.
  intros Hread Hchildren. unfold read_shared_strings. rewrite Hread.
  unfold findall. rewrite Hchildren, item_elements_found, List.map_map.
  apply map_ext. intros item. apply item_element_text.
Qed.

Lemma read_shared_strings_items_witness :
  read_shared_strings
    [("xl/sharedStrings.xml",
      Element (NAMESPACE ++ "sst") [("count", "2")] None
              (map item_element [Plain "Amount"; Rich ["Posting "; "date"]]));
     ("xl/worksheets/sheet1.xml", worksheet [])]
  = ["Amount"; "Posting date"].
Proof.
  apply (read_shared_strings_items _
           (Element (NAMESPACE ++ "sst") [("count", "2")] None
                    (map item_element [Plain "Amount"; Rich ["Posting "; "date"]]))
           [Plain "Amount"; Rich ["Posting "; "date"]]); reflexivity.
Defined.

Lemma string_leb_refl (s : string) : String.leb s s = true.
Proof.
  destruct (String.leb s s) eqn:H; [reflexivity|].
  pose proof (string_leb_total s s H). congruence.
Qed.

Lemma parts_read_shared (zip_file : Package) (name : string) (root : element) :
  is_sheet_name name = true ->
  zip_read (parts_read zip_file name root) "xl/sharedStrings.xml"
  = zip_read zip_file "xl/sharedStrings.xml".
Proof.
  intros Hname. unfold parts_read. rewrite zip_read_snoc. cbn [fst snd].
  destruct (String.eqb_spec name "xl/sharedStrings.xml") as [->|_];
    [vm_compute in Hname; discriminate|].
  destruct (zip_read zip_file "xl/sharedStrings.xml"); reflexivity.
Qed.

Lemma parts_read_selected (zip_file : Package) (name : string) (root : element) :
  is_sheet_name name = true -> selected_sheet (parts_read zip_file name root) name root.
Proof.
  intros Hname. unfold parts_read.
  assert (Hnames : forall other,
             In other (namelist (match zip_read zip_file "xl/sharedStrings.xml" with
                                 | Some shared => [("xl/sharedStrings.xml", shared)]
                                 | None => []
                                 end ++ [(name, root)])%list) ->
             other = "xl/sharedStrings.xml" \/ other = name).
  { intros other. unfold namelist. rewrite map_app, in_app_iff. intros [Hin|[<-|[]]].
    - destruct (zip_read zip_file "xl/sharedStrings.xml"); [|destruct Hin].
      destruct Hin as [<-|[]]. now left.
    - now right. }
  split; [|split; [assumption|split]].
  - unfold namelist. rewrite map_app, in_app_iff. right. now left.
  - intros other Hin Hother. destruct (Hnames other Hin) as [->| ->]; [discriminate|].
    apply string_leb_refl.
  - rewrite zip_read_snoc. cbn [fst snd]. now rewrite String.eqb_refl.
Qed.

(** X5: Of a package the extractor reads two parts and nothing else: the
    shared-string table and the worksheet whose part name comes first in
    the order of strings.  Every other part (the other worksheets, the
    workbook part that lists the sheets in their order) leaves the result,
    sheet or error, unchanged. *)
Theorem load_first_sheet_parts_read (float_repr : float -> string) (zip_file : Package)
    (name : string) (root : element) :
  selected_sheet zip_file name root ->
  load_first_sheet float_repr zip_file
  = load_first_sheet float_repr (parts_read zip_file name root).
Proof.
  intros Hsel. pose proof Hsel as (_ & Hname & _ & _).
  rewrite (load_first_sheet_selected float_repr _ _ _ Hsel).
  rewrite (load_first_sheet_selected float_repr _ _ _ (parts_read_selected zip_file name root Hname)).
  unfold read_shared_strings. now rewrite parts_read_shared.
Qed.

Lemma load_first_sheet_parts_read_witness :
  load_first_sheet float_repr_integral package_three_rows
  = load_first_sheet float_repr_integral
      [("xl/sharedStrings.xml", shared_strings_part);
       ("xl/worksheets/sheet1.xml", sheet_three_rows)].
Proof.
  apply (load_first_sheet_parts_read float_repr_integral package_three_rows
           "xl/worksheets/sheet1.xml" sheet_three_rows).
  split; [|split; [|split]].
  - simpl. right. right. left. reflexivity.
  - reflexivity.
  - intros other Hin Hother. simpl in Hin.
    destruct Hin as [<-|[<-|[<-|[]]]]; [discriminate|reflexivity|reflexivity].
  - reflexivity.
Defined.

(** X10: A header cell that holds a number equal to zero is treated like an
    empty one: [or] takes the synthetic name, so the header is
    ["Column" n] and the zero is lost. *)
Theorem load_first_sheet_zero_header (float_repr : float -> string) (zip_file : Package)
    (name : string) (root : element)
    (rows : gmap Z (gmap Z value)) (max_col : Z) (row1 : gmap Z value) (n : Z) (f : float) :
  selected_sheet zip_file name root ->
  scan_sheet (read_shared_strings zip_file) root = Ok (rows, max_col) ->
  rows !! 1 = Some row1 ->
  1 <= n <= max_col ->
  cells_get row1 n = VFloat f ->
  float_eqb f (Fin 0) = true ->
  exists sheet,
    load_first_sheet float_repr zip_file = Ok sheet
    /\ headers sheet !! Z.to_nat (n - 1) = Some ("Column" ++ str_of_int n).
Proof.
  intros Hsel Hscan Hrow1 Hn Hcell Hzero.
  exists (sheet_of float_repr rows max_col row1). split.
  - rewrite (load_first_sheet_selected float_repr _ _ _ Hsel), Hscan, Hrow1. reflexivity.
  - simpl. unfold range.
    change (map (header_of float_repr row1) (seqZ 1 (max_col + 1 - 1)))
      with (header_of float_repr row1 <$> seqZ 1 (max_col + 1 - 1)).
    rewrite list_lookup_fmap, lookup_seqZ_lt by lia. simpl. f_equal.
    replace (1 + Z.of_nat (Z.to_nat (n - 1))) with n by lia.
    unfold header_of, py_or. rewrite Hcell. simpl. rewrite Hzero. simpl.
    apply strip_column_name.
Qed.

Lemma load_first_sheet_zero_header_witness :
  exists sheet,
    load_first_sheet float_repr_integral package_padded_header = Ok sheet
    /\ headers sheet !! Z.to_nat (2 - 1) = Some ("Column" ++ str_of_int 2).
Proof.
  assert (Hscan : exists rows max_col row1,
             scan_sheet (read_shared_strings package_padded_header) sheet_padded_header
             = Ok (rows, max_col)
             /\ rows !! 1 = Some row1
             /\ max_col = 2
             /\ cells_get row1 2 = VFloat (Fin 0)).
  { eexists. eexists. eexists. split; [vm_compute; reflexivity|].
    split; [vm_compute; reflexivity|]. split; reflexivity. }
  destruct Hscan as (rows & max_col & row1 & Hscan & Hrow1 & Hmax & Hcell).
  apply (load_first_sheet_zero_header float_repr_integral package_padded_header
           "xl/worksheets/sheet1.xml" sheet_padded_header rows max_col row1 2 (Fin 0)).
  - split; [|split; [|split]].
    + simpl. left. reflexivity.
    + reflexivity.
    + intros other Hin Hother. simpl in Hin. destruct Hin as [<-|[]]. reflexivity.
    + reflexivity.
  - exact Hscan.
  - exact Hrow1.
  - lia.
  - exact Hcell.
  - reflexivity.
Defined.

